(** * Channel-metrics dashboard: the metric and comparison engine

    A shallow embedding of the data transformations of [dashboard_508.py]
    (ingest, the two filter blocks, the per-row metrics, the peer group,
    [pct_norm], the recommendation list, the posting-frequency buckets and
    the category ranking), with the properties stated about them.

    Integer columns are [Z]; [channel_age_years] and every derived ratio
    are exact rationals [Q], compared with [==]; a missing cell (pandas'
    NaN) is [None] / [NaN] where the code can meet one: in the text
    columns [channel_name], [category] and [country] and in
    [videos_last_30_days]. *)

From Stdlib Require Import ZArith QArith Qminmax Qabs Lqa Lia.
From Stdlib Require Import Bool Ascii String DecimalString PrimFloat.
From Stdlib Require Import List Permutation Sorted.
Import ListNotations.

Local Open Scope string_scope.
Local Open Scope Q_scope.

(** ** Numbers *)

Definition Qltb (a b : Q) : bool := negb (Qle_bool b a).

(** A float cell that may be NaN: every comparison with NaN is false. *)
Inductive num : Type :=
| Num (q : Q)
| NaN.

Definition num_ltb (a b : num) : bool :=
  match a, b with
  | Num x, Num y => Qltb x y
  | _, _ => false
  end.

Definition num_of_Z (o : option Z) : num :=
  match o with
  | Some z => Num (inject_Z z)
  | None => NaN
  end.

(** Division as the metric code uses it: [None] marks a zero denominator,
    the point where numpy would yield inf or nan. *)
Definition true_div (a b : Q) : option Q :=
  if Qeq_bool b 0 then None else Some (a / b).

Definition bind {A B : Type} (o : option A) (k : A -> option B) : option B :=
  match o with
  | Some a => k a
  | None => None
  end.

Notation "x <- e ;; k" := (bind e (fun x => k))
  (at level 61, e at next level, right associativity).

Fixpoint mapM {A B : Type} (f : A -> option B) (l : list A) : option (list B) :=
  match l with
  | [] => Some []
  | a :: l' => b <- f a ;; bs <- mapM f l' ;; Some (b :: bs)
  end.

Definition Qsum (l : list Q) : Q := fold_right Qplus 0 l.

Definition Qlen {A : Type} (l : list A) : Q := inject_Z (Z.of_nat (length l)).

(** ** The pandas operations the code calls *)

Module Pandas.

(** Insertion sort by a boolean order; used for [sort_values], group keys
    and order statistics. *)
Section Sort.
Context {A : Type} (leb : A -> A -> bool).

Fixpoint insert (x : A) (l : list A) : list A :=
  match l with
  | [] => [x]
  | y :: l' => if leb x y then x :: l else y :: insert x l'
  end.

Definition isort (l : list A) : list A := fold_right insert [] l.
End Sort.

(** A bin edge: a number or [float('inf')]. *)
Inductive edge : Type :=
| Fin (q : Q)
| PosInf.

Definition edge_ltb (e : edge) (x : Q) : bool :=
  match e with Fin q => Qltb q x | PosInf => false end.

Definition edge_leb (e : edge) (x : Q) : bool :=
  match e with Fin q => Qle_bool q x | PosInf => false end.

Definition edge_eqb (e : edge) (x : Q) : bool :=
  match e with Fin q => Qeq_bool q x | PosInf => false end.

(** [bins.searchsorted(x, side)] on increasing [bins]: the number of
    edges below [x] (side left) or not above [x] (side right). *)
Definition searchsorted (bins : list edge) (x : Q) (side_left : bool) : nat :=
  length (filter (fun e => if side_left then edge_ltb e x else edge_leb e x) bins).

(** [pd.cut(x, bins, labels, right, include_lowest)] for one finite value:
    [side = "left" if right else "right"], the lowest edge forced into
    the first bin on request, and no label ([None], NaN) for an index of
    0 or [len(bins)]. *)
Definition cut (x : Q) (bins : list edge) (labels : list string)
           (right include_lowest : bool) : option string :=
  let ids := searchsorted bins x right in
  let ids := match bins with
             | b0 :: _ => if include_lowest && edge_eqb b0 x then 1%nat else ids
             | [] => ids
             end in
  if (ids =? 0)%nat || (ids =? length bins)%nat then None
  else nth_error labels (ids - 1).

(** [Series.median()]: NaN on an empty series, else the middle order
    statistic, or the mean of the two middle ones. *)
Definition median (s : list Q) : num :=
  let o := isort Qle_bool s in
  let n := length o in
  match n with
  | O => NaN
  | _ => if Nat.even n
         then Num ((nth (n / 2 - 1) o 0 + nth (n / 2) o 0) / 2)
         else Num (nth (n / 2) o 0)
  end.

(** [Series.mean()] of a non-empty series ([sum / count]). *)
Definition mean (s : list Q) : Q := Qsum s / Qlen s.

(** [Series.unique()] keeps first occurrences in order. *)
Fixpoint unique (s : list string) : list string :=
  match s with
  | [] => []
  | x :: s' => x :: filter (fun y => negb (String.eqb x y)) (unique s')
  end.

Definition nunique (s : list string) : nat := length (unique s).

Definition isin (x : string) (values : list string) : bool :=
  existsb (String.eqb x) values.

(** A text cell is a string or missing ([None], pandas' NaN). [dropna]
    and [count] skip the missing cells. *)
Definition dropna {A : Type} (s : list (option A)) : list A :=
  flat_map (fun c => match c with Some x => [x] | None => [] end) s.

Definition count {A : Type} (s : list (option A)) : nat := length (dropna s).

(** Elementwise [==] on text cells: a missing cell equals nothing, not
    even another missing cell. *)
Definition cell_eq (a b : option string) : bool :=
  match a, b with
  | Some x, Some y => String.eqb x y
  | _, _ => false
  end.

(** The test behind [isin]: as [cell_eq], but missing matches missing. *)
Definition cell_match (a b : option string) : bool :=
  match a, b with
  | Some x, Some y => String.eqb x y
  | None, None => true
  | _, _ => false
  end.

(** [Series.isin(values)] on a text column. *)
Definition cell_isin (c : option string) (values : list (option string)) : bool :=
  existsb (cell_match c) values.

(** A text cell inside an f-string. *)
Definition cell_str (c : option string) : string :=
  match c with
  | Some x => x
  | None => "nan"
  end.

(** *** [Series.rank(pct=True)], method "average" *)

(** 1-based positions, counted from [k], of the entries equal to [x]. *)
Fixpoint positions_from (k : nat) (o : list Q) (x : Q) : list nat :=
  match o with
  | [] => []
  | y :: o' => if Qeq_bool y x then k :: positions_from (S k) o' x
               else positions_from (S k) o' x
  end.

(** The average of the ordinal ranks that the entries tied with [x]
    occupy in the sorted series. *)
Definition average_rank (s : list Q) (x : Q) : Q :=
  let ps := positions_from 1 (isort Qle_bool s) x in
  Qsum (map (fun p => inject_Z (Z.of_nat p)) ps) / Qlen ps.

Definition rank_pct (s : list Q) : list Q :=
  map (fun x => average_rank s x / Qlen s) s.

(** Boolean-mask selection [values.loc[mask]]. *)
Fixpoint select {A : Type} (mask : list bool) (values : list A) : list A :=
  match mask, values with
  | m :: mask', v :: values' =>
      if m then v :: select mask' values' else select mask' values'
  | _, _ => []
  end.

End Pandas.

(** ** Rows and ingest (lines 650-696) *)

Module Dashboard.

(** One CSV row. The text cells and [videos_last_30_days] may be missing. *)
Record row : Type := mkRow {
  channel_name : option string;
  category : option string;
  country : option string;
  subscriber_count : Z;
  view_count : Z;
  video_count : Z;
  views_last_30_days : Z;
  videos_last_30_days : option Z;
  channel_age_years : Q
}.

Definition COUNTRY_MAP : list (string * string) := [
  ("US", "United States"); ("GB", "United Kingdom"); ("IN", "India"); ("CA", "Canada");
  ("AU", "Australia"); ("DE", "Germany"); ("FR", "France"); ("IT", "Italy"); ("ES", "Spain");
  ("NL", "Netherlands"); ("BR", "Brazil"); ("MX", "Mexico"); ("AR", "Argentina");
  ("CL", "Chile"); ("CO", "Colombia"); ("JP", "Japan"); ("KR", "South Korea");
  ("CN", "China"); ("TW", "Taiwan"); ("HK", "Hong Kong"); ("PK", "Pakistan");
  ("BD", "Bangladesh"); ("PH", "Philippines"); ("VN", "Vietnam"); ("TH", "Thailand");
  ("ID", "Indonesia"); ("MY", "Malaysia"); ("SG", "Singapore"); ("NP", "Nepal");
  ("LK", "Sri Lanka"); ("SA", "Saudi Arabia"); ("AE", "United Arab Emirates");
  ("TR", "Turkey"); ("EG", "Egypt"); ("IL", "Israel"); ("RU", "Russia"); ("PL", "Poland");
  ("UA", "Ukraine"); ("RO", "Romania"); ("CZ", "Czech Republic"); ("SE", "Sweden");
  ("NO", "Norway"); ("DK", "Denmark"); ("FI", "Finland"); ("GR", "Greece");
  ("PT", "Portugal"); ("BE", "Belgium"); ("AT", "Austria"); ("CH", "Switzerland");
  ("IE", "Ireland"); ("ZA", "South Africa"); ("NG", "Nigeria"); ("KE", "Kenya");
  ("GH", "Ghana"); ("TZ", "Tanzania"); ("PE", "Peru"); ("EC", "Ecuador");
  ("VE", "Venezuela"); ("UY", "Uruguay"); ("PY", "Paraguay"); ("NZ", "New Zealand");
  ("KH", "Cambodia"); ("LA", "Laos"); ("MM", "Myanmar"); ("KZ", "Kazakhstan");
  ("HU", "Hungary"); ("SK", "Slovakia"); ("BG", "Bulgaria"); ("HR", "Croatia");
  ("RS", "Serbia"); ("SI", "Slovenia"); ("LT", "Lithuania"); ("LV", "Latvia");
  ("EE", "Estonia"); ("BY", "Belarus"); ("MA", "Morocco"); ("DZ", "Algeria");
  ("TN", "Tunisia"); ("LY", "Libya"); ("JO", "Jordan"); ("IQ", "Iraq"); ("LB", "Lebanon");
  ("CY", "Cyprus"); ("QA", "Qatar"); ("OM", "Oman"); ("BH", "Bahrain"); ("UG", "Uganda");
  ("ZW", "Zimbabwe"); ("PR", "Puerto Rico"); ("SV", "El Salvador"); ("CR", "Costa Rica");
  ("HN", "Honduras"); ("GT", "Guatemala"); ("PA", "Panama"); ("DO", "Dominican Republic");
  ("JM", "Jamaica"); ("TT", "Trinidad and Tobago"); ("BS", "Bahamas"); ("BB", "Barbados");
  ("AL", "Albania"); ("MK", "North Macedonia"); ("BA", "Bosnia and Herzegovina");
  ("ME", "Montenegro"); ("GE", "Georgia"); ("AM", "Armenia"); ("AZ", "Azerbaijan");
  ("IS", "Iceland"); ("LU", "Luxembourg"); ("MT", "Malta"); ("MC", "Monaco");
  ("MD", "Moldova"); ("BM", "Bermuda"); ("AG", "Antigua and Barbuda");
  ("VI", "U.S. Virgin Islands"); ("UM", "U.S. Minor Outlying Islands");
  ("CX", "Christmas Island"); ("GM", "Gambia"); ("AF", "Afghanistan"); ("AQ", "Antarctica");
  ("Unknown", "Unknown")
].

(** [COUNTRY_MAP.get(k, default)]. *)
Fixpoint dict_get (d : list (string * string)) (k : string) (default : string) : string :=
  match d with
  | [] => default
  | (k', v) :: d' => if String.eqb k' k then v else dict_get d' k default
  end.

(** Line 692. *)
Definition country_name_of (c : option string) : string :=
  match c with
  | Some x => dict_get COUNTRY_MAP x x
  | None => "Unknown"
  end.

Definition tier_bins : list Pandas.edge :=
  [Pandas.Fin 0; Pandas.Fin 1000; Pandas.Fin 10000; Pandas.Fin 100000;
   Pandas.Fin 1000000; Pandas.PosInf].

Definition tier_labels : list string :=
  ["0-1K"; "1K-10K"; "10K-100K"; "100K-1M"; "1M+"].

(** Lines 694-696: [pd.cut] with its defaults, [right=True] and
    [include_lowest=False]. *)
Definition subscriber_tier (subscribers : Z) : option string :=
  Pandas.cut (inject_Z subscribers) tier_bins tier_labels true false.

(** A row of [df]: the CSV row with the two columns added at ingest. *)
Record drow : Type := mkDrow {
  raw : row;
  country_name : string;
  tier : option string
}.

Definition ingest_row (r : row) : drow :=
  {| raw := r;
     country_name := country_name_of (country r);
     tier := subscriber_tier (subscriber_count r) |}.

Definition ingest (rows : list row) : list drow := map ingest_row rows.


(** *** The filter blocks (lines 732-736 and 1084-1089) *)

(** [[k for k, v in COUNTRY_MAP.items() if v in names]]. *)
Definition cntry_codes (names : list string) : list string :=
  map fst (filter (fun kv => Pandas.isin (snd kv) names) COUNTRY_MAP).

Definition truthy {A : Type} (l : list A) : bool :=
  match l with [] => false | _ :: _ => true end.

Definition country_isin (codes : list string) (d : drow) : bool :=
  match country (raw d) with
  | Some c => Pandas.isin c codes
  | None => false
  end.

Definition tier_isin (tiers : list string) (d : drow) : bool :=
  match tier d with
  | Some t => Pandas.isin t tiers
  | None => false
  end.

Definition age_in_range (age_min age_max : Q) (d : drow) : bool :=
  Qle_bool age_min (channel_age_years (raw d))
  && Qle_bool (channel_age_years (raw d)) age_max.

Definition filter_t1 (df : list drow) (t1_cat : list (option string))
           (t1_cntry : list string) (t1_age_min t1_age_max : Q) : list drow :=
  let t1_cntry_codes := cntry_codes t1_cntry in
  let df_t1 := df in
  let df_t1 := if truthy t1_cat
               then filter (fun d => Pandas.cell_isin (category (raw d)) t1_cat) df_t1
               else df_t1 in
  let df_t1 := if truthy t1_cntry_codes
               then filter (country_isin t1_cntry_codes) df_t1
               else df_t1 in
  filter (age_in_range t1_age_min t1_age_max) df_t1.

Definition filter_t2 (df : list drow) (t2_cat : list (option string))
           (t2_cntry t2_sub : list string) (t2_age_min t2_age_max : Q) : list drow :=
  let t2_cntry_codes := cntry_codes t2_cntry in
  let df_t2 := df in
  let df_t2 := if truthy t2_cat
               then filter (fun d => Pandas.cell_isin (category (raw d)) t2_cat) df_t2
               else df_t2 in
  let df_t2 := if truthy t2_cntry_codes
               then filter (country_isin t2_cntry_codes) df_t2
               else df_t2 in
  let df_t2 := if truthy t2_sub
               then filter (tier_isin t2_sub) df_t2
               else df_t2 in
  filter (age_in_range t2_age_min t2_age_max) df_t2.

(** *** Per-row metrics (lines 740-746) *)

Definition growth_boost_score (r : row) : option Q :=
  let s := if (0 <? subscriber_count r)%Z then subscriber_count r else 1%Z in
  a <- true_div (inject_Z (views_last_30_days r)) (inject_Z s) ;;
  b <- true_div (inject_Z (views_last_30_days r)) (inject_Z (view_count r + 1)) ;;
  Some (0.7 * a + 0.3 * b).

Definition views_per_upload (r : row) : option Q :=
  match videos_last_30_days r with
  | Some n =>
      if (0 <? n)%Z
      then true_div (inject_Z (views_last_30_days r)) (inject_Z n)
      else Some (inject_Z (views_last_30_days r))
  | None => Some (inject_Z (views_last_30_days r))
  end.

Definition audience_interest_rate (r : row) : option Q :=
  a <- true_div (inject_Z (views_last_30_days r)) (inject_Z (subscriber_count r + 1)) ;;
  Some (a * 100).

(** The same expression as [growth_boost_score] in binary64, the
    arithmetic the interpreter runs it in. *)
#[warnings="-inexact-float"]
Definition growth_boost_score_binary64 (subscribers views view_cnt : float) : float :=
  let s := if PrimFloat.ltb 0 subscribers then subscribers else 1%float in
  (0.7 * (views / s) + 0.3 * (views / (view_cnt + 1)))%float.

(** A row of [df_t1] once the three metric columns exist. *)
Record mrow : Type := mkMrow {
  base : drow;
  c_growth_boost_score : Q;
  c_views_per_upload : Q;
  c_audience_interest_rate : Q
}.

Definition with_metrics (d : drow) : option mrow :=
  g <- growth_boost_score (raw d) ;;
  v <- views_per_upload (raw d) ;;
  a <- audience_interest_rate (raw d) ;;
  Some {| base := d;
          c_growth_boost_score := g;
          c_views_per_upload := v;
          c_audience_interest_rate := a |}.

Definition add_metrics (df_t1 : list drow) : option (list mrow) :=
  mapM with_metrics df_t1.

Definition m_name (m : mrow) : option string := channel_name (raw (base m)).
Definition m_category (m : mrow) : option string := category (raw (base m)).
Definition m_age (m : mrow) : Q := channel_age_years (raw (base m)).
Definition m_videos (m : mrow) : option Z := videos_last_30_days (raw (base m)).
Definition m_views (m : mrow) : Z := views_last_30_days (raw (base m)).

(** *** Entity selection and peer group (lines 758-773) *)

(** [df_t1[df_t1['channel_name'] == sel_ch].iloc[0]]; [sel_ch] is an entry of
    [df_t1['channel_name'].unique()], which can be the missing name, and
    [iloc[0]] raises ([None]) when no row matches. *)
Definition select_channel (df_t1 : list mrow) (sel_ch : option string) : option mrow :=
  find (fun m => Pandas.cell_eq (m_name m) sel_ch) df_t1.

(** Python's [max(a, b)]: [b] only when it is strictly greater. *)
Definition py_max (a b : Q) : Q := if Qltb a b then b else a.

(** [Series.between(lo, hi)], inclusive on both sides. *)
Definition between (x lo hi : Q) : bool := Qle_bool lo x && Qle_bool x hi.

(** [df_t1['category'] == sel_r['category']]. *)
Definition same_category (sel_r m : mrow) : bool :=
  Pandas.cell_eq (m_category m) (m_category sel_r).

Definition in_age_window (sel_r m : mrow) : bool :=
  between (m_age m) (py_max 0 (m_age sel_r - 3)) (m_age sel_r + 3).

Definition peers (df_t1 : list mrow) (sel_r : mrow) : list mrow :=
  let windowed :=
    filter (fun m => same_category sel_r m && in_age_window sel_r m) df_t1 in
  match windowed with
  | [] => filter (same_category sel_r) df_t1
  | _ :: _ => windowed
  end.

(** *** [pct_norm] (lines 775-782) *)

Definition count_less (series : list Q) (value : Q) : nat :=
  List.length (filter (fun y => Qltb y value) series).

Definition count_equal (series : list Q) (value : Q) : nat :=
  List.length (filter (fun y => Qeq_bool y value) series).

(** The [try] branch indexes the first selected rank; an empty selection
    raises and the [except] branch computes the fallback. *)
Definition pct_norm (value : Q) (series : list Q) : Q :=
  match Pandas.select (map (fun y => Qeq_bool y value) series) (Pandas.rank_pct series) with
  | r :: _ => r
  | [] => inject_Z (Z.of_nat (count_less series value))
          / inject_Z (Z.of_nat (Nat.max 1 (List.length series)))
  end.

(** *** Percent differences (lines 889-891) *)

(** [((value - m) / m * 100) if m > 0 else 0]; [m > 0] is false for a
    NaN median. *)
Definition pct_diff (value : Q) (peer_median : num) : option Q :=
  match peer_median with
  | Num m => if Qltb 0 m
             then d <- true_div (value - m) m ;; Some (d * 100)
             else Some 0
  | NaN => Some 0
  end.


(** *** Recommendations (lines 884-925) *)

Definition num_sub (a b : num) : num :=
  match a, b with Num x, Num y => Num (x - y) | _, _ => NaN end.

Definition num_mul (a b : num) : num :=
  match a, b with Num x, Num y => Num (x * y) | _, _ => NaN end.

(** [Series.median()] of a column with missing cells skips them. *)
Definition median_skipna (s : list (option Z)) : num :=
  Pandas.median
    (flat_map (fun o => match o with Some z => [inject_Z z] | None => [] end) s).

(** [pat in t]. *)
Fixpoint contains (pat t : string) : bool :=
  String.prefix pat t
  || match t with
     | EmptyString => false
     | String _ t' => contains pat t'
     end.

Definition flagged (t : string) : bool :=
  contains "CRITICAL" t || contains "IMPORTANT" t.

(** Character occurrence, and strings without capital letters (what a
    formatted number is made of). *)
Fixpoint occurs (c : ascii) (s : string) : bool :=
  match s with
  | EmptyString => false
  | String a s' => Ascii.eqb a c || occurs c s'
  end.

Definition is_capital (c : ascii) : bool :=
  (65 <=? nat_of_ascii c)%nat && (nat_of_ascii c <=? 90)%nat.

Fixpoint no_capitals (s : string) : bool :=
  match s with
  | EmptyString => true
  | String a s' => negb (is_capital a) && no_capitals s'
  end.

(** [str(n)] for a length. *)
Definition str_of_nat (n : nat) : string := NilZero.string_of_uint (Nat.to_uint n).

Section Recommendations.

(** [format(x, spec)] for the float format specs of the f-strings
    ([".1f"], [".2f"], ["+.1f"], [",.0f"]); the digits it prints are
    left open. *)
Variable fmt : string -> num -> string.

Definition critical_tips (sel_r : mrow) (peer_interest_median : num)
           (interest_diff : Q) : list string :=
  let gap := Qabs interest_diff in
  [ "CRITICAL: Improve Audience Engagement (You're " ++ fmt ".1f" (Num gap)
      ++ "% below peers)";
    "   • Your audience interest rate: **"
      ++ fmt ".2f" (Num (c_audience_interest_rate sel_r))
      ++ "%** vs peer average: **" ++ fmt ".2f" peer_interest_median ++ "%**";
    "   • Only **" ++ fmt ".1f" (Num (c_audience_interest_rate sel_r))
      ++ "%** of your subscribers watched your recent videos";
    "   • Action: Improve your first 30 seconds - use pattern interrupts, compelling hooks, and faster pacing";
    "   • Action: Survey your audience to understand what content they want more of" ].

Definition excellent_tips (sel_r : mrow) (interest_diff : Q) : list string :=
  [ "EXCELLENT: Strong Audience Engagement (" ++ fmt "+.1f" (Num interest_diff)
      ++ "% vs peers!)";
    "   • Your audience interest rate: **"
      ++ fmt ".2f" (Num (c_audience_interest_rate sel_r)) ++ "%** (Outstanding!)";
    "   • Keep doing what you're doing - your content resonates with your audience" ].

Definition important_tips (sel_r : mrow) (peer_views_median : num)
           (views_diff : Q) : list string :=
  let gap := Qabs views_diff in
  [ "IMPORTANT: Optimize Click-Through Rate (You're " ++ fmt ".1f" (Num gap)
      ++ "% below peers)";
    "   • Your views per upload: **" ++ fmt ",.0f" (Num (c_views_per_upload sel_r))
      ++ "** vs peer average: **" ++ fmt ",.0f" peer_views_median ++ "**";
    "   • Potential gain: **"
      ++ fmt ",.0f" (num_mul (num_sub peer_views_median (Num (c_views_per_upload sel_r)))
                             (num_of_Z (m_videos sel_r)))
      ++ "** extra views/month";
    "   • Action: A/B test thumbnails - use high contrast, faces with emotion, and bold text" ].

Definition opportunity_tips (growth_diff : Q) : list string :=
  let gap := Qabs growth_diff in
  [ "OPPORTUNITY: Accelerate Channel Growth (You're " ++ fmt ".1f" (Num gap)
      ++ "% below peers)" ].

(** The four rule outcomes, in the order the code tests them. *)
Definition critical_fires (sel_r : mrow) (peer_interest_median : num) : bool :=
  num_ltb (Num (c_audience_interest_rate sel_r)) peer_interest_median.

Definition excellent_fires (sel_r : mrow) (peer_interest_median : num) : bool :=
  negb (critical_fires sel_r peer_interest_median)
  && num_ltb (num_mul peer_interest_median (Num 1.2))
             (Num (c_audience_interest_rate sel_r)).

Definition important_fires (sel_r : mrow) (peer_views_median : num) : bool :=
  num_ltb (Num (c_views_per_upload sel_r)) peer_views_median.

Definition opportunity_fires (sel_r : mrow) (peer_growth_median : num) : bool :=
  num_ltb (Num (c_growth_boost_score sel_r)) peer_growth_median.

Definition consider_fires (sel_r : mrow) (peer_upload_freq : num) : bool :=
  num_ltb (num_of_Z (m_videos sel_r)) peer_upload_freq
  && num_ltb (num_of_Z (m_videos sel_r)) (Num 4).

Definition peer_growth_median (peers : list mrow) : num :=
  Pandas.median (map c_growth_boost_score peers).

Definition peer_interest_median (peers : list mrow) : num :=
  Pandas.median (map c_audience_interest_rate peers).

Definition peer_views_median (peers : list mrow) : num :=
  Pandas.median (map c_views_per_upload peers).

Definition peer_upload_freq (peers : list mrow) : num :=
  median_skipna (map m_videos peers).

(** The list before the header is inserted (lines 893-920), given the three
    percent differences. *)
Definition tips_lines (sel_r : mrow) (peers : list mrow)
           (growth_diff interest_diff views_diff : Q) : list string :=
  List.concat
    [ if critical_fires sel_r (peer_interest_median peers)
      then critical_tips sel_r (peer_interest_median peers) interest_diff
      else if excellent_fires sel_r (peer_interest_median peers)
           then excellent_tips sel_r interest_diff
           else [];
      if important_fires sel_r (peer_views_median peers)
      then important_tips sel_r (peer_views_median peers) views_diff else [];
      if opportunity_fires sel_r (peer_growth_median peers)
      then opportunity_tips growth_diff else [];
      if consider_fires sel_r (peer_upload_freq peers)
      then ["CONSIDER: Increase Upload Frequency"] else [];
      [ "Category Context: " ++ Pandas.cell_str (m_category sel_r);
        "   • Comparing against **" ++ str_of_nat (List.length peers)
          ++ "** similar channels in your category" ] ].

(** Lines 884-920: medians, percent differences, then the list. *)
Definition tips_body (sel_r : mrow) (peers : list mrow) : option (list string) :=
  growth_diff <- pct_diff (c_growth_boost_score sel_r) (peer_growth_median peers) ;;
  interest_diff <- pct_diff (c_audience_interest_rate sel_r) (peer_interest_median peers) ;;
  views_diff <- pct_diff (c_views_per_upload sel_r) (peer_views_median peers) ;;
  Some (tips_lines sel_r peers growth_diff interest_diff views_diff).

Definition overall_line : string :=
  "OVERALL: Your channel is performing well! Keep refining based on these insights.".

Definition focus_line (critical_count : nat) : string :=
  "FOCUS AREAS: " ++ str_of_nat critical_count
    ++ " key improvement(s) identified - Prioritize these for maximum impact!".

(** Lines 921-925: the header goes in at index 0. *)
Definition with_header (body : list string) : list string :=
  if negb (existsb flagged body)
  then overall_line :: body
  else
    let critical_count := List.length (filter flagged body) in
    focus_line critical_count :: body.

Definition tips (sel_r : mrow) (peers : list mrow) : option (list string) :=
  body <- tips_body sel_r peers ;;
  Some (with_header body).

End Recommendations.


(** *** Posting-frequency buckets (lines 934-959) *)

(** Line 934: [pd.to_numeric(..., errors='coerce').fillna(0).clip(lower=0)].
    The column reaches this line numeric (text in it makes line 745
    raise), so the coercion keeps every number and only NaN is filled. *)
Definition fillna (c : option Z) (value : Z) : Z :=
  match c with Some z => z | None => value end.

Definition clip_lower (z lower : Z) : Z := Z.max z lower.

Definition coerce_videos (c : option Z) : option Z :=
  Some (clip_lower (fillna c 0) 0).

Definition set_videos (m : mrow) (v : option Z) : mrow :=
  let d := base m in
  let r := raw d in
  {| base := {| raw := {| channel_name := channel_name r;
                          category := category r;
                          country := country r;
                          subscriber_count := subscriber_count r;
                          view_count := view_count r;
                          video_count := video_count r;
                          views_last_30_days := views_last_30_days r;
                          videos_last_30_days := v;
                          channel_age_years := channel_age_years r |};
                country_name := country_name d;
                tier := tier d |};
     c_growth_boost_score := c_growth_boost_score m;
     c_views_per_upload := c_views_per_upload m;
     c_audience_interest_rate := c_audience_interest_rate m |}.

Definition bin_edges : list Pandas.edge :=
  [Pandas.Fin 0; Pandas.Fin 5; Pandas.Fin 10; Pandas.Fin 15; Pandas.Fin 20;
   Pandas.Fin 25; Pandas.Fin 30; Pandas.PosInf].

Definition labels : list string :=
  ["0-4"; "5-9"; "10-14"; "15-19"; "20-24"; "25-29"; "30+"].

(** Line 940: [pd.cut(..., include_lowest=True, right=False)]; a NaN
    cell gets no bucket. *)
Definition uploads_bucket (videos : option Z) : option string :=
  match videos with
  | Some z => Pandas.cut (inject_Z z) bin_edges labels false true
  | None => None
  end.

(** A row of [df_t1] with its [uploads_bucket] column. *)
Record brow : Type := mkBrow {
  b_row : mrow;
  c_uploads_bucket : option string
}.

Definition add_uploads_bucket (df_t1 : list mrow) : list brow :=
  map (fun m =>
         let m' := set_videos m (coerce_videos (m_videos m)) in
         {| b_row := m'; c_uploads_bucket := uploads_bucket (m_videos m') |})
      df_t1.

Definition bucket_members (label : string) (df_t1 : list brow) : list brow :=
  filter (fun b => match c_uploads_bucket b with
                   | Some l => String.eqb l label
                   | None => false
                   end) df_t1.

Definition bucket_typical_views (members : list brow) : num :=
  Pandas.median (map (fun b => inject_Z (m_views (b_row b))) members).

Definition bucket_ch_count (members : list brow) : nat :=
  Pandas.nunique (Pandas.dropna (map (fun b => m_name (b_row b)) members)).

(** Lines 952-955: one group per observed bucket, in category order. *)
Definition bucket_group (df_t1 : list brow) (label : string) : list (string * (num * nat)) :=
  let members := bucket_members label df_t1 in
  if truthy members
  then [(label, (bucket_typical_views members, bucket_ch_count members))]
  else [].

Definition groupby_uploads_bucket (df_t1 : list brow) : list (string * (num * nat)) :=
  flat_map (bucket_group df_t1) labels.

Record bucket_aggregate : Type := mkAgg {
  agg_uploads_bucket : string;
  typical_views : Q;
  ch_count : nat
}.

Fixpoint lookup {V : Type} (k : string) (l : list (string * V)) : option V :=
  match l with
  | [] => None
  | (k', v) :: l' => if String.eqb k' k then Some v else lookup k l'
  end.

(** Lines 958-959: left merge of the seven labels with the groups, then
    [fillna] of both value columns with 0. *)
Definition ba (df_t1 : list brow) : list bucket_aggregate :=
  let groups := groupby_uploads_bucket df_t1 in
  map (fun label =>
         match lookup label groups with
         | Some (Num t, c) =>
             {| agg_uploads_bucket := label; typical_views := t; ch_count := c |}
         | Some (NaN, c) =>
             {| agg_uploads_bucket := label; typical_views := 0; ch_count := c |}
         | None =>
             {| agg_uploads_bucket := label; typical_views := 0; ch_count := 0 |}
         end)
      labels.

(** Tab 1 from the loaded rows to the bucketed [df_t1]: filter, metric
    columns, then (after the recommendations) line 934 and the buckets. *)
Definition metric_engine_input (rows : list row) (t1_cat : list (option string))
           (t1_cntry : list string) (t1_age_min t1_age_max : Q) : list drow :=
  filter_t1 (ingest rows) t1_cat t1_cntry t1_age_min t1_age_max.

Definition tab1 (rows : list row) (t1_cat : list (option string))
           (t1_cntry : list string) (t1_age_min t1_age_max : Q) : option (list brow) :=
  df_t1 <- add_metrics (metric_engine_input rows t1_cat t1_cntry t1_age_min t1_age_max) ;;
  Some (add_uploads_bucket df_t1).

(** *** Category difficulty ranking (lines 1102-1103) *)

Record cat_stat : Type := mkCat {
  cs_category : string;
  cs_subscriber_count : Q;
  cs_view_count : Q;
  cs_channel_name : nat
}.

Definition string_leb (a b : string) : bool :=
  match String.compare a b with Gt => false | _ => true end.

Definition category_rows (c : string) (df_t2 : list drow) : list drow :=
  filter (fun d => Pandas.cell_eq (category (raw d)) (Some c)) df_t2.

(** The group keys of [groupby('category')]: the distinct categories, in
    sorted order; rows with a missing category are in no group. *)
Definition group_keys (df_t2 : list drow) : list string :=
  Pandas.isort string_leb
    (Pandas.unique (Pandas.dropna (map (fun d => category (raw d)) df_t2))).

(** [groupby('category').agg(mean, mean, count).reset_index()]: one row
    per category; [count] is the number of names that are not missing. *)
Definition groupby_category (df_t2 : list drow) : list cat_stat :=
  map (fun c =>
         let g := category_rows c df_t2 in
         {| cs_category := c;
            cs_subscriber_count :=
              Pandas.mean (map (fun d => inject_Z (subscriber_count (raw d))) g);
            cs_view_count :=
              Pandas.mean (map (fun d => inject_Z (view_count (raw d))) g);
            cs_channel_name := Pandas.count (map (fun d => channel_name (raw d)) g) |})
      (group_keys df_t2).

Definition kept_categories (df_t2 : list drow) : list cat_stat :=
  filter (fun s => (10 <=? cs_channel_name s)%nat) (groupby_category df_t2).

(** [DataFrame.tail(n)]. *)
Definition tail {A : Type} (n : nat) (l : list A) : list A :=
  skipn (List.length l - n) l.

Definition subscribers_leb (a b : cat_stat) : bool :=
  Qle_bool (cs_subscriber_count a) (cs_subscriber_count b).

Section CategoryRanking.

(** [sort_values('subscriber_count', ascending=True)]: the default
    quicksort is not stable, so the order among equal means is left to
    the sort. *)
Variable sort_values : list cat_stat -> list cat_stat.

Definition cat_s (df_t2 : list drow) : list cat_stat :=
  tail 20 (sort_values (kept_categories df_t2)).

End CategoryRanking.

(** Ascending order of the mean subscriber_count, and an instance of the
    sort. *)
Definition ascending (a b : cat_stat) : Prop :=
  cs_subscriber_count a <= cs_subscriber_count b.

Definition sort_values_isort (l : list cat_stat) : list cat_stat :=
  Pandas.isort subscribers_leb l.

(** The ranking in the words of the specification: the member channels
    of a category are its rows that name a channel, and the mean
    subscriber_count of a category is the sum of the counts of its rows
    over their number. *)
Definition in_category (c : string) (d : drow) : bool :=
  match category (raw d) with
  | Some x => String.eqb x c
  | None => false
  end.

Definition names_a_channel (d : drow) : bool :=
  match channel_name (raw d) with
  | Some _ => true
  | None => false
  end.

Definition spec_member_channels (c : string) (df_t2 : list drow) : list drow :=
  filter (fun d => in_category c d && names_a_channel d) df_t2.

Definition spec_mean_subscriber_count (c : string) (df_t2 : list drow) : Q :=
  inject_Z (fold_right Z.add 0%Z
              (map (fun d => subscriber_count (raw d)) (filter (in_category c) df_t2)))
  / inject_Z (Z.of_nat (List.length (filter (in_category c) df_t2))).

(** The sum of a list of positions. *)
Definition positions_weight (ps : list nat) : Z :=
  fold_right (fun p acc => (Z.of_nat p + acc)%Z) 0%Z ps.

End Dashboard.

(** ** Sample tables *)

Module Samples.
Import Dashboard.

Definition scenario_row : row :=
  mkRow (Some "a") (Some "Music") (Some "US") 0 0 0 100 (Some 0%Z) 1.

(** Two channels of one category, the first with a negative age. *)
Definition chan_A : row := mkRow (Some "A") (Some "Music") (Some "US") 10 100 5 50 (Some 2%Z) (-1).
Definition chan_B : row := mkRow (Some "B") (Some "Music") (Some "GB") 20 400 8 90 (Some 3%Z) 1.

(** A row with negative recent views and uploads, and one with a missing
    upload count. *)
Definition negative_row : row :=
  mkRow (Some "N") (Some "Music") (Some "US") 0 0 0 (-100) (Some (-2)%Z) 1.
Definition missing_row : row :=
  mkRow (Some "M") (Some "Music") (Some "US") 9 99 3 40 None 2.

(** A channel whose category name is the word IMPORTANT. *)
Definition shouting_row : row :=
  mkRow (Some "I") (Some "IMPORTANT") (Some "US") 10 100 5 50 (Some 5%Z) 2.

(** A channel with a country code the map does not know. *)
Definition kosovo_row : row :=
  mkRow (Some "K") (Some "Music") (Some "XK") 10 100 5 50 (Some 5%Z) 2.

(** An entity at audience_interest_rate 5 among peers at 0. *)
Definition engaged : mrow := mkMrow (ingest_row chan_B) 1 1 5.
Definition idle_peer : mrow := mkMrow (ingest_row chan_B) 1 1 0.

Definition no_format (spec : string) (x : num) : string := "".

(** [n] channels of one category with the same subscriber count. *)
Definition channels (category : string) (subscribers : Z) (n : nat) : list row :=
  map (fun i => mkRow (Some (category ++ str_of_nat i)) (Some category) (Some "US")
                      subscribers 100 5 50 (Some 5%Z) 2)
      (seq 0 n).

(** Ten Music channels, nine News channels and eleven Gaming channels. *)
Definition ranking_table : list drow :=
  ingest (channels "Music" 500 10 ++ channels "News" 900 9 ++ channels "Gaming" 200 11)%list.

(** Twenty-one categories of ten channels each, with the means 100, 200
    and so on. *)
Definition wide_table : list drow :=
  ingest (flat_map (fun i => channels ("c" ++ str_of_nat i) (Z.of_nat (100 * (i + 1))) 10)
                   (seq 0 21)).

(** Ten Music channels and ten rows of the category Talk, one of them
    without a channel name. *)
Definition nameless_table : list drow :=
  ingest (channels "Music" 500 10 ++ channels "Talk" 900 9
          ++ [mkRow None (Some "Talk") (Some "US") 900 100 5 50 (Some 5%Z) 2])%list.

End Samples.

(** ** The rest of the load step and the third filter block *)

Module Load.
Import Dashboard.

(** Line 699: [~df['country'].isin(COUNTRY_MAP.keys()) & (df['country'] != 'Unknown')];
    a missing cell is in no list and differs from every string. *)
Definition unmapped_mask (c : option string) : bool :=
  negb (match c with
        | Some x => Pandas.isin x (map fst COUNTRY_MAP)
        | None => false
        end)
  && match c with
     | Some x => negb (String.eqb x "Unknown")
     | None => true
     end.

Definition cell_eqb (a b : option string) : bool :=
  match a, b with
  | Some x, Some y => String.eqb x y
  | None, None => true
  | _, _ => false
  end.

(** [Series.unique()] on a column with missing cells: first occurrences in
    order, all missing cells counted as one value. *)
Fixpoint unique_cells (s : list (option string)) : list (option string) :=
  match s with
  | [] => []
  | x :: s' => x :: filter (fun y => negb (cell_eqb x y)) (unique_cells s')
  end.

Definition unmapped (rows : list row) : list (option string) :=
  unique_cells (filter unmapped_mask (map country rows)).

(** [sep.join(items)]: [None] when an item is not a string (TypeError). *)
Fixpoint join (sep : string) (items : list (option string)) : option string :=
  match items with
  | [] => Some ""
  | Some x :: [] => Some x
  | Some x :: rest => tl <- join sep rest ;; Some (x ++ sep ++ tl)
  | None :: _ => None
  end.

(** What lines 700-701 do: nothing, a warning, or an exception. *)
Inductive outcome : Type :=
| Quiet
| Warned (message : string)
| Raised.

Definition unmapped_warning (rows : list row) : outcome :=
  let u := unmapped rows in
  if (0 <? List.length u)%nat
  then match join ", " (firstn 5 u) with
       | Some listed =>
           Warned ("Note: " ++ str_of_nat (List.length u)
                     ++ " country code(s) not in mapping: " ++ listed)
       | None => Raised
       end
  else Quiet.

(** Lines 1294-1297: the third tab filters on category and country only. *)
Definition filter_t3 (df : list drow) (t3_cat : list (option string))
           (t3_cntry : list string) : list drow :=
  let t3_cntry_codes := cntry_codes t3_cntry in
  let df_t3 := df in
  let df_t3 := if truthy t3_cat
               then filter (fun d => Pandas.cell_isin (category (raw d)) t3_cat) df_t3
               else df_t3 in
  if truthy t3_cntry_codes
  then filter (country_isin t3_cntry_codes) df_t3
  else df_t3.

(** The category and country steps shared by the three filter blocks, for
    a given list of codes. *)
Definition category_country (codes : list string) (cat : list (option string))
           (df : list drow) : list drow :=
  let df := if truthy cat
            then filter (fun d => Pandas.cell_isin (category (raw d)) cat) df
            else df in
  if truthy codes then filter (country_isin codes) df else df.

End Load.

(** ** More sample rows *)

Module MoreSamples.
Import Dashboard.

Definition stateless_row : row :=
  mkRow (Some "S") (Some "Music") None 10 100 5 50 (Some 5%Z) 2.

Definition loaded : list row :=
  [Samples.chan_A; Samples.chan_B; Samples.kosovo_row; Samples.scenario_row].

End MoreSamples.

(** ** Checks on the country table *)

Module Tables.

Fixpoint distinct (l : list string) : bool :=
  match l with
  | [] => true
  | x :: l' => negb (Pandas.isin x l') && distinct l'
  end.

End Tables.

(** ** The radar values (lines 784-794) *)

Module Radar.
Import Dashboard.

Definition ch_scaled (sel_r : mrow) (peers : list mrow) : list Q :=
  [ pct_norm (c_growth_boost_score sel_r) (map c_growth_boost_score peers);
    pct_norm (c_audience_interest_rate sel_r) (map c_audience_interest_rate peers);
    pct_norm (c_views_per_upload sel_r) (map c_views_per_upload peers) ].




End Radar.

(** ** The posting-frequency chart (lines 943-949 and 962-995) *)

Module Chart.
Import Dashboard.

(** Lines 943-949: the selected channel's bucket and views, from the first
    row with its name; [(None, 0)] when there is no such row. *)
Definition sel_bucket_data (df_t1 : list brow) (sel_ch : option string) : option string * Z :=
  match filter (fun b => Pandas.cell_eq (m_name (b_row b)) sel_ch) df_t1 with
  | b :: _ => (c_uploads_bucket b, m_views (b_row b))
  | [] => (None, 0%Z)
  end.

(** [Series.max()]: NaN on an empty series. *)
Definition series_max (s : list Q) : num :=
  match s with
  | [] => NaN
  | x :: s' => Num (fold_left (fun m y => if Qltb m y then y else m) s' x)
  end.

(** Python's [min(a, b)]: [b] only when it is strictly smaller. *)
Definition py_min (a b : Q) : Q := if Qltb b a then b else a.

(** Line 962. *)
Definition min_height (ba : list bucket_aggregate) : Q :=
  match series_max (map typical_views ba) with
  | Num m => if Qltb 0 m then py_max (m * 0.01) 1000 else 1000
  | NaN => 1000
  end.

(** Line 963. *)
Definition display_views (ba : list bucket_aggregate) (a : bucket_aggregate) : Q :=
  py_max (typical_views a) (min_height ba).

(** Truth value of the bucket cell in [if sel_bucket_val and ...]. *)
Definition bucket_truthy (sel_bucket_val : option string) : bool :=
  match sel_bucket_val with
  | Some label => negb (String.eqb label "")
  | None => false
  end.

(** Lines 991-995: the height of the selected channel's overlay bar, or
    [None] when no overlay is drawn. *)
Definition overlay_height (ba : list bucket_aggregate)
           (sel_bucket_val : option string) (sel_views : Z) : option Q :=
  if bucket_truthy sel_bucket_val && (0 <? sel_views)%Z
  then match sel_bucket_val with
       | Some label =>
           match find (fun a => String.eqb (agg_uploads_bucket a) label) ba with
           | Some a =>
               let typical_for_bucket := display_views ba a in
               Some (if Qltb (inject_Z sel_views) typical_for_bucket
                     then py_min (inject_Z sel_views) (typical_for_bucket * 0.95)
                     else inject_Z sel_views)
           | None => None
           end
       | None => None
       end
  else None.

(** Sum of a list of counts. *)
Definition total (l : list nat) : nat := fold_right Nat.add 0%nat l.

End Chart.

(** ** Accessibility modes and chart helpers (lines 40-215) *)

From Stdlib Require Import Qround.

Module A11y.

Inductive mode : Type :=
| normal
| colorblind.

(** A colour scale is a named one or an explicit list of stops. *)
Inductive scale : Type :=
| Named (name : string)
| Stops (stops : list (Q * string)).

Record config : Type := mkConfig {
  name : string;
  primary : string;
  secondary : string;
  chart_colors : list string;
  line_width : Z;
  marker_size : Z;
  show_patterns : bool;
  colorscale : scale;
  line_styles : list string;
  marker_symbols : list string;
  bar_patterns : list (option string);
  treemap_border_width : Z
}.

Definition ACCESSIBILITY_MODES (m : mode) : config :=
  match m with
  | normal =>
      {| name := "Normal";
         primary := "#1E88E5";
         secondary := "#FF6F00";
         chart_colors := ["#1E88E5"; "#FF6F00"; "#43A047"; "#7B1FA2"; "#00897B"; "#FBC02D"];
         line_width := 2;
         marker_size := 10;
         show_patterns := false;
         colorscale := Named "Viridis";
         line_styles := ["solid"; "solid"; "solid"; "solid"];
         marker_symbols := ["circle"; "circle"; "circle"; "circle"];
         bar_patterns := [None; None; None; None];
         treemap_border_width := 1 |}
  | colorblind =>
      {| name := "Color-Blind";
         primary := "#0072B2";
         secondary := "#E69F00";
         chart_colors := ["#0072B2"; "#E69F00"; "#009E73"; "#F0E442"; "#D55E00";
                          "#CC79A7"; "#56B4E9"; "#000000"];
         line_width := 4;
         marker_size := 14;
         show_patterns := true;
         colorscale := Stops [(0, "#c6dbef"); (0.25, "#6baed6"); (0.5, "#2171b5");
                              (0.75, "#084594"); (1, "#08306b")];
         line_styles := ["solid"; "dash"; "dot"; "dashdot"];
         marker_symbols := ["square"; "diamond"; "circle"; "triangle-up"; "star"; "cross"];
         bar_patterns := [Some "/"; Some "\"; Some "x"; Some "-"; Some "|"; Some "+"; Some "."];
         treemap_border_width := 3 |}
  end.

(** [l[i]] for a Python list: negative indices count from the end, and an
    index outside [-len, len) raises ([None]). *)
Definition py_index {A : Type} (l : list A) (i : Z) : option A :=
  let n := Z.of_nat (List.length l) in
  if (0 <=? i)%Z && (i <? n)%Z then nth_error l (Z.to_nat i)
  else if (- n <=? i)%Z && (i <? 0)%Z then nth_error l (Z.to_nat (n + i))
  else None.

(** [l[index % len(l)]]; the modulo itself raises on an empty list. *)
Definition cycle {A : Type} (l : list A) (index : Z) : option A :=
  match l with
  | [] => None
  | _ :: _ => py_index l (index mod Z.of_nat (List.length l))
  end.

Section Helpers.

Variable a11y : config.

(** Lines 173-178; the inner [None] is Python's [None]. *)
Definition get_bar_pattern (index : Z) : option (option string) :=
  if negb (show_patterns a11y) then Some None
  else cycle (bar_patterns a11y) index.

(** Lines 180-183. *)
Definition get_chart_colors (n_colors : Z) : option (list string) :=
  mapM (fun i => cycle (chart_colors a11y) (Z.of_nat i)) (seq 0 (Z.to_nat n_colors)).

(** Lines 185-193. *)
Definition get_line_style (index : Z) : option string := cycle (line_styles a11y) index.

Definition get_marker_symbol (index : Z) : option string := cycle (marker_symbols a11y) index.

(** Lines 195-209. *)
Definition get_lollipop_symbol (value min_val max_val : Q) : string :=
  if negb (show_patterns a11y) then "circle"
  else
    let range_size := max_val - min_val in
    if Qeq_bool range_size 0 then "circle"
    else
      let normalized := (value - min_val) / range_size in
      if Qltb normalized 0.33 then "triangle-down"
      else if Qltb normalized 0.66 then "square"
      else "circle".

(** Python's [int(x)]: truncation toward zero. *)
Definition py_int (x : Q) : Z := if Qle_bool 0 x then Qfloor x else Qceiling x.

(** Python's [min] on integers. *)
Definition py_min_int (a b : Z) : Z := if (b <? a)%Z then b else a.

(** Lines 1131-1134: the marker colour of a lollipop in colour-blind mode. *)
Definition lollipop_color (value min_subs max_subs : Q) : option string :=
  let norm_val := if Qltb min_subs max_subs
                  then (value - min_subs) / (max_subs - min_subs)
                  else 0.5 in
  match colorscale a11y with
  | Stops stops =>
      let color_idx := py_int (norm_val * inject_Z (Z.of_nat (List.length stops) - 1)) in
      stop <- py_index stops (py_min_int color_idx (Z.of_nat (List.length stops) - 1)) ;;
      Some (snd stop)
  | Named _ => Some "#0072B2"
  end.

End Helpers.

End A11y.

(** ** Tab 3: the cost-effectiveness ranking (lines 1301-1303) *)

Module Roi.

Import Dashboard.

(** A row of [df_t3]: the loaded row with the CSV column
    [video_count_log1p], which only this tab reads. *)
Record t3row : Type := mkT3 {
  t3_base : drow;
  video_count_log1p : Q
}.

Definition t3_views (r : t3row) : Z := views_last_30_days (raw (t3_base r)).
Definition t3_subscribers (r : t3row) : Z := subscriber_count (raw (t3_base r)).

(** The two count columns are int64: adding 1 to a whole column wraps
    around at the ends of the range. *)
Definition int64_max : Z := 9223372036854775807.

Definition wrap_int64 (z : Z) : Z :=
  ((z + 9223372036854775808) mod 18446744073709551616 - 9223372036854775808)%Z.

(** Line 1301; [None] where a denominator is zero and the cell is inf or
    nan. *)
Definition cost_effectiveness (r : t3row) : option Q :=
  a <- true_div (inject_Z (wrap_int64 (t3_views r + 1)))
                (inject_Z (wrap_int64 (t3_subscribers r + 1))) ;;
  b <- true_div 1 (video_count_log1p r + 1) ;;
  Some (a * b).

Record crow : Type := mkCrow {
  scored : t3row;
  c_cost_effectiveness : Q
}.

Definition with_cost_effectiveness (r : t3row) : option crow :=
  ce <- cost_effectiveness r ;;
  Some (mkCrow r ce).

Definition add_cost_effectiveness (df_t3 : list t3row) : option (list crow) :=
  mapM with_cost_effectiveness df_t3.

Definition name_of (c : crow) : option string := channel_name (raw (t3_base (scored c))).

Definition channel_rows (name : string) (df_t3 : list crow) : list crow :=
  filter (fun c => Pandas.cell_eq (name_of c) (Some name)) df_t3.

(** The group keys of [groupby("channel_name")], in sorted order; rows with
    a missing name are in no group. *)
Definition channel_keys (df_t3 : list crow) : list string :=
  Pandas.isort string_leb (Pandas.unique (Pandas.dropna (map name_of df_t3))).

(** [Series.max()] of an integer column; [None] is the NaN of an empty one. *)
Definition series_max_Z (s : list Z) : option Z :=
  match s with
  | [] => None
  | x :: s' => Some (fold_left Z.max s' x)
  end.

(** The groupby aggregation [first]: the first cell that is not null. *)
Fixpoint first_valid (s : list (option string)) : option string :=
  match s with
  | [] => None
  | Some x :: _ => Some x
  | None :: s' => first_valid s'
  end.

Record agg_row : Type := mkAggRow {
  g_channel_name : string;
  g_subscriber_count : option Z;
  g_views_last_30_days : option Z;
  g_video_count : option Z;
  g_view_count : option Z;
  g_cost_effectiveness : Q;
  g_country : option string;
  g_country_name : option string;
  g_category : option string
}.

(** Line 1302. *)
Definition agg (df_t3 : list crow) : list agg_row :=
  map (fun name =>
         let g := map (fun c => raw (t3_base (scored c))) (channel_rows name df_t3) in
         {| g_channel_name := name;
            g_subscriber_count := series_max_Z (map subscriber_count g);
            g_views_last_30_days := series_max_Z (map views_last_30_days g);
            g_video_count := series_max_Z (map video_count g);
            g_view_count := series_max_Z (map view_count g);
            g_cost_effectiveness :=
              Pandas.mean (map c_cost_effectiveness (channel_rows name df_t3));
            g_country := first_valid (map country g);
            g_country_name :=
              first_valid (map (fun c => Some (country_name (t3_base (scored c))))
                               (channel_rows name df_t3));
            g_category := first_valid (map category g) |})
      (channel_keys df_t3).

(** The order of [sort_values("cost_effectiveness", ascending=...)]. *)
Definition ce_order (ascending : bool) (a b : agg_row) : Prop :=
  if ascending
  then g_cost_effectiveness a <= g_cost_effectiveness b
  else g_cost_effectiveness b <= g_cost_effectiveness a.

Definition ce_leb (ascending : bool) (a b : agg_row) : bool :=
  if ascending
  then Qle_bool (g_cost_effectiveness a) (g_cost_effectiveness b)
  else Qle_bool (g_cost_effectiveness b) (g_cost_effectiveness a).

Section Top.

(** [sort_values] is not stable by default: the order among equal scores
    is left to the sort. *)
Variable sort_values : bool -> list agg_row -> list agg_row.

(** Line 1303. *)
Definition top (agg : list agg_row) : list agg_row :=
  sort_values true (firstn 15 (sort_values false agg)).

End Top.

(** An instance of the sort. *)
Definition sort_values_by_insertion (ascending : bool) (l : list agg_row) : list agg_row :=
  Pandas.isort (ce_leb ascending) l.

(** Three channels, the second listed twice. *)
Definition sample_rows : list t3row :=
  [ mkT3 (ingest_row (mkRow (Some "B") (Some "Music") (Some "GB") 19 400 8 99 (Some 3%Z) 1)) 1;
    mkT3 (ingest_row (mkRow (Some "A") (Some "Music") None 9 100 5 49 (Some 2%Z) 1)) 3;
    mkT3 (ingest_row (mkRow (Some "B") (Some "Music") (Some "US") 4 500 9 9 (Some 3%Z) 1)) 0;
    mkT3 (ingest_row (mkRow (Some "C") (Some "News") (Some "US") 0 10 1 0 (Some 1%Z) 1)) 0 ].

Definition sample_scored : list crow :=
  match add_cost_effectiveness sample_rows with
  | Some df => df
  | None => []
  end.

End Roi.

(** ** The age slider (lines 726-730) *)

Module Sliders.

Import Dashboard.



End Sliders.

(** ** Tab 2: geographic success patterns (lines 1202-1209) *)

Module Geo.

Import Dashboard.

Definition count_of (c : string) (s : list string) : nat :=
  List.length (filter (String.eqb c) s).

(** The entries of [value_counts()] before they are ordered: each
    distinct value with the number of its rows. *)
Definition category_counts (s : list string) : list (string * nat) :=
  map (fun c => (c, count_of c s)) (Pandas.unique s).

Definition more_frequent (a b : string * nat) : Prop := (snd b <= snd a)%nat.

(** A group key of [groupby(['country', 'country_name', 'category'])]. *)
Definition key : Type := string * string * string.

(** The key of a row; [None] when the country or the category is
    missing, in which case groupby leaves the row out. *)
Definition key_of (d : drow) : option key :=
  match country (raw d), category (raw d) with
  | Some c, Some cat => Some (c, country_name d, cat)
  | _, _ => None
  end.

Definition key_eqb (a b : key) : bool :=
  String.eqb (fst (fst a)) (fst (fst b))
  && String.eqb (snd (fst a)) (snd (fst b))
  && String.eqb (snd a) (snd b).

Definition key_leb (a b : key) : bool :=
  match String.compare (fst (fst a)) (fst (fst b)) with
  | Lt => true
  | Gt => false
  | Eq => match String.compare (snd (fst a)) (snd (fst b)) with
          | Lt => true
          | Gt => false
          | Eq => string_leb (snd a) (snd b)
          end
  end.

Fixpoint unique_keys (s : list key) : list key :=
  match s with
  | [] => []
  | x :: s' => x :: filter (fun y => negb (key_eqb x y)) (unique_keys s')
  end.

Definition has_key (k : key) (d : drow) : bool :=
  match key_of d with
  | Some k' => key_eqb k' k
  | None => false
  end.

Definition keyed (d : drow) : bool :=
  match key_of d with Some _ => true | None => false end.

Definition keys_of (rows : list drow) : list key :=
  flat_map (fun d => match key_of d with Some k => [k] | None => [] end) rows.

(** The group keys, in sorted order. *)
Definition geo_keys (rows : list drow) : list key :=
  Pandas.isort key_leb (unique_keys (keys_of rows)).

Record geo_row : Type := mkGeo {
  geo_country : string;
  geo_country_name : string;
  geo_category : string;
  geo_view_count : Q;
  geo_subscriber_count : Q;
  geo_channel_name : nat
}.

(** Line 1208. *)
Definition performance_score (view_count subscriber_count : Q) : Q :=
  view_count / 1000000 + subscriber_count / 100000.

Record scored_row : Type := mkScored {
  geo : geo_row;
  c_performance_score : Q
}.

Definition score_geb (a b : scored_row) : bool :=
  Qle_bool (c_performance_score b) (c_performance_score a).

(** [DataFrame.nlargest(n, column)]: the first [n] rows of the table
    ordered by the column, descending, equal values in their first order. *)
Definition nlargest (n : nat) (l : list scored_row) : list scored_row :=
  firstn n (Pandas.isort score_geb l).

Section Geographic.

(** [value_counts()] orders by count, descending; the order among equal
    counts is left to the sort. *)
Variable value_counts : list string -> list (string * nat).

(** Line 1202; [value_counts] leaves missing categories out. *)
Definition top_categories (df_t2 : list drow) : list string :=
  map fst (firstn 10 (value_counts
                        (Pandas.dropna (map (fun d => category (raw d)) df_t2)))).

Definition geo_input (df_t2 : list drow) : list drow :=
  filter (fun d => Pandas.cell_isin (category (raw d)) (map Some (top_categories df_t2)))
         df_t2.

(** Lines 1203-1207. *)
Definition geo_data (df_t2 : list drow) : list geo_row :=
  map (fun k =>
         let g := filter (has_key k) (geo_input df_t2) in
         {| geo_country := fst (fst k);
            geo_country_name := snd (fst k);
            geo_category := snd k;
            geo_view_count := Pandas.mean (map (fun d => inject_Z (view_count (raw d))) g);
            geo_subscriber_count :=
              Pandas.mean (map (fun d => inject_Z (subscriber_count (raw d))) g);
            geo_channel_name := Pandas.count (map (fun d => channel_name (raw d)) g) |})
      (geo_keys (geo_input df_t2)).

(** Lines 1208-1209. *)
Definition geo_data_top (df_t2 : list drow) : list scored_row :=
  nlargest 25
    (map (fun g => mkScored g (performance_score (geo_view_count g) (geo_subscriber_count g)))
         (geo_data df_t2)).

End Geographic.

(** An instance of the ordering of [value_counts]. *)
Definition value_counts_by_insertion (s : list string) : list (string * nat) :=
  Pandas.isort (fun a b => (snd b <=? snd a)%nat) (category_counts s).

End Geo.

(** * Properties *)

Import Dashboard.

(** ** Comparisons and checked division *)

Lemma Qltb_lt (a b : Q) : Qltb a b = true <-> a < b.
Proof.
  unfold Qltb. rewrite negb_true_iff, <- not_true_iff_false, Qle_bool_iff.
  split; [apply Qnot_le_lt | apply Qlt_not_le].
Qed.

Lemma Qltb_ge (a b : Q) : Qltb a b = false <-> b <= a.
Proof.
  unfold Qltb. rewrite negb_false_iff, Qle_bool_iff. reflexivity.
Qed.

Lemma Qltb_Z (a b : Z) : Qltb (a # 1) (b # 1) = (a <? b)%Z.
Proof.
  destruct (Z.ltb_spec a b) as [H | H].
  - apply Qltb_lt. unfold Qlt; simpl. lia.
  - apply Qltb_ge. unfold Qle; simpl. lia.
Qed.

Lemma Qleb_Z (a b : Z) : Qle_bool (a # 1) (b # 1) = (a <=? b)%Z.
Proof.
  unfold Qle_bool; simpl. now rewrite !Z.mul_1_r.
Qed.

Lemma Qeqb_Z (a b : Z) : Qeq_bool (a # 1) (b # 1) = (a =? b)%Z.
Proof.
  unfold Qeq_bool; simpl. now rewrite !Z.mul_1_r.
Qed.

Lemma true_div_defined (a b : Q) : ~ b == 0 -> true_div a b = Some (a / b).
Proof.
  intro H. unfold true_div.
  destruct (Qeq_bool b 0) eqn:E; [apply Qeq_bool_iff in E; contradiction | reflexivity].
Qed.

Lemma true_div_zero (a b : Q) : b == 0 -> true_div a b = None.
Proof.
  intro H. unfold true_div. apply Qeq_bool_iff in H. now rewrite H.
Qed.

Lemma inject_Z_nonzero (z : Z) : z <> 0%Z -> ~ inject_Z z == 0.
Proof.
  intros H E. apply H. unfold Qeq in E; simpl in E. lia.
Qed.

(** ** Growth boost score *)

(** The guarded subscriber denominator is [max(subscriber_count, 1)]. *)
Lemma guarded_subscribers_max (s : Z) :
  (if (0 <? s)%Z then s else 1%Z) = Z.max s 1.
Proof.
  destruct (Z.ltb_spec 0 s); lia.
Qed.

(** C1. For a record with non-negative subscriber_count, view_count and
    views_last_30_days, neither denominator of growth_boost_score is zero,
    the score is defined and equals
    0.7 * (views_last_30_days / max(subscriber_count, 1))
    + 0.3 * (views_last_30_days / (view_count + 1)); with subscriber_count
    = 0, view_count = 0 and views_last_30_days = 100 it is 100. *)
Theorem growth_boost_score_formula (r : row) :
  (0 <= subscriber_count r)%Z ->
  (0 <= view_count r)%Z ->
  (0 <= views_last_30_days r)%Z ->
  exists g : Q,
    growth_boost_score r = Some g
    /\ g == 0.7 * (inject_Z (views_last_30_days r)
                   / inject_Z (Z.max (subscriber_count r) 1))
            + 0.3 * (inject_Z (views_last_30_days r)
                     / inject_Z (view_count r + 1))
    /\ ~ inject_Z (Z.max (subscriber_count r) 1) == 0
    /\ ~ inject_Z (view_count r + 1) == 0
    /\ 0 <= g
    /\ (subscriber_count r = 0%Z -> view_count r = 0%Z ->
        views_last_30_days r = 100%Z -> g == 100).
Proof.
  intros Hs Hv Hw.
  assert (D1 : ~ inject_Z (Z.max (subscriber_count r) 1) == 0)
    by (apply inject_Z_nonzero; lia).
  assert (D2 : ~ inject_Z (view_count r + 1) == 0)
    by (apply inject_Z_nonzero; lia).
  unfold growth_boost_score.
  rewrite guarded_subscribers_max.
  rewrite (true_div_defined _ _ D1), (true_div_defined _ _ D2). simpl.
  eexists. split; [reflexivity |].
  split; [reflexivity |].
  split; [exact D1 |]. split; [exact D2 |].
  split.
  - assert (P1 : 0 < inject_Z (Z.max (subscriber_count r) 1))
      by (rewrite <- (Zlt_Qlt 0); lia).
    assert (P2 : 0 < inject_Z (view_count r + 1))
      by (rewrite <- (Zlt_Qlt 0); lia).
    assert (P3 : 0 <= inject_Z (views_last_30_days r))
      by (rewrite <- (Zle_Qle 0); lia).
    assert (Q1 : 0 <= inject_Z (views_last_30_days r)
                      / inject_Z (Z.max (subscriber_count r) 1))
      by (apply Qle_shift_div_l; [exact P1 | lra]).
    assert (Q2 : 0 <= inject_Z (views_last_30_days r) / inject_Z (view_count r + 1))
      by (apply Qle_shift_div_l; [exact P2 | lra]).
    lra.
  - intros -> -> ->. reflexivity.
Qed.

(** The scenario of C1 on a concrete record. *)
Lemma growth_boost_score_formula_witness :
  exists g : Q,
    growth_boost_score Samples.scenario_row = Some g
    /\ g == 100.
Proof.
  destruct (growth_boost_score_formula Samples.scenario_row)
    as [g [H1 [_ [_ [_ [_ H6]]]]]]; simpl; try lia.
  exists g. split; [exact H1 | apply H6; reflexivity].
Defined.

(** In binary64 the scenario's score is the float 100.0 as well. *)
Example growth_boost_score_binary64_scenario :
  growth_boost_score_binary64 0 100 0 = 100%float.
Proof. vm_compute. reflexivity. Qed.

(** ** Subscriber tiers *)

(** Settle every integer comparison of the goal that [lia] can decide. *)
Ltac decide_cmp :=
  repeat match goal with
         | |- context [(?a <=? ?b)%Z] =>
             first [ rewrite (proj2 (Z.leb_le a b)) by lia
                   | rewrite (proj2 (Z.leb_gt a b)) by lia ]
         | |- context [(?a <? ?b)%Z] =>
             first [ rewrite (proj2 (Z.ltb_lt a b)) by lia
                   | rewrite (proj2 (Z.ltb_ge a b)) by lia ]
         | |- context [(?a =? ?b)%Z] =>
             first [ rewrite (proj2 (Z.eqb_eq a b)) by lia
                   | rewrite (proj2 (Z.eqb_neq a b)) by lia ]
         end.

(** [pd.cut] on integer edges: split along the chain of tests on the
    right-hand side, then decide the edge comparisons in each interval. *)
Ltac cut_cases :=
  unfold Pandas.cut, Pandas.searchsorted;
  cbn [filter Pandas.edge_ltb Pandas.edge_leb Pandas.edge_eqb andb];
  unfold inject_Z; rewrite ?Qltb_Z, ?Qleb_Z, ?Qeqb_Z;
  repeat match goal with
         | |- _ = (if (?a <? ?b)%Z then _ else _) => destruct (Z.ltb_spec a b)
         | |- _ = (if (?a <=? ?b)%Z then _ else _) => destruct (Z.leb_spec a b)
         end;
  decide_cmp;
  repeat match goal with
         | |- context [(?a =? ?b)%Z] => destruct (Z.eqb_spec a b)
         end;
  reflexivity.

(** What lines 694-696 compute: right-closed bins, and no tier at or below
    the lowest edge. *)
Lemma subscriber_tier_bins (s : Z) :
  subscriber_tier s =
    if (s <=? 0)%Z then None
    else if (s <=? 1000)%Z then Some "0-1K"
    else if (s <=? 10000)%Z then Some "1K-10K"
    else if (s <=? 100000)%Z then Some "10K-100K"
    else if (s <=? 1000000)%Z then Some "100K-1M"
    else Some "1M+".
Proof.
  unfold subscriber_tier, tier_bins, tier_labels. cut_cases.
Qed.

(** C3 on the code: subscriber_count 0 gets no tier, so the classification
    is not total on the non-negative counts, and each inner boundary 1000,
    10000, 100000, 1000000 falls in the lower bin, not the upper one. *)
Theorem subscriber_tier_boundaries :
  subscriber_tier 0 = None
  /\ subscriber_tier 1000 = Some "0-1K"
  /\ subscriber_tier 10000 = Some "1K-10K"
  /\ subscriber_tier 100000 = Some "10K-100K"
  /\ subscriber_tier 1000000 = Some "100K-1M".
Proof. repeat split; reflexivity. Qed.

(** A consequence in the second tab: with all five tiers selected, the
    default, a channel without subscribers is filtered out. *)
Example zero_subscribers_have_no_tier :
  tier (ingest_row Samples.scenario_row) = None
  /\ filter_t2 (ingest [Samples.scenario_row]) [] [] tier_labels 0 5 = [].
Proof. split; vm_compute; reflexivity. Qed.

(** ** Posting-frequency buckets *)

Lemma uploads_bucket_bins (z : Z) :
  uploads_bucket (Some z) =
    if (z <? 0)%Z then None
    else if (z <? 5)%Z then Some "0-4"
    else if (z <? 10)%Z then Some "5-9"
    else if (z <? 15)%Z then Some "10-14"
    else if (z <? 20)%Z then Some "15-19"
    else if (z <? 25)%Z then Some "20-24"
    else if (z <? 30)%Z then Some "25-29"
    else Some "30+".
Proof.
  unfold uploads_bucket, bin_edges, labels. cut_cases.
Qed.

Lemma lookup_bucket_groups (df : list brow) (label : string) (ls : list string) :
  lookup label (flat_map (bucket_group df) ls)
  = if existsb (String.eqb label) ls && truthy (bucket_members label df)
    then Some (bucket_typical_views (bucket_members label df),
               bucket_ch_count (bucket_members label df))
    else None.
Proof.
  induction ls as [| l ls IH]; [reflexivity |].
  cbn [flat_map existsb]. unfold bucket_group at 1.
  destruct (String.eqb_spec label l) as [-> | Hne].
  - cbn [orb andb]. destruct (truthy (bucket_members l df)) eqn:E.
    + cbn [app lookup]. now rewrite String.eqb_refl.
    + cbn [app]. rewrite IH. now rewrite andb_false_r.
  - cbn [orb]. destruct (truthy (bucket_members l df)).
    + cbn [app lookup].
      destruct (String.eqb_spec l label) as [-> | _]; [contradiction | exact IH].
    + cbn [app]. exact IH.
Qed.

Lemma median_nonempty (s : list Q) : s <> [] -> exists q, Pandas.median s = Num q.
Proof.
  intro H. unfold Pandas.median.
  assert (L : List.length (Pandas.isort Qle_bool s) <> 0%nat).
  { destruct s as [| x s]; [contradiction |]. cbn [Pandas.isort fold_right].
    generalize (fold_right (Pandas.insert Qle_bool) [] s). intros l.
    destruct l as [| y l]; cbn; [discriminate |].
    destruct (Qle_bool x y); discriminate. }
  destruct (List.length (Pandas.isort Qle_bool s)) eqn:E; [contradiction |].
  destruct (Nat.even (S n)); eexists; reflexivity.
Qed.

Ltac bucket_index n l U :=
  exists n;
  split; [lia |];
  split; [reflexivity |];
  split; [lia |];
  split; [lia |];
  let j := fresh "j" in
  let Hj := fresh "Hj" in
  intros j Hj; symmetry in Hj; apply (U n j l); [lia | reflexivity | exact Hj].

(** C4. Every non-negative videos_last_30_days value gets exactly one of
    the 7 buckets with edges 0, 5, 10, 15, 20, 25, 30, each closed on the
    left and open on the right, the last one unbounded; and for every table
    the aggregate lists all 7 labels in order, a bucket without members
    with typical value 0 and count 0, any other with the median of
    views_last_30_days and the number of distinct channel names. *)
Theorem uploads_bucket_total_and_all_emitted :
  (forall z : Z, (0 <= z)%Z ->
     exists i : nat,
       (i < 7)%nat
       /\ uploads_bucket (Some z) = nth_error labels i
       /\ (5 * Z.of_nat i <= z)%Z
       /\ ((i < 6)%nat -> (z < 5 * (Z.of_nat i + 1))%Z)
       /\ (forall j : nat, uploads_bucket (Some z) = nth_error labels j -> j = i))
  /\ (forall df : list brow,
        map agg_uploads_bucket (ba df) = labels
        /\ forall a : bucket_aggregate, In a (ba df) ->
             (bucket_members (agg_uploads_bucket a) df = [] ->
              typical_views a = 0 /\ ch_count a = 0%nat)
             /\ (bucket_members (agg_uploads_bucket a) df <> [] ->
                 bucket_typical_views (bucket_members (agg_uploads_bucket a) df)
                   = Num (typical_views a)
                 /\ ch_count a
                    = bucket_ch_count (bucket_members (agg_uploads_bucket a) df))).
Proof.
  split.
  - intros z Hz. rewrite uploads_bucket_bins.
    assert (U : forall (i j : nat) (l : string),
               (i < 7)%nat -> nth_error labels i = Some l ->
               nth_error labels j = Some l -> j = i).
    { intros i j l Hi Hl Hj.
      do 7 (destruct i as [| i]; [ cbn in Hl; injection Hl as <-;
        do 7 (destruct j as [| j]; [cbn in Hj; first [reflexivity | discriminate] |]);
        destruct j; discriminate |]). lia. }
    repeat match goal with
           | |- context [(?a <? ?b)%Z] => destruct (Z.ltb_spec a b)
           end; try lia.
    all: [> bucket_index 0%nat "0-4" U | bucket_index 1%nat "5-9" U
           | bucket_index 2%nat "10-14" U | bucket_index 3%nat "15-19" U
           | bucket_index 4%nat "20-24" U | bucket_index 5%nat "25-29" U
           | bucket_index 6%nat "30+" U ].
  - intro df. split.
    + unfold ba. rewrite map_map.
      assert (E : forall ls : list string,
                 map (fun x =>
                        agg_uploads_bucket
                          match lookup x (groupby_uploads_bucket df) with
                          | Some (Num t, c) => mkAgg x t c
                          | Some (NaN, c) => mkAgg x 0 c
                          | None => mkAgg x 0 0
                          end) ls = ls).
      { induction ls as [| l ls IH]; [reflexivity |]. cbn [map]. rewrite IH. f_equal.
        destruct (lookup l (groupby_uploads_bucket df)) as [[[t |] c] |]; reflexivity. }
      apply E.
    + intros a Ha. unfold ba in Ha. apply in_map_iff in Ha.
      destruct Ha as [l [Hl Hin]].
      unfold groupby_uploads_bucket in Hl.
      rewrite lookup_bucket_groups in Hl.
      assert (Hex : existsb (String.eqb l) labels = true).
      { apply existsb_exists. exists l. split; [exact Hin | apply String.eqb_refl]. }
      rewrite Hex in Hl. cbn [andb] in Hl.
      destruct (bucket_members l df) as [| b bs] eqn:E.
      * subst a. cbn. rewrite E.
        split; [intros _; split; reflexivity | intros C; now contradiction C].
      * cbn [truthy] in Hl.
        destruct (median_nonempty (map (fun b => inject_Z (m_views (b_row b))) (b :: bs)))
          as [q Hq]; [discriminate |].
        unfold bucket_typical_views in Hl at 1. rewrite Hq in Hl. subst a.
        cbn [agg_uploads_bucket typical_views ch_count]. rewrite E.
        split; [intros C; discriminate C | intros _; split; [exact Hq | reflexivity]].
Qed.

(** C4 on the value 7 and on a table whose two rows fall in the first
    bucket. *)
Lemma uploads_bucket_total_and_all_emitted_witness :
  uploads_bucket (Some 7%Z) = nth_error labels 1
  /\ exists out : list brow,
       tab1 [Samples.negative_row; Samples.missing_row] [] [] 0 5 = Some out
       /\ map (fun a => (agg_uploads_bucket a, ch_count a)) (ba out)
          = [("0-4", 2%nat); ("5-9", 0%nat); ("10-14", 0%nat); ("15-19", 0%nat);
             ("20-24", 0%nat); ("25-29", 0%nat); ("30+", 0%nat)]
       /\ map agg_uploads_bucket (ba out) = labels.
Proof.
  destruct uploads_bucket_total_and_all_emitted as [H1 H2].
  split.
  - destruct (H1 7%Z) as [i [_ [Hb [Hlo [Hhi _]]]]]; [lia |].
    rewrite Hb. f_equal.
    destruct (Nat.lt_ge_cases i 6) as [L | G]; [specialize (Hhi L) |]; lia.
  - eexists. split; [vm_compute; reflexivity |].
    split; [vm_compute; reflexivity | apply H2].
Defined.

(** ** Percent differences *)

Lemma pct_diff_defined (value : Q) (peer_median : num) :
  exists d : Q, pct_diff value peer_median = Some d.
Proof.
  destruct peer_median as [m |]; cbn; [| now exists 0].
  destruct (Qltb 0 m) eqn:E; [| now exists 0].
  apply Qltb_lt in E.
  rewrite true_div_defined by (intro Z0; rewrite Z0 in E; now apply Qlt_irrefl in E).
  cbn. eexists. reflexivity.
Qed.

Lemma pct_diff_guard (value m : Q) : ~ 0 < m -> pct_diff value (Num m) = Some 0.
Proof.
  intro H. cbn. destruct (Qltb 0 m) eqn:E; [| reflexivity].
  apply Qltb_lt in E. contradiction.
Qed.

Lemma pct_diff_zero_median (value m : Q) : m == 0 -> pct_diff value (Num m) = Some 0.
Proof.
  intro H. apply pct_diff_guard. rewrite H. apply Qlt_irrefl.
Qed.

(** Whatever the medians, the list of recommendations is produced, from
    the three guarded percent differences. *)
Lemma tips_body_defined (fmt : string -> num -> string) (sel_r : mrow) (peers : list mrow) :
  exists growth_diff interest_diff views_diff : Q,
    pct_diff (c_growth_boost_score sel_r) (peer_growth_median peers) = Some growth_diff
    /\ pct_diff (c_audience_interest_rate sel_r) (peer_interest_median peers)
       = Some interest_diff
    /\ pct_diff (c_views_per_upload sel_r) (peer_views_median peers) = Some views_diff
    /\ tips_body fmt sel_r peers
       = Some (tips_lines fmt sel_r peers growth_diff interest_diff views_diff).
Proof.
  destruct (pct_diff_defined (c_growth_boost_score sel_r) (peer_growth_median peers))
    as [g Hg].
  destruct (pct_diff_defined (c_audience_interest_rate sel_r) (peer_interest_median peers))
    as [i Hi].
  destruct (pct_diff_defined (c_views_per_upload sel_r) (peer_views_median peers))
    as [v Hv].
  exists g, i, v. unfold tips_body. rewrite Hg, Hi, Hv. cbn. repeat split.
Qed.

(** C6. A percent difference is always produced and its division never
    meets a zero denominator; with a peer median equal to 0 it is 0 (so for
    median 0 and value 5); the three differences the recommendations
    report are these guarded ones, each 0 when its median is 0; and with an
    audience_interest_rate median of 0 and an entity value of 5 the
    recommendation list opens with the engagement line printing 0. *)
Theorem pct_diff_zero_median_guard
        (fmt : string -> num -> string) (sel_r : mrow) (peers : list mrow) :
  (forall (value : Q) (peer_median : num),
     exists d : Q,
       pct_diff value peer_median = Some d
       /\ (forall m : Q, peer_median = Num m -> 0 < m ->
           true_div (value - m) m = Some ((value - m) / m) /\ d = (value - m) / m * 100)
       /\ (forall m : Q, peer_median = Num m -> m == 0 -> d = 0))
  /\ pct_diff 5 (Num 0) = Some 0
  /\ (exists growth_diff interest_diff views_diff : Q,
        tips_body fmt sel_r peers
        = Some (tips_lines fmt sel_r peers growth_diff interest_diff views_diff)
        /\ pct_diff (c_growth_boost_score sel_r) (peer_growth_median peers)
           = Some growth_diff
        /\ pct_diff (c_audience_interest_rate sel_r) (peer_interest_median peers)
           = Some interest_diff
        /\ pct_diff (c_views_per_upload sel_r) (peer_views_median peers)
           = Some views_diff
        /\ (forall m : Q, peer_growth_median peers = Num m -> m == 0 -> growth_diff = 0)
        /\ (forall m : Q, peer_interest_median peers = Num m -> m == 0 ->
            interest_diff = 0)
        /\ (forall m : Q, peer_views_median peers = Num m -> m == 0 -> views_diff = 0))
  /\ (forall m : Q,
        peer_interest_median peers = Num m -> m == 0 ->
        c_audience_interest_rate sel_r == 5 ->
        exists body : list string,
          tips_body fmt sel_r peers = Some body
          /\ hd_error body
             = Some ("EXCELLENT: Strong Audience Engagement (" ++ fmt "+.1f" (Num 0)
                       ++ "% vs peers!)")).
Proof.
  split; [| split; [reflexivity | split]].
  - intros value peer_median.
    destruct (pct_diff_defined value peer_median) as [d Hd]. exists d.
    split; [exact Hd | split].
    + intros m -> Hm.
      assert (Hnz : ~ m == 0) by (intro Z0; rewrite Z0 in Hm; now apply Qlt_irrefl in Hm).
      split; [now apply true_div_defined |].
      cbn in Hd. apply Qltb_lt in Hm. rewrite Hm in Hd.
      rewrite (true_div_defined _ _ Hnz) in Hd. cbn in Hd. congruence.
    + intros m -> Hm. rewrite (pct_diff_zero_median value m Hm) in Hd. congruence.
  - destruct (tips_body_defined fmt sel_r peers) as [g [i [v [Hg [Hi [Hv Hb]]]]]].
    exists g, i, v. repeat split; try assumption.
    + intros m Hm Hz. rewrite Hm, (pct_diff_zero_median _ m Hz) in Hg. congruence.
    + intros m Hm Hz. rewrite Hm, (pct_diff_zero_median _ m Hz) in Hi. congruence.
    + intros m Hm Hz. rewrite Hm, (pct_diff_zero_median _ m Hz) in Hv. congruence.
  - intros m Hm Hz Hv.
    destruct (tips_body_defined fmt sel_r peers) as [g [i [v [Hg [Hi [_ Hb]]]]]].
    rewrite Hm, (pct_diff_zero_median _ m Hz) in Hi. injection Hi as <-.
    eexists. split; [exact Hb |].
    unfold tips_lines, excellent_fires, critical_fires. rewrite Hm.
    cbn [num_ltb num_mul negb andb].
    assert (C : Qltb (c_audience_interest_rate sel_r) m = false)
      by (apply Qltb_ge; rewrite Hz, Hv; discriminate).
    assert (X : Qltb (m * 1.2) (c_audience_interest_rate sel_r) = true)
      by (apply Qltb_lt; rewrite Hz, Hv; reflexivity).
    rewrite C, X. reflexivity.
Qed.

(** The scenario of C6 on a concrete entity and peer. *)
Lemma pct_diff_zero_median_guard_witness :
  exists body : list string,
    tips_body Samples.no_format Samples.engaged [Samples.idle_peer] = Some body
    /\ hd_error body
       = Some ("EXCELLENT: Strong Audience Engagement ("
                 ++ Samples.no_format "+.1f" (Num 0) ++ "% vs peers!)").
Proof.
  apply (proj2 (proj2 (proj2
           (pct_diff_zero_median_guard Samples.no_format Samples.engaged
                                       [Samples.idle_peer]))) 0);
    reflexivity.
Defined.

(** ** Country filter *)

Lemma isin_In (x : string) (values : list string) :
  Pandas.isin x values = true <-> In x values.
Proof.
  unfold Pandas.isin. rewrite existsb_exists. split.
  - intros [y [Hy E]]. apply String.eqb_eq in E. now subst.
  - intro H. exists x. split; [exact H | apply String.eqb_refl].
Qed.

Lemma filter_none {A : Type} (f : A -> bool) (l : list A) :
  (forall x, In x l -> f x = false) -> filter f l = [].
Proof.
  induction l as [| a l IH]; intro H; [reflexivity |].
  cbn. rewrite (H a (or_introl eq_refl)). apply IH. intros x Hx. apply H. now right.
Qed.

Lemma cntry_codes_unmapped (names : list string) :
  (forall n, In n names -> ~ In n (map snd COUNTRY_MAP)) -> cntry_codes names = [].
Proof.
  intro H. unfold cntry_codes. rewrite filter_none; [reflexivity |].
  intros [k v] Hkv. apply not_true_iff_false. intro E. apply isin_In in E.
  apply (H v E). apply in_map_iff. now exists (k, v).
Qed.

Lemma dict_get_unmapped (d : list (string * string)) (k default : string) :
  ~ In k (map fst d) -> dict_get d k default = default.
Proof.
  induction d as [| [k' v] d IH]; intro H; [reflexivity |].
  cbn in *. destruct (String.eqb_spec k' k) as [-> | _]; [exfalso; auto | apply IH; auto].
Qed.

Lemma filter_and {A : Type} (f g : A -> bool) (l : list A) :
  filter g (filter f l) = filter (fun x => f x && g x) l.
Proof.
  induction l as [| a l IH]; [reflexivity |]. cbn.
  destruct (f a); cbn; rewrite IH; reflexivity.
Qed.

Lemma filter_all {A : Type} (l : list A) : filter (fun _ => true) l = l.
Proof. induction l as [| a l IH]; [reflexivity | cbn; now rewrite IH]. Qed.

(** C10. When no selected country name is a display value of the country
    map, the list of codes derived from the selection is empty and the
    country criterion restricts nothing: both filter blocks return the rows
    that pass their other criteria (category, tier, age), whatever their
    country, which is what they return for an empty country selection; a
    raw code absent from the map is such a name when it is not a display
    value either, and it is its own display name after ingest. *)
Theorem country_filter_unmapped_selection
        (df : list drow) (cat : list (option string)) (cntry sub : list string)
        (age_min age_max : Q) :
  (forall n, In n cntry -> ~ In n (map snd COUNTRY_MAP)) ->
  cntry_codes cntry = []
  /\ filter_t1 df cat cntry age_min age_max = filter_t1 df cat [] age_min age_max
  /\ filter_t2 df cat cntry sub age_min age_max = filter_t2 df cat [] sub age_min age_max
  /\ (forall code, In code cntry -> ~ In code (map fst COUNTRY_MAP) ->
      country_name_of (Some code) = code)
  /\ filter_t1 df cat cntry age_min age_max
     = filter (fun d => (negb (truthy cat) || Pandas.cell_isin (category (raw d)) cat)
                        && age_in_range age_min age_max d) df
  /\ filter_t2 df cat cntry sub age_min age_max
     = filter (fun d => (negb (truthy cat) || Pandas.cell_isin (category (raw d)) cat)
                        && (negb (truthy sub) || tier_isin sub d)
                        && age_in_range age_min age_max d) df
  /\ (forall d, In d df ->
        (cat = [] \/ Pandas.cell_isin (category (raw d)) cat = true) ->
        age_in_range age_min age_max d = true ->
        In d (filter_t1 df cat cntry age_min age_max)).
Proof.
  intro H. pose proof (cntry_codes_unmapped cntry H) as E.
  assert (T1 : filter_t1 df cat cntry age_min age_max
               = filter (fun d => (negb (truthy cat)
                                   || Pandas.cell_isin (category (raw d)) cat)
                                  && age_in_range age_min age_max d) df).
  { unfold filter_t1. rewrite E. cbv zeta. cbn [truthy].
    destruct cat as [| c cat]; cbn [truthy negb orb]; [reflexivity |].
    apply filter_and. }
  split; [exact E |].
  split; [unfold filter_t1; rewrite E; reflexivity |].
  split; [unfold filter_t2; rewrite E; reflexivity |].
  split; [intros code _ Hk; unfold country_name_of; now apply dict_get_unmapped |].
  split; [exact T1 |].
  split.
  - unfold filter_t2. rewrite E. cbv zeta. cbn [truthy].
    destruct cat as [| c cat], sub as [| t sub]; cbn [truthy negb orb andb].
    + reflexivity.
    + apply filter_and.
    + rewrite filter_and. apply filter_ext. intro d. now rewrite andb_true_r.
    + rewrite !filter_and. apply filter_ext. intro d.
      destruct (Pandas.cell_isin (category (raw d)) (c :: cat)), (tier_isin (t :: sub) d),
        (age_in_range age_min age_max d); reflexivity.
  - intros d Hd Hc Ha. rewrite T1. apply filter_In. split; [exact Hd |].
    rewrite Ha, andb_true_r. destruct Hc as [-> | ->]; [reflexivity | apply orb_true_r].
Qed.

(** C10 on a table with an unmapped code: selecting its name filters
    nothing out, the channel of another country included. *)
Lemma country_filter_unmapped_selection_witness :
  filter_t1 (ingest [Samples.kosovo_row; Samples.chan_B]) [] ["XK"] 0 5
  = ingest [Samples.kosovo_row; Samples.chan_B]
  /\ In (ingest_row Samples.chan_B)
        (filter_t1 (ingest [Samples.kosovo_row; Samples.chan_B]) [] ["XK"] 0 5)
  /\ country_name (ingest_row Samples.kosovo_row) = "XK".
Proof.
  assert (H : forall n, In n ["XK"] -> ~ In n (map snd COUNTRY_MAP)).
  { intros n [<- | []] Hin. apply isin_In in Hin. vm_compute in Hin. discriminate. }
  destruct (country_filter_unmapped_selection
              (ingest [Samples.kosovo_row; Samples.chan_B]) [] ["XK"] [] 0 5 H)
    as [_ [H1 [_ [_ [_ [_ H2]]]]]].
  split; [rewrite H1; reflexivity |].
  split; [| reflexivity].
  apply H2; [right; now left | now left | reflexivity].
Defined.

(** ** Peer group *)

Lemma cell_eq_true (a b : option string) :
  Pandas.cell_eq a b = true <-> exists x, a = Some x /\ b = Some x.
Proof.
  destruct a as [x |], b as [y |]; cbn.
  - rewrite String.eqb_eq. split; [intros ->; now exists y | now intros [z [[= ->] [= ->]]]].
  - split; [discriminate | now intros [z [_ C]]].
  - split; [discriminate | now intros [z [C _]]].
  - split; [discriminate | now intros [z [C _]]].
Qed.

Lemma cell_eq_refl (x : string) : Pandas.cell_eq (Some x) (Some x) = true.
Proof. apply String.eqb_refl. Qed.

Lemma cell_eq_missing (a : option string) : Pandas.cell_eq a None = false.
Proof. destruct a; reflexivity. Qed.

Lemma select_channel_In (df : list mrow) (sel_ch : option string) (sel_r : mrow) :
  select_channel df sel_ch = Some sel_r ->
  In sel_r df /\ m_name sel_r = sel_ch /\ exists name, sel_ch = Some name.
Proof.
  intro H. apply find_some in H. destruct H as [Hin E].
  apply cell_eq_true in E. destruct E as [x [E1 E2]].
  split; [exact Hin | split; [congruence | now exists x]].
Qed.

Lemma select_channel_exists (df : list mrow) (sel_ch : string) :
  In (Some sel_ch) (map m_name df) ->
  exists sel_r, select_channel df (Some sel_ch) = Some sel_r.
Proof.
  intro Hin.
  apply in_map_iff in Hin. destruct Hin as [m [E Hm]].
  unfold select_channel.
  destruct (find (fun m0 => Pandas.cell_eq (m_name m0) (Some sel_ch)) df) as [r |] eqn:F;
    [now exists r |].
  pose proof (find_none _ _ F m Hm) as N. cbn in N.
  rewrite E, cell_eq_refl in N. discriminate.
Qed.

Lemma same_category_refl (sel_r : mrow) :
  m_category sel_r <> None -> same_category sel_r sel_r = true.
Proof.
  unfold same_category. destruct (m_category sel_r) as [c |]; [| contradiction].
  intros _. apply cell_eq_refl.
Qed.

Lemma same_category_missing (sel_r m : mrow) :
  m_category sel_r = None -> same_category sel_r m = false.
Proof. unfold same_category. intros ->. apply cell_eq_missing. Qed.

Lemma in_age_window_self (sel_r : mrow) :
  0 <= m_age sel_r -> in_age_window sel_r sel_r = true.
Proof.
  intro H. unfold in_age_window, between, py_max.
  apply andb_true_iff. split; apply Qle_bool_iff.
  - destruct (Qltb 0 (m_age sel_r - 3)); lra.
  - lra.
Qed.

Lemma peers_cases (df : list mrow) (sel_r : mrow) :
  (peers df sel_r = filter (same_category sel_r) df
   /\ filter (fun m => same_category sel_r m && in_age_window sel_r m) df = [])
  \/ (peers df sel_r = filter (fun m => same_category sel_r m && in_age_window sel_r m) df
      /\ peers df sel_r <> []).
Proof.
  unfold peers.
  destruct (filter (fun m => same_category sel_r m && in_age_window sel_r m) df) eqn:E.
  - left. split; reflexivity.
  - right. split; [reflexivity | discriminate].
Qed.

Lemma peers_nonempty (df : list mrow) (sel_r : mrow) :
  In sel_r df -> m_category sel_r <> None -> (0 < List.length (peers df sel_r))%nat.
Proof.
  intros Hin Hc. destruct (peers_cases df sel_r) as [[-> _] | [_ Hne]].
  - assert (I : In sel_r (filter (same_category sel_r) df))
      by (apply filter_In; split; [exact Hin | now apply same_category_refl]).
    destruct (filter (same_category sel_r) df); [contradiction | cbn; lia].
  - destruct (peers df sel_r); [contradiction | cbn; lia].
Qed.

Lemma peers_self (df : list mrow) (sel_r : mrow) :
  In sel_r df -> m_category sel_r <> None -> 0 <= m_age sel_r ->
  In sel_r (peers df sel_r).
Proof.
  intros Hin Hc Hage.
  assert (W : In sel_r (filter (fun m => same_category sel_r m && in_age_window sel_r m) df)).
  { apply filter_In. split; [exact Hin |].
    now rewrite same_category_refl, in_age_window_self. }
  destruct (peers_cases df sel_r) as [[_ E] | [-> _]]; [| exact W].
  rewrite E in W. contradiction.
Qed.

Lemma peers_missing_category (df : list mrow) (sel_r : mrow) :
  m_category sel_r = None -> peers df sel_r = [].
Proof.
  intro Hc.
  assert (F : filter (same_category sel_r) df = []).
  { apply filter_none. intros m _. now apply same_category_missing. }
  destruct (peers_cases df sel_r) as [[-> _] | [E Hne]]; [exact F |].
  exfalso. apply Hne. rewrite E. apply filter_none. intros m _.
  now rewrite same_category_missing.
Qed.

Lemma median_of_column {A : Type} (f : A -> Q) (l : list A) :
  (0 < List.length l)%nat -> exists q, Pandas.median (map f l) = Num q.
Proof.
  intro H. apply median_nonempty. destruct l; [cbn in H; lia | discriminate].
Qed.

(** C9, amended. For an entity selected from the table whose category is
    not missing, the peer group (same category and age within 3 years, or
    the whole category when that window is empty) is non-empty, so the
    three peer medians are numbers, and it holds the entity's own row when
    the window is empty or the entity's channel_age_years is not negative.
    For an entity whose category is missing no row has "its" category, its
    own row included: the peer group is empty, the three peer medians are
    NaN, the three percent differences are 0 and the entity's three radar
    values are 0, the fallback of pct_norm. *)
Theorem peers_nonempty_and_self
        (df_t1 : list mrow) (sel_ch : option string) (sel_r : mrow) :
  select_channel df_t1 sel_ch = Some sel_r ->
  (m_category sel_r <> None ->
   (0 < List.length (peers df_t1 sel_r))%nat
   /\ (0 <= m_age sel_r -> In sel_r (peers df_t1 sel_r))
   /\ (filter (fun m => same_category sel_r m && in_age_window sel_r m) df_t1 = [] ->
       In sel_r (peers df_t1 sel_r))
   /\ (exists g i v : Q,
         peer_growth_median (peers df_t1 sel_r) = Num g
         /\ peer_interest_median (peers df_t1 sel_r) = Num i
         /\ peer_views_median (peers df_t1 sel_r) = Num v))
  /\ (m_category sel_r = None ->
      peers df_t1 sel_r = []
      /\ peer_growth_median (peers df_t1 sel_r) = NaN
      /\ peer_interest_median (peers df_t1 sel_r) = NaN
      /\ peer_views_median (peers df_t1 sel_r) = NaN
      /\ pct_diff (c_growth_boost_score sel_r) (peer_growth_median (peers df_t1 sel_r))
         = Some 0
      /\ pct_diff (c_audience_interest_rate sel_r)
                  (peer_interest_median (peers df_t1 sel_r)) = Some 0
      /\ pct_diff (c_views_per_upload sel_r) (peer_views_median (peers df_t1 sel_r))
         = Some 0
      /\ Forall (fun v => v == 0) (Radar.ch_scaled sel_r (peers df_t1 sel_r)))
  /\ List.length (Pandas.rank_pct (map c_growth_boost_score (peers df_t1 sel_r)))
     = List.length (peers df_t1 sel_r).
Proof.
  intro Hsel. destruct (select_channel_In _ _ _ Hsel) as [Hin _].
  split; [| split].
  - intro Hc. pose proof (peers_nonempty df_t1 sel_r Hin Hc) as Hne.
    split; [exact Hne |].
    split; [now apply peers_self |].
    split.
    + intro E. unfold peers. rewrite E.
      apply filter_In. split; [exact Hin | now apply same_category_refl].
    + destruct (median_of_column c_growth_boost_score _ Hne) as [g Hg].
      destruct (median_of_column c_audience_interest_rate _ Hne) as [i Hi].
      destruct (median_of_column c_views_per_upload _ Hne) as [v Hv].
      now exists g, i, v.
  - intro Hc. rewrite (peers_missing_category df_t1 sel_r Hc).
    do 7 (split; [reflexivity |]).
    unfold Radar.ch_scaled. repeat constructor.
  - unfold Pandas.rank_pct. now rewrite !length_map.
Qed.

(** C9 as stated fails: two channels without a category, the table as
    loaded and filtered with nothing selected and the slider at its default
    (1, 2); the selected channel A has no peers, itself included. *)
Lemma peers_empty_for_missing_category :
  exists (df_t1 : list mrow) (a : mrow),
    add_metrics (metric_engine_input
                   [ mkRow (Some "A") None (Some "US") 10 100 5 50 (Some 2%Z) 2;
                     mkRow (Some "B") None (Some "GB") 20 400 8 90 (Some 3%Z) 1 ]
                   [] [] 1 2)
    = Some df_t1
    /\ List.length df_t1 = 2%nat
    /\ select_channel df_t1 (Some "A") = Some a
    /\ m_age a == 2
    /\ peers df_t1 a = []
    /\ existsb (fun m => Pandas.cell_eq (m_name m) (Some "A")) (peers df_t1 a) = false.
Proof.
  eexists. eexists.
  split; [vm_compute; reflexivity |].
  split; [reflexivity |].
  split; [vm_compute; reflexivity |].
  split; [reflexivity |].
  split; [vm_compute; reflexivity | reflexivity].
Qed.

(** The own row can also be missing from a non-empty peer group: a
    selected entity with a negative age is outside its own window while
    another channel of its category is inside. *)
Lemma peers_without_self_negative_age :
  exists (df_t1 : list mrow) (a b : mrow),
    add_metrics (metric_engine_input [Samples.chan_A; Samples.chan_B] [] [] (-1) 1)
    = Some df_t1
    /\ select_channel df_t1 (Some "A") = Some a
    /\ m_age a == -1
    /\ peers df_t1 a = [b]
    /\ m_name b = Some "B"
    /\ existsb (fun m => Pandas.cell_eq (m_name m) (Some "A")) (peers df_t1 a) = false.
Proof.
  eexists. eexists. eexists.
  split; [vm_compute; reflexivity |].
  split; [vm_compute; reflexivity |].
  split; [reflexivity |].
  split; [vm_compute; reflexivity |].
  split; reflexivity.
Qed.

(** C9 on a table of two channels. *)
Lemma peers_nonempty_and_self_witness :
  exists (df_t1 : list mrow) (b : mrow),
    add_metrics (metric_engine_input [Samples.chan_A; Samples.chan_B] [] [] (-1) 1)
    = Some df_t1
    /\ select_channel df_t1 (Some "B") = Some b
    /\ (0 < List.length (peers df_t1 b))%nat
    /\ In b (peers df_t1 b).
Proof.
  eexists. eexists.
  split; [vm_compute; reflexivity |].
  split; [vm_compute; reflexivity |].
  match goal with
  | |- (0 < List.length (peers ?df ?b))%nat /\ _ =>
      destruct (proj1 (peers_nonempty_and_self df (Some "B") b
                         ltac:(vm_compute; reflexivity)))
        as [H1 [H2 _]];
        [vm_compute; discriminate
        | split; [exact H1 | apply H2; vm_compute; discriminate]]
  end.
Defined.

(** ** Coercion of the upload counts *)

Lemma mapM_Forall2 {A B : Type} (f : A -> option B) (l : list A) (out : list B) :
  mapM f l = Some out -> Forall2 (fun a b => f a = Some b) l out.
Proof.
  revert out. induction l as [| a l IH]; intros out H; cbn in H.
  - injection H as <-. constructor.
  - destruct (f a) as [b |] eqn:Fa; cbn in H; [| discriminate].
    destruct (mapM f l) as [bs |]; cbn in H; [| discriminate].
    injection H as <-. constructor; [exact Fa | now apply IH].
Qed.

Lemma Forall2_map_r {A B C : Type} (P : A -> C -> Prop) (g : B -> C)
      (l : list A) (m : list B) :
  Forall2 (fun a b => P a (g b)) l m -> Forall2 P l (map g m).
Proof.
  induction 1; cbn; constructor; assumption.
Qed.

Lemma coerce_videos_nonneg (c : option Z) :
  exists v : Z,
    coerce_videos c = Some v
    /\ (0 <= v)%Z
    /\ (c = None -> v = 0%Z)
    /\ (forall z, c = Some z -> (z < 0)%Z -> v = 0%Z)
    /\ (forall z, c = Some z -> (0 <= z)%Z -> v = z).
Proof.
  unfold coerce_videos, clip_lower, fillna. eexists. split; [reflexivity |].
  destruct c as [z |]; repeat split; intros; try congruence; try lia.
  - match goal with H : Some _ = Some _ |- _ => injection H as -> end. lia.
  - match goal with H : Some _ = Some _ |- _ => injection H as -> end. lia.
Qed.

Lemma uploads_bucket_assigned (v : Z) :
  (0 <= v)%Z -> exists label, uploads_bucket (Some v) = Some label /\ In label labels.
Proof.
  intro H. rewrite uploads_bucket_bins.
  repeat match goal with
         | |- context [(?a <? ?b)%Z] => destruct (Z.ltb_spec a b)
         end; try lia; eexists; (split; [reflexivity | cbn; tauto]).
Qed.

Lemma filter_t1_incl (df : list drow) (t1_cat : list (option string))
      (t1_cntry : list string)
      (t1_age_min t1_age_max : Q) (d : drow) :
  In d (filter_t1 df t1_cat t1_cntry t1_age_min t1_age_max) -> In d df.
Proof.
  unfold filter_t1. generalize (cntry_codes t1_cntry). intros codes Hd.
  cbv zeta in Hd. apply filter_In in Hd. destruct Hd as [Hd _].
  destruct (truthy codes); [apply filter_In in Hd; destruct Hd as [Hd _] |];
    (destruct (truthy t1_cat); [apply filter_In in Hd; tauto | exact Hd]).
Qed.

(** What the bucketed table holds, row by row, for any rows whose metrics
    are defined. *)
Lemma bucketed_rows (ds : list drow) (df : list mrow) :
  add_metrics ds = Some df ->
  Forall2
    (fun d b =>
       growth_boost_score (raw d) = Some (c_growth_boost_score (b_row b))
       /\ views_per_upload (raw d) = Some (c_views_per_upload (b_row b))
       /\ audience_interest_rate (raw d) = Some (c_audience_interest_rate (b_row b))
       /\ m_views (b_row b) = views_last_30_days (raw d)
       /\ m_videos (b_row b) = coerce_videos (videos_last_30_days (raw d))
       /\ exists (v : Z) (label : string),
            m_videos (b_row b) = Some v
            /\ (0 <= v)%Z
            /\ (videos_last_30_days (raw d) = None -> v = 0%Z)
            /\ (forall z, videos_last_30_days (raw d) = Some z -> v = Z.max z 0)
            /\ c_uploads_bucket b = Some label
            /\ In label labels)
    ds (add_uploads_bucket df).
Proof.
  intro E. unfold add_uploads_bucket.
  apply Forall2_map_r. apply mapM_Forall2 in E.
  induction E as [| d m ds ms Hm _ IH]; constructor; [| exact IH].
  unfold with_metrics in Hm.
  destruct (growth_boost_score (raw d)) as [g |]; cbn [bind] in Hm; [| discriminate].
  destruct (views_per_upload (raw d)) as [v |]; cbn [bind] in Hm; [| discriminate].
  destruct (audience_interest_rate (raw d)) as [a |]; cbn [bind] in Hm; [| discriminate].
  injection Hm as <-. unfold m_videos, m_views.
  cbn [b_row c_uploads_bucket c_growth_boost_score c_views_per_upload
       c_audience_interest_rate set_videos base raw views_last_30_days
       videos_last_30_days].
  repeat (split; [reflexivity |]).
  destruct (coerce_videos_nonneg (videos_last_30_days (raw d)))
    as [w [Hw [Hpos [Hnone _]]]].
  destruct (uploads_bucket_assigned w Hpos) as [label [Hl Hin]].
  exists w, label. rewrite Hw.
  split; [reflexivity |]. split; [exact Hpos |]. split; [exact Hnone |].
  split; [| split; [exact Hl | exact Hin]].
  intros z Hz. rewrite Hz in Hw. unfold coerce_videos, clip_lower, fillna in Hw.
  congruence.
Qed.

(** The two definitions of the tab, as equations. *)
Lemma metric_engine_input_unfold
      (rows : list row) (t1_cat : list (option string)) (t1_cntry : list string)
      (t1_age_min t1_age_max : Q) :
  metric_engine_input rows t1_cat t1_cntry t1_age_min t1_age_max
  = filter_t1 (ingest rows) t1_cat t1_cntry t1_age_min t1_age_max.
Proof. unfold metric_engine_input. reflexivity. Qed.

Lemma tab1_unfold
      (rows : list row) (t1_cat : list (option string)) (t1_cntry : list string)
      (t1_age_min t1_age_max : Q) :
  tab1 rows t1_cat t1_cntry t1_age_min t1_age_max
  = bind (add_metrics (metric_engine_input rows t1_cat t1_cntry t1_age_min t1_age_max))
         (fun df_t1 => Some (add_uploads_bucket df_t1)).
Proof. unfold tab1. reflexivity. Qed.

(** C8, amended. Only videos_last_30_days is coerced (a missing value
    becomes 0, a negative one is raised to 0, any other is kept), by line
    934, after the metric columns exist: the rows that reach the metric
    functions are the loaded rows as they are, the three metric columns of
    the bucketed table are the metrics of those uncoerced rows,
    views_last_30_days is never changed, and every row that reaches the
    bucketing has videos_last_30_days >= 0 and gets one of the 7 buckets. *)
Theorem videos_coerced_before_bucketing_only
        (rows : list row) (t1_cat : list (option string)) (t1_cntry : list string)
        (t1_age_min t1_age_max : Q) (out : list brow) :
  tab1 rows t1_cat t1_cntry t1_age_min t1_age_max = Some out ->
  Forall (fun d => In (raw d) rows)
         (metric_engine_input rows t1_cat t1_cntry t1_age_min t1_age_max)
  /\ Forall2
       (fun d b =>
          growth_boost_score (raw d) = Some (c_growth_boost_score (b_row b))
          /\ views_per_upload (raw d) = Some (c_views_per_upload (b_row b))
          /\ audience_interest_rate (raw d) = Some (c_audience_interest_rate (b_row b))
          /\ m_views (b_row b) = views_last_30_days (raw d)
          /\ m_videos (b_row b) = coerce_videos (videos_last_30_days (raw d))
          /\ exists (v : Z) (label : string),
               m_videos (b_row b) = Some v
               /\ (0 <= v)%Z
               /\ (videos_last_30_days (raw d) = None -> v = 0%Z)
               /\ (forall z, videos_last_30_days (raw d) = Some z -> v = Z.max z 0)
               /\ c_uploads_bucket b = Some label
               /\ In label labels)
       (metric_engine_input rows t1_cat t1_cntry t1_age_min t1_age_max) out.
Proof.
  intro H. split.
  - apply Forall_forall. intros d Hd.
    rewrite metric_engine_input_unfold in Hd. apply filter_t1_incl in Hd.
    apply in_map_iff in Hd. destruct Hd as [r [<- Hr]]. exact Hr.
  - rewrite tab1_unfold in H.
    destruct (add_metrics (metric_engine_input rows t1_cat t1_cntry t1_age_min t1_age_max))
      as [df |] eqn:E; cbn [bind] in H; [| discriminate].
    injection H as <-. now apply bucketed_rows.
Qed.

(** C8 as stated fails: a row with negative views_last_30_days and
    videos_last_30_days reaches the metric functions unchanged, and its
    growth_boost_score and views_per_upload are computed from the negative
    views. *)
Lemma negative_inputs_reach_the_metrics :
  exists (d : drow) (m : mrow),
    metric_engine_input [Samples.negative_row] [] [] 0 5 = [d]
    /\ views_last_30_days (raw d) = (-100)%Z
    /\ videos_last_30_days (raw d) = Some (-2)%Z
    /\ with_metrics d = Some m
    /\ c_growth_boost_score m == -100
    /\ c_views_per_upload m == -100.
Proof.
  eexists. eexists.
  split; [vm_compute; reflexivity |].
  split; [reflexivity |]. split; [reflexivity |].
  split; [vm_compute; reflexivity |].
  split; reflexivity.
Qed.

(** C8 on a table with a negative and a missing upload count. *)
Lemma videos_coerced_before_bucketing_only_witness :
  exists out : list brow,
    tab1 [Samples.negative_row; Samples.missing_row] [] [] 0 5 = Some out
    /\ map (fun b => m_videos (b_row b)) out = [Some 0%Z; Some 0%Z]
    /\ map c_uploads_bucket out = [Some "0-4"; Some "0-4"]
    /\ Forall (fun d => In (raw d) [Samples.negative_row; Samples.missing_row])
              (metric_engine_input [Samples.negative_row; Samples.missing_row] [] [] 0 5).
Proof.
  eexists. split; [vm_compute; reflexivity |].
  split; [reflexivity |]. split; [reflexivity |].
  match goal with
  | |- Forall _ (metric_engine_input ?rows ?c ?n ?lo ?hi) =>
      eapply (proj1 (videos_coerced_before_bucketing_only rows c n lo hi _ _))
  end.
  Unshelve. 2: vm_compute; reflexivity.
Defined.

(** ** Recommendations *)

(** The list is a function of the entity and its peers, it is always
    produced, and its first entry is the header: the overall line when no
    entry of the body carries one of the two marker words, else the focus
    line with the number of entries that carry one. *)
Lemma tips_header_first (fmt : string -> num -> string) (sel_r : mrow) (peers : list mrow) :
  exists (header : string) (body : list string),
    tips fmt sel_r peers = Some (header :: body)
    /\ tips_body fmt sel_r peers = Some body
    /\ nth_error (header :: body) 0 = Some header
    /\ header = (if existsb flagged body
                 then focus_line (List.length (filter flagged body))
                 else overall_line).
Proof.
  destruct (tips_body_defined fmt sel_r peers) as [g [i [v [_ [_ [_ Hb]]]]]].
  unfold tips. rewrite Hb. cbn [bind]. unfold with_header.
  destruct (existsb flagged (tips_lines fmt sel_r peers g i v)) eqn:E; cbn [negb].
  - exists (focus_line (List.length (filter flagged (tips_lines fmt sel_r peers g i v)))).
    exists (tips_lines fmt sel_r peers g i v). rewrite E. repeat split.
  - exists overall_line, (tips_lines fmt sel_r peers g i v). rewrite E. repeat split.
Qed.

(** C7 on the code: for a channel whose category is named IMPORTANT and
    which is level with its only peer, no CRITICAL and no IMPORTANT rule
    fires, yet the header at index 0 is the focus line with count 1,
    because the category line itself contains the marker word. *)
Theorem tips_focus_count_includes_category (fmt : string -> num -> string) :
  exists sel_r : mrow,
    add_metrics (metric_engine_input [Samples.shouting_row] [] [] 0 5) = Some [sel_r]
    /\ select_channel [sel_r] (Some "I") = Some sel_r
    /\ peers [sel_r] sel_r = [sel_r]
    /\ critical_fires sel_r (peer_interest_median [sel_r]) = false
    /\ important_fires sel_r (peer_views_median [sel_r]) = false
    /\ tips fmt sel_r [sel_r]
       = Some [ focus_line 1;
                "Category Context: IMPORTANT";
                "   • Comparing against **1** similar channels in your category" ].
Proof.
  eexists. split; [vm_compute; reflexivity |].
  repeat split; vm_compute; reflexivity.
Qed.

(** *** Where the marker words can occur *)

Lemma prefix_occurs (c : ascii) (pat s : string) :
  String.prefix pat s = true -> occurs c pat = true -> occurs c s = true.
Proof.
  revert s. induction pat as [| a pat IH]; intros s Hp Ho; [discriminate Ho |].
  destruct s as [| b s]; [discriminate Hp |].
  cbn in Hp. destruct (ascii_dec a b) as [-> | _]; [| discriminate Hp].
  cbn in Ho |- *. destruct (Ascii.eqb b c); [reflexivity |].
  cbn in Ho |- *. now apply IH.
Qed.

Lemma contains_occurs (c : ascii) (pat s : string) :
  contains pat s = true -> occurs c pat = true -> occurs c s = true.
Proof.
  intros Hc Ho. induction s as [| b s IH].
  - cbn in Hc. rewrite orb_false_r in Hc. now apply (prefix_occurs c pat).
  - cbn [contains] in Hc. apply orb_true_iff in Hc. destruct Hc as [Hp | Hc].
    + now apply (prefix_occurs c pat).
    + cbn. rewrite (IH Hc). apply orb_true_r.
Qed.

Lemma occurs_app (c : ascii) (a b : string) :
  occurs c (a ++ b) = occurs c a || occurs c b.
Proof.
  induction a as [| x a IH]; [reflexivity |]. cbn. rewrite IH. apply orb_assoc.
Qed.

Lemma no_capitals_occurs (c : ascii) (s : string) :
  no_capitals s = true -> is_capital c = true -> occurs c s = false.
Proof.
  intros Hs Hc. induction s as [| a s IH]; [reflexivity |].
  cbn in Hs |- *. apply andb_true_iff in Hs. destruct Hs as [Ha Hs].
  rewrite (IH Hs), orb_false_r.
  destruct (Ascii.eqb_spec a c) as [-> | _]; [| reflexivity].
  rewrite Hc in Ha. discriminate Ha.
Qed.

(** A line is free of both marker words when it lacks a letter of each. *)
Lemma not_flagged_by_letters (c1 c2 : ascii) (s : string) :
  occurs c1 "CRITICAL" = true -> occurs c2 "IMPORTANT" = true ->
  occurs c1 s = false -> occurs c2 s = false -> flagged s = false.
Proof.
  intros P1 P2 H1 H2. unfold flagged. apply orb_false_iff.
  split; apply not_true_iff_false; intro C.
  - rewrite (contains_occurs c1 _ _ C P1) in H1. discriminate H1.
  - rewrite (contains_occurs c2 _ _ C P2) in H2. discriminate H2.
Qed.

Lemma string_of_uint_no_capitals (d : Decimal.uint) :
  no_capitals (NilEmpty.string_of_uint d) = true.
Proof.
  induction d; cbn; auto.
Qed.

Lemma str_of_nat_no_capitals (n : nat) : no_capitals (str_of_nat n) = true.
Proof.
  unfold str_of_nat, NilZero.string_of_uint.
  destruct (Nat.to_uint n) eqn:E; try reflexivity;
    rewrite <- E; apply string_of_uint_no_capitals.
Qed.

Section MarkerCount.

Variable fmt : string -> num -> string.
Hypothesis fmt_no_capitals : forall spec x, no_capitals (fmt spec x) = true.

Lemma fmt_occurs (c : ascii) (spec : string) (x : num) :
  is_capital c = true -> occurs c (fmt spec x) = false.
Proof. intro H. apply no_capitals_occurs; [apply fmt_no_capitals | exact H]. Qed.

Ltac letters c1 c2 :=
  apply (not_flagged_by_letters c1 c2); [reflexivity | reflexivity | |];
  rewrite ?occurs_app, ?fmt_occurs by reflexivity; reflexivity.

Ltac marker_scan :=
  cbv zeta; cbn [map];
  repeat match goal with
         | |- _ :: _ = _ :: _ => f_equal
         end;
  first [ letters constr:("T"%char) constr:("T"%char)
        | letters constr:("I"%char) constr:("I"%char)
        | letters constr:("L"%char) constr:("M"%char)
        | lazy; reflexivity
        | unfold flagged; apply orb_true_iff; right; lazy; reflexivity ].

Lemma flagged_critical_tips (sel_r : mrow) (m : num) (d : Q) :
  map flagged (critical_tips fmt sel_r m d) = [true; false; false; false; false].
Proof. unfold critical_tips. marker_scan. Qed.

Lemma flagged_excellent_tips (sel_r : mrow) (d : Q) :
  map flagged (excellent_tips fmt sel_r d) = [false; false; false].
Proof. unfold excellent_tips. marker_scan. Qed.

Lemma flagged_important_tips (sel_r : mrow) (m : num) (d : Q) :
  map flagged (important_tips fmt sel_r m d) = [true; false; false; false].
Proof. unfold important_tips. marker_scan. Qed.

Lemma flagged_opportunity_tips (d : Q) :
  map flagged (opportunity_tips fmt d) = [false].
Proof. unfold opportunity_tips. marker_scan. Qed.

Lemma flagged_category_line (category : string) :
  flagged ("Category Context: " ++ category) = flagged category.
Proof. unfold flagged. cbn. reflexivity. Qed.

Lemma flagged_size_line (n : nat) :
  flagged ("   • Comparing against **" ++ str_of_nat n
             ++ "** similar channels in your category") = false.
Proof.
  apply (not_flagged_by_letters "T"%char "T"%char); [reflexivity | reflexivity | |];
    rewrite !occurs_app;
    rewrite (no_capitals_occurs _ _ (str_of_nat_no_capitals n)) by reflexivity;
    reflexivity.
Qed.

(** With a formatter that prints no capital letter, the entries that carry
    a marker word are the CRITICAL line and the IMPORTANT line when their
    rules fire, and the category line when the category name carries one. *)
Lemma tips_lines_flagged (sel_r : mrow) (peers : list mrow) (g i v : Q) :
  filter (fun b : bool => b) (map flagged (tips_lines fmt sel_r peers g i v))
  = filter (fun b : bool => b)
      [ critical_fires sel_r (peer_interest_median peers);
        important_fires sel_r (peer_views_median peers);
        flagged (Pandas.cell_str (m_category sel_r)) ].
Proof.
  unfold tips_lines. rewrite concat_map. cbn [map concat].
  rewrite !filter_app, app_nil_r.
  rewrite flagged_category_line, flagged_size_line.
  destruct (critical_fires sel_r (peer_interest_median peers));
    [rewrite flagged_critical_tips
    | destruct (excellent_fires sel_r (peer_interest_median peers));
      [rewrite flagged_excellent_tips |]];
    (destruct (important_fires sel_r (peer_views_median peers));
     [rewrite flagged_important_tips |]);
    (destruct (opportunity_fires sel_r (peer_growth_median peers));
     [rewrite flagged_opportunity_tips |]);
    destruct (consider_fires sel_r (peer_upload_freq peers));
    destruct (flagged (Pandas.cell_str (m_category sel_r))); reflexivity.
Qed.

Lemma filter_map_true {A : Type} (f : A -> bool) (l : list A) :
  List.length (filter f l) = List.length (filter (fun b : bool => b) (map f l))
  /\ existsb f l = existsb (fun b : bool => b) (filter (fun b : bool => b) (map f l)).
Proof.
  induction l as [| a l [IH1 IH2]]; [split; reflexivity |].
  cbn. destruct (f a); cbn; rewrite ?IH1, ?IH2; split; reflexivity.
Qed.

(** When the formatter prints no capital letter and the category name
    carries neither marker word, the header is the overall line if neither
    the CRITICAL nor the IMPORTANT rule fired, and else the focus line with
    the number of those two rules that fired. *)
Lemma tips_header_counts_rules (sel_r : mrow) (peers : list mrow) :
  flagged (Pandas.cell_str (m_category sel_r)) = false ->
  exists body : list string,
    tips_body fmt sel_r peers = Some body
    /\ tips fmt sel_r peers
       = Some ((if critical_fires sel_r (peer_interest_median peers)
                   || important_fires sel_r (peer_views_median peers)
                then focus_line
                       ((if critical_fires sel_r (peer_interest_median peers)
                         then 1 else 0)
                        + (if important_fires sel_r (peer_views_median peers)
                           then 1 else 0))
                else overall_line) :: body).
Proof.
  intro Hcat.
  destruct (tips_body_defined fmt sel_r peers) as [g [i [v [_ [_ [_ Hb]]]]]].
  exists (tips_lines fmt sel_r peers g i v). split; [exact Hb |].
  unfold tips. rewrite Hb. cbn [bind]. unfold with_header.
  destruct (filter_map_true flagged (tips_lines fmt sel_r peers g i v)) as [L E].
  rewrite L, E, tips_lines_flagged, Hcat.
  destruct (critical_fires sel_r (peer_interest_median peers));
    destruct (important_fires sel_r (peer_views_median peers)); reflexivity.
Qed.

End MarkerCount.

(** ** Sorting *)

Section IsortFacts.

Context {A : Type} (leb : A -> A -> bool).
Hypothesis leb_total : forall a b, leb a b = false -> leb b a = true.

Lemma insert_perm (x : A) (l : list A) : Permutation (x :: l) (Pandas.insert leb x l).
Proof.
  induction l as [| y l IH]; cbn; [reflexivity |].
  destruct (leb x y); [reflexivity |].
  rewrite perm_swap. now apply perm_skip.
Qed.

Lemma isort_perm (l : list A) : Permutation l (Pandas.isort leb l).
Proof.
  induction l as [| x l IH]; cbn; [reflexivity |].
  rewrite <- insert_perm. now apply perm_skip.
Qed.

Lemma insert_sorted (x : A) (l : list A) :
  Sorted (fun a b => leb a b = true) l ->
  Sorted (fun a b => leb a b = true) (Pandas.insert leb x l).
Proof.
  induction 1 as [| y l Hs IH Hhd]; cbn; [repeat constructor |].
  destruct (leb x y) eqn:E.
  - constructor; [now constructor | now constructor].
  - constructor; [exact IH |].
    destruct Hhd as [| z l Hyz]; cbn.
    + constructor. now apply leb_total.
    + destruct (leb x z); constructor; [now apply leb_total | exact Hyz].
Qed.

Lemma isort_sorted (l : list A) : Sorted (fun a b => leb a b = true) (Pandas.isort leb l).
Proof.
  induction l as [| x l IH]; cbn; [constructor | now apply insert_sorted].
Qed.

End IsortFacts.

Lemma Qle_bool_total (a b : Q) : Qle_bool a b = false -> Qle_bool b a = true.
Proof.
  intro H. apply Qle_bool_iff. apply not_true_iff_false in H.
  rewrite Qle_bool_iff in H. apply Qlt_le_weak. now apply Qnot_le_lt.
Qed.

Lemma isort_Q_sorted (s : list Q) : StronglySorted Qle (Pandas.isort Qle_bool s).
Proof.
  apply Sorted_StronglySorted; [intros a b c; apply Qle_trans |].
  pose proof (isort_sorted Qle_bool Qle_bool_total s) as H.
  induction H as [| x l Hs IH Hhd]; constructor; [exact IH |].
  destruct Hhd; constructor. now apply Qle_bool_iff.
Qed.

Lemma filter_length_perm {A : Type} (f : A -> bool) (l l' : list A) :
  Permutation l l' -> List.length (filter f l) = List.length (filter f l').
Proof.
  induction 1 as [| x l l' _ IH | x y l | l l' l'' _ IH1 _ IH2]; cbn.
  - reflexivity.
  - destruct (f x); cbn; now rewrite IH.
  - destruct (f x), (f y); reflexivity.
  - now rewrite IH1.
Qed.

(** ** Average ranks *)

Lemma count_less_above (o : list Q) (x : Q) :
  Forall (Qle x) o -> count_less o x = 0%nat.
Proof.
  unfold count_less. induction 1 as [| y o Hy _ IH]; cbn; [reflexivity |].
  assert (E : Qltb y x = false) by now apply Qltb_ge.
  now rewrite E.
Qed.

Lemma count_equal_above (o : list Q) (x : Q) :
  Forall (Qlt x) o -> count_equal o x = 0%nat /\ forall k, Pandas.positions_from k o x = [].
Proof.
  unfold count_equal. induction 1 as [| y o Hy _ [IH1 IH2]]; cbn; [split; reflexivity |].
  assert (E : Qeq_bool y x = false).
  { apply not_true_iff_false. intro C. apply Qeq_bool_iff in C. rewrite C in Hy.
    now apply Qlt_irrefl in Hy. }
  rewrite E. split; [exact IH1 | intro k; apply IH2].
Qed.

(** In a sorted series the entries equal to [x] occupy consecutive
    positions, right after the entries below [x]. *)
Lemma positions_sorted (o : list Q) (x : Q) :
  StronglySorted Qle o ->
  forall k : nat,
    List.length (Pandas.positions_from k o x) = count_equal o x
    /\ (2 * positions_weight (Pandas.positions_from k o x) + Z.of_nat (count_equal o x)
        = 2 * Z.of_nat (count_equal o x) * (Z.of_nat k + Z.of_nat (count_less o x))
          + Z.of_nat (count_equal o x) * Z.of_nat (count_equal o x))%Z.
Proof.
  induction 1 as [| y o Hs IH Hy]; intro k; [split; reflexivity |].
  destruct (IH (S k)) as [IHl IHw].
  unfold count_equal, count_less in *. cbn [Pandas.positions_from filter].
  destruct (Qeq_bool y x) eqn:E.
  - apply Qeq_bool_iff in E.
    assert (L : Qltb y x = false) by (apply Qltb_ge; rewrite E; apply Qle_refl).
    assert (Z0 : List.length (filter (fun y0 => Qltb y0 x) o) = 0%nat).
    { apply (count_less_above o x). eapply Forall_impl; [| exact Hy].
      intros a Ha. now rewrite <- E. }
    rewrite L. cbn [List.length positions_weight fold_right].
    fold (positions_weight (Pandas.positions_from (S k) o x)).
    rewrite Z0 in *. split; [now rewrite IHl | lia].
  - destruct (Qltb y x) eqn:L.
    + cbn [List.length]. split; [exact IHl | lia].
    + apply Qltb_ge in L.
      assert (Hlt : x < y).
      { apply Qle_lt_or_eq in L. destruct L as [L | L]; [exact L |].
        apply not_true_iff_false in E. exfalso. apply E. apply Qeq_bool_iff.
        now symmetry. }
      destruct (count_equal_above o x) as [C P].
      { eapply Forall_impl; [| exact Hy]. intros a Ha. eapply Qlt_le_trans; eassumption. }
      unfold count_equal in C. rewrite P, C. split; reflexivity.
Qed.

Lemma Qsum_positions (ps : list nat) :
  Qsum (map (fun p => inject_Z (Z.of_nat p)) ps) == inject_Z (positions_weight ps).
Proof.
  induction ps as [| p ps IH]; cbn; [reflexivity |].
  rewrite IH, inject_Z_plus. reflexivity.
Qed.

(** The closed form of the average rank of a value that occurs. *)
Lemma average_rank_closed (s : list Q) (x : Q) :
  (0 < count_equal s x)%nat ->
  Pandas.average_rank s x
  == inject_Z (Z.of_nat (count_less s x))
     + (inject_Z (Z.of_nat (count_equal s x)) + 1) / 2.
Proof.
  intro He. unfold Pandas.average_rank.
  destruct (positions_sorted _ x (isort_Q_sorted s) 1) as [Hl Hw].
  pose proof (isort_perm Qle_bool s) as P.
  assert (Cl : count_less (Pandas.isort Qle_bool s) x = count_less s x)
    by (symmetry; now apply filter_length_perm).
  assert (Ce : count_equal (Pandas.isort Qle_bool s) x = count_equal s x)
    by (symmetry; now apply filter_length_perm).
  rewrite Cl, Ce in Hw. rewrite Ce in Hl.
  rewrite Qsum_positions. unfold Qlen. rewrite Hl.
  set (e := Z.of_nat (count_equal s x)) in *.
  set (l := Z.of_nat (count_less s x)) in *.
  set (w := positions_weight _) in *.
  assert (Hpos : (0 < e)%Z) by (unfold e; lia).
  assert (Hq : 0 < inject_Z e) by (rewrite <- (Zlt_Qlt 0); exact Hpos).
  assert (Hz : 2 * inject_Z w + inject_Z e
               == 2 * inject_Z e * (1 + inject_Z l) + inject_Z e * inject_Z e).
  { change 2 with (inject_Z 2). change 1 with (inject_Z 1).
    rewrite <- !inject_Z_mult, <- !inject_Z_plus, <- !inject_Z_mult, <- inject_Z_plus.
    now rewrite Hw. }
  field_simplify_eq; [| intro C; rewrite C in Hq; now apply Qlt_irrefl in Hq].
  lra.
Qed.

(** ** [pct_norm] *)

Lemma select_mask {A B : Type} (p : A -> bool) (g : A -> B) (l : list A) :
  Pandas.select (map p l) (map g l) = map g (filter p l).
Proof.
  induction l as [| a l IH]; cbn; [reflexivity |].
  destruct (p a); cbn; now rewrite IH.
Qed.

Lemma positions_from_compat (o : list Q) (x y : Q) (k : nat) :
  x == y -> Pandas.positions_from k o x = Pandas.positions_from k o y.
Proof.
  intro E. revert k. induction o as [| z o IH]; intro k; cbn; [reflexivity |].
  rewrite (Qeqb_comp z z (Qeq_refl z) x y E), !IH. reflexivity.
Qed.

Lemma average_rank_compat (s : list Q) (x y : Q) :
  x == y -> Pandas.average_rank s x = Pandas.average_rank s y.
Proof.
  intro E. unfold Pandas.average_rank. now rewrite (positions_from_compat _ x y 1 E).
Qed.

Lemma Qltb_compat (z x y : Q) : x == y -> Qltb z x = Qltb z y.
Proof.
  intro E. unfold Qltb. now rewrite (Qleb_comp x y E z z (Qeq_refl z)).
Qed.

Lemma count_compat (s : list Q) (x y : Q) :
  x == y -> count_less s x = count_less s y /\ count_equal s x = count_equal s y.
Proof.
  intro E. unfold count_less, count_equal.
  induction s as [| z s [IH1 IH2]]; cbn; [split; reflexivity |].
  rewrite (Qltb_compat z x y E), (Qeqb_comp z z (Qeq_refl z) x y E).
  destruct (Qltb z y), (Qeq_bool z y); cbn; rewrite ?IH1, ?IH2; split; reflexivity.
Qed.

(** The [try] branch succeeds exactly when the value occurs, and then
    yields the rank of the value. *)
Lemma pct_norm_cases (value : Q) (series : list Q) :
  (count_equal series value = 0%nat
   /\ pct_norm value series
      = inject_Z (Z.of_nat (count_less series value))
        / inject_Z (Z.of_nat (Nat.max 1 (List.length series))))
  \/ ((0 < count_equal series value)%nat
      /\ pct_norm value series = Pandas.average_rank series value / Qlen series).
Proof.
  unfold pct_norm, Pandas.rank_pct, count_equal. rewrite select_mask.
  destruct (filter (fun y => Qeq_bool y value) series) as [| y l] eqn:F.
  - left. split; reflexivity.
  - right. split; [cbn; lia |]. cbn [map].
    assert (Hy : In y (filter (fun y => Qeq_bool y value) series))
      by (rewrite F; now left).
    apply filter_In in Hy. destruct Hy as [_ Hy]. apply Qeq_bool_iff in Hy.
    now rewrite (average_rank_compat series y value Hy).
Qed.

Lemma count_equal_occurs (series : list Q) (value : Q) :
  (0 < count_equal series value)%nat <-> exists y, In y series /\ y == value.
Proof.
  unfold count_equal. split.
  - intro H. destruct (filter (fun y => Qeq_bool y value) series) as [| y l] eqn:F;
      [cbn in H; lia |].
    assert (Hy : In y (filter (fun y => Qeq_bool y value) series))
      by (rewrite F; now left).
    apply filter_In in Hy. exists y. split; [tauto | now apply Qeq_bool_iff].
  - intros [y [Hin E]].
    assert (Hy : In y (filter (fun y => Qeq_bool y value) series))
      by (apply filter_In; split; [exact Hin | now apply Qeq_bool_iff]).
    destruct (filter (fun y => Qeq_bool y value) series); [contradiction | cbn; lia].
Qed.

Lemma count_less_equal_bound (series : list Q) (value : Q) :
  (count_less series value + count_equal series value <= List.length series)%nat.
Proof.
  unfold count_less, count_equal. induction series as [| z s IH]; cbn; [lia |].
  destruct (Qltb z value) eqn:L, (Qeq_bool z value) eqn:E; cbn; try lia.
  apply Qltb_lt in L. apply Qeq_bool_iff in E. rewrite E in L.
  now apply Qlt_irrefl in L.
Qed.

Lemma filter_length_le {A : Type} (f g : A -> bool) (l : list A) :
  (forall a, In a l -> f a = true -> g a = true) ->
  (List.length (filter f l) <= List.length (filter g l))%nat.
Proof.
  induction l as [| a l IH]; intro H; cbn; [lia |].
  assert (IH' : (List.length (filter f l) <= List.length (filter g l))%nat)
    by (apply IH; intros b Hb; apply H; now right).
  destruct (f a) eqn:Fa.
  - rewrite (H a (or_introl eq_refl) Fa). cbn. lia.
  - destruct (g a); cbn; lia.
Qed.

Lemma Qdiv_nat_bounds (a : Q) (n : nat) :
  (0 < n)%nat -> 0 <= a -> a <= inject_Z (Z.of_nat n) ->
  0 <= a / inject_Z (Z.of_nat n) <= 1.
Proof.
  intros Hn Ha Hb.
  assert (P : 0 < inject_Z (Z.of_nat n)) by (rewrite <- (Zlt_Qlt 0); lia).
  split.
  - apply Qle_shift_div_l; [exact P | lra].
  - apply Qle_shift_div_r; [exact P | lra].
Qed.

Lemma Qhalf (x : Q) : x / 2 == x * (1 # 2).
Proof. field. Qed.

Lemma Qdiv_le_mono (a b c : Q) : 0 < c -> a <= b -> a / c <= b / c.
Proof.
  intros Hc Hab. unfold Qdiv. apply Qmult_le_compat_r; [exact Hab |].
  apply Qinv_le_0_compat. now apply Qlt_le_weak.
Qed.

Lemma count_less_min (series : list Q) (value : Q) :
  (forall y, In y series -> value <= y) -> count_less series value = 0%nat.
Proof.
  intro H. apply count_less_above. now apply Forall_forall.
Qed.

(** The rank of an occurring value, as a fraction of the series. *)
Lemma pct_norm_exact (value : Q) (series : list Q) :
  (0 < count_equal series value)%nat ->
  pct_norm value series = Pandas.average_rank series value / Qlen series
  /\ pct_norm value series
     == (inject_Z (Z.of_nat (count_less series value))
         + (inject_Z (Z.of_nat (count_equal series value)) + 1) / 2)
        / inject_Z (Z.of_nat (List.length series)).
Proof.
  intro He. destruct (pct_norm_cases value series) as [[C _] | [_ E]]; [lia |].
  split; [exact E |]. rewrite E, (average_rank_closed series value He). reflexivity.
Qed.

Lemma pct_norm_fallback (value : Q) (series : list Q) :
  count_equal series value = 0%nat ->
  pct_norm value series
  = inject_Z (Z.of_nat (count_less series value))
    / inject_Z (Z.of_nat (Nat.max 1 (List.length series))).
Proof.
  intro He. destruct (pct_norm_cases value series) as [[_ E] | [C _]]; [exact E | lia].
Qed.

Lemma pct_norm_bounds (value : Q) (series : list Q) : 0 <= pct_norm value series <= 1.
Proof.
  pose proof (count_less_equal_bound series value) as B.
  destruct (Nat.eq_dec (count_equal series value) 0) as [E0 | Epos].
  - rewrite (pct_norm_fallback value series E0).
    apply Qdiv_nat_bounds; [lia | rewrite <- (Zle_Qle 0); lia | rewrite <- Zle_Qle; lia].
  - assert (He : (0 < count_equal series value)%nat) by lia.
    destruct (pct_norm_exact value series He) as [_ ->].
    apply Qdiv_nat_bounds; [lia | |]; rewrite Qhalf.
    + assert (0 <= inject_Z (Z.of_nat (count_less series value)))
        by (rewrite <- (Zle_Qle 0); lia).
      assert (0 <= inject_Z (Z.of_nat (count_equal series value)))
        by (rewrite <- (Zle_Qle 0); lia).
      lra.
    + assert (L : inject_Z (Z.of_nat (count_less series value))
                  + inject_Z (Z.of_nat (count_equal series value))
                  <= inject_Z (Z.of_nat (List.length series)))
        by (rewrite <- inject_Z_plus, <- Zle_Qle; lia).
      assert (1 <= inject_Z (Z.of_nat (count_equal series value)))
        by (rewrite <- (Zle_Qle 1); lia).
      lra.
Qed.

(** The rank of a least value is the least entry of the rank series. *)
Lemma pct_norm_min_rank (value : Q) (series : list Q) :
  (forall y, In y series -> value <= y) ->
  (0 < count_equal series value)%nat ->
  forall r, In r (Pandas.rank_pct series) -> pct_norm value series <= r.
Proof.
  intros Hmin He r Hr. unfold Pandas.rank_pct in Hr. apply in_map_iff in Hr.
  destruct Hr as [y [<- Hy]].
  assert (Hey : (0 < count_equal series y)%nat)
    by (apply count_equal_occurs; exists y; split; [exact Hy | reflexivity]).
  destruct (pct_norm_exact value series He) as [_ ->].
  rewrite (average_rank_closed series y Hey), (count_less_min series value Hmin).
  assert (Hn : 0 < inject_Z (Z.of_nat (List.length series))).
  { rewrite <- (Zlt_Qlt 0). pose proof (count_less_equal_bound series value). lia. }
  unfold Qlen. apply Qdiv_le_mono; [exact Hn |].
  assert (P1 : 0 <= inject_Z (Z.of_nat (count_less series y)))
    by (rewrite <- (Zle_Qle 0); lia).
  assert (P2 : 0 <= inject_Z (Z.of_nat (count_equal series y)))
    by (rewrite <- (Zle_Qle 0); lia).
  assert (P3 : 0 <= inject_Z (Z.of_nat (count_equal series value)))
    by (rewrite <- (Zle_Qle 0); lia).
  assert (P4 : 0 <= inject_Z (Z.of_nat (count_less series value)))
    by (rewrite <- (Zle_Qle 0); lia).
  destruct (Qeq_dec y value) as [E | N].
  - destruct (count_compat series y value E) as [-> ->]. rewrite !Qhalf.
    change (inject_Z (Z.of_nat 0)) with 0. lra.
  - assert (Hlt : value < y).
    { pose proof (Hmin y Hy) as L. apply Qle_lt_or_eq in L.
      destruct L as [L | L]; [exact L | exfalso; apply N; now symmetry]. }
    assert (C : (count_equal series value <= count_less series y)%nat).
    { unfold count_equal, count_less. apply filter_length_le.
      intros a _ Ha. apply Qeq_bool_iff in Ha. apply Qltb_lt. now rewrite Ha. }
    assert (C' : inject_Z (Z.of_nat (count_equal series value))
                 <= inject_Z (Z.of_nat (count_less series y)))
      by (rewrite <- Zle_Qle; lia).
    rewrite !Qhalf. change (inject_Z (Z.of_nat 0)) with 0. lra.
Qed.

(** C2. For every value and series, pct_norm lies in [0, 1]. When the
    value occurs in the series the result is its average-rank percentile:
    the number of entries below it plus the mean position of its tie
    group, over the length. When it does not occur the result is the
    number of entries strictly below it over max(1, length). For a value
    not above any entry the result is 0 under the fallback, and under an
    exact match it is the rank of the lowest tie group, the least entry
    of the rank series. *)
Theorem pct_norm_percentile (value : Q) (series : list Q) :
  series <> [] ->
  0 <= pct_norm value series <= 1
  /\ ((exists y, In y series /\ y == value) ->
      pct_norm value series = Pandas.average_rank series value / Qlen series
      /\ pct_norm value series
         == (inject_Z (Z.of_nat (count_less series value))
             + (inject_Z (Z.of_nat (count_equal series value)) + 1) / 2)
            / inject_Z (Z.of_nat (List.length series)))
  /\ ((forall y, In y series -> ~ y == value) ->
      pct_norm value series
      = inject_Z (Z.of_nat (count_less series value))
        / inject_Z (Z.of_nat (Nat.max 1 (List.length series))))
  /\ ((forall y, In y series -> value <= y) ->
      ((forall y, In y series -> ~ y == value) -> pct_norm value series == 0)
      /\ ((exists y, In y series /\ y == value) ->
          pct_norm value series
          == ((inject_Z (Z.of_nat (count_equal series value)) + 1) / 2)
             / inject_Z (Z.of_nat (List.length series))
          /\ forall r, In r (Pandas.rank_pct series) -> pct_norm value series <= r)).
Proof.
  intros _.
  assert (Absent : (forall y, In y series -> ~ y == value) ->
                   count_equal series value = 0%nat).
  { intro H. destruct (Nat.eq_dec (count_equal series value) 0) as [E | N]; [exact E |].
    assert (P : (0 < count_equal series value)%nat) by lia.
    apply count_equal_occurs in P. destruct P as [y [Hy E]]. now destruct (H y Hy). }
  split; [apply pct_norm_bounds |].
  split; [intro H; apply pct_norm_exact; now apply count_equal_occurs |].
  split; [intro H; apply pct_norm_fallback; now apply Absent |].
  intro Hmin. split.
  - intro H. rewrite (pct_norm_fallback value series (Absent H)).
    rewrite (count_less_min series value Hmin). reflexivity.
  - intro H. apply count_equal_occurs in H. split.
    + destruct (pct_norm_exact value series H) as [_ ->].
      rewrite (count_less_min series value Hmin). cbn. now rewrite Qplus_0_l.
    + now apply pct_norm_min_rank.
Qed.

(** C2 on a series with a tie at its least value. *)
Lemma pct_norm_percentile_witness :
  pct_norm 1 [1; 3; 1; 2] == 3 # 8
  /\ pct_norm (5 # 2) [1; 3; 1; 2] = inject_Z 3 / inject_Z 4
  /\ 0 <= pct_norm 1 [1; 3; 1; 2] <= 1.
Proof.
  assert (N : [1; 3; 1; 2] <> []) by discriminate.
  destruct (pct_norm_percentile 1 [1; 3; 1; 2] N) as [B [E _]].
  destruct (pct_norm_percentile (5 # 2) [1; 3; 1; 2] N) as [_ [_ [F _]]].
  split; [| split; [| exact B]].
  - destruct E as [_ E]; [exists 1; split; [now left | reflexivity] |].
    rewrite E. reflexivity.
  - apply F. intros y Hy C. cbn in Hy.
    destruct Hy as [<- | [<- | [<- | [<- | []]]]]; discriminate C.
Defined.

(** ** Category difficulty ranking *)

Lemma unique_In (x : string) (s : list string) : In x (Pandas.unique s) <-> In x s.
Proof.
  induction s as [| y s IH]; cbn; [tauto |].
  rewrite filter_In, IH, negb_true_iff. split.
  - intros [H | [H _]]; [now left | now right].
  - intros [H | H]; [now left |].
    destruct (String.eqb_spec y x) as [E | N]; [now left | right; split; [exact H | reflexivity]].
Qed.

Lemma unique_NoDup (s : list string) : NoDup (Pandas.unique s).
Proof.
  induction s as [| y s IH]; cbn; constructor.
  - rewrite filter_In, String.eqb_refl. intros [_ C]. discriminate C.
  - now apply NoDup_filter.
Qed.

Lemma dropna_In {A : Type} (x : A) (s : list (option A)) :
  In x (Pandas.dropna s) <-> In (Some x) s.
Proof.
  unfold Pandas.dropna. rewrite in_flat_map. split.
  - intros [c [Hc Hx]]. destruct c as [y |]; [| contradiction].
    destruct Hx as [-> | []]. exact Hc.
  - intro H. exists (Some x). split; [exact H | now left].
Qed.

Lemma dropna_cons {A : Type} (c : option A) (s : list (option A)) :
  Pandas.dropna (c :: s)
  = (match c with Some x => [x] | None => [] end ++ Pandas.dropna s)%list.
Proof. reflexivity. Qed.

(** [count] of a column of a table is the number of rows whose cell is not
    missing. *)
Lemma count_map {A B : Type} (f : A -> option B) (l : list A) :
  Pandas.count (map f l)
  = List.length (filter (fun a => match f a with Some _ => true | None => false end) l).
Proof.
  unfold Pandas.count. induction l as [| a l IH]; [reflexivity |].
  cbn [map filter]. rewrite dropna_cons, length_app, IH.
  destruct (f a); reflexivity.
Qed.

Lemma category_rows_eq (c : string) (df : list drow) :
  category_rows c df = filter (in_category c) df.
Proof.
  unfold category_rows. apply filter_ext. intro d. unfold in_category.
  destruct (category (raw d)); reflexivity.
Qed.

Lemma category_rows_length (c : string) (df : list drow) :
  (0 < List.length (category_rows c df))%nat
  <-> In (Some c) (map (fun d => category (raw d)) df).
Proof.
  rewrite category_rows_eq. unfold in_category.
  induction df as [| d df IH]; cbn; [split; [lia | tauto] |].
  destruct (category (raw d)) as [x |].
  - destruct (String.eqb_spec x c) as [E | N]; cbn.
    + split; [intros _; left; now rewrite E | lia].
    + rewrite IH. split; [now right | intros [[= H] | H]; [contradiction | exact H]].
  - rewrite IH. split; [now right | intros [H | H]; [discriminate H | exact H]].
Qed.

Lemma group_keys_In (c : string) (df : list drow) :
  In c (group_keys df) <-> (0 < List.length (category_rows c df))%nat.
Proof.
  unfold group_keys. rewrite category_rows_length, <- dropna_In. split; intro H.
  - apply unique_In. eapply Permutation_in; [symmetry; apply isort_perm | exact H].
  - apply unique_In in H. eapply Permutation_in; [apply isort_perm | exact H].
Qed.

Lemma groupby_category_keys (df : list drow) :
  map cs_category (groupby_category df) = group_keys df /\ NoDup (group_keys df).
Proof.
  split.
  - unfold groupby_category. rewrite map_map. cbn. apply map_id.
  - unfold group_keys. eapply Permutation_NoDup; [apply isort_perm | apply unique_NoDup].
Qed.

Lemma Qsum_integers {A : Type} (f : A -> Z) (l : list A) :
  Qsum (map (fun a => inject_Z (f a)) l) == inject_Z (fold_right Z.add 0%Z (map f l)).
Proof.
  induction l as [| a l IH]; [reflexivity |].
  cbn [map Qsum fold_right]. fold (Qsum (map (fun a => inject_Z (f a)) l)).
  rewrite IH, inject_Z_plus. reflexivity.
Qed.

(** The mean of an integer column is the sum of its cells over their
    number. *)
Lemma mean_of_integers {A : Type} (f : A -> Z) (l : list A) :
  Pandas.mean (map (fun a => inject_Z (f a)) l)
  == inject_Z (fold_right Z.add 0%Z (map f l)) / inject_Z (Z.of_nat (List.length l)).
Proof.
  unfold Pandas.mean, Qlen. rewrite length_map, Qsum_integers. reflexivity.
Qed.

(** Each row of the grouped table holds the count of the named rows and the
    mean subscriber_count of its category. *)
Lemma groupby_category_row (df : list drow) (s : cat_stat) :
  In s (groupby_category df) ->
  In (cs_category s) (group_keys df)
  /\ cs_channel_name s = List.length (spec_member_channels (cs_category s) df)
  /\ cs_subscriber_count s == spec_mean_subscriber_count (cs_category s) df.
Proof.
  unfold groupby_category. intro H.
  apply in_map_iff in H. destruct H as [c [<- Hc]].
  cbn [cs_category cs_channel_name cs_subscriber_count].
  split; [exact Hc |]. split.
  - rewrite count_map, category_rows_eq. unfold spec_member_channels.
    now rewrite filter_and.
  - unfold spec_mean_subscriber_count. rewrite category_rows_eq.
    apply (mean_of_integers (fun d => subscriber_count (raw d))).
Qed.

Lemma kept_categories_iff (df : list drow) (c : string) :
  In c (map cs_category (kept_categories df))
  <-> (10 <= List.length (spec_member_channels c df))%nat.
Proof.
  unfold kept_categories. rewrite in_map_iff. split.
  - intros [s [<- Hs]]. apply filter_In in Hs. destruct Hs as [Hs Hn].
    apply Nat.leb_le in Hn.
    destruct (groupby_category_row df s Hs) as [_ [E _]]. now rewrite <- E.
  - intro H.
    assert (K : In c (group_keys df)).
    { apply group_keys_In. rewrite category_rows_eq.
      pose proof (List.filter_length_le names_a_channel (filter (in_category c) df)) as L.
      unfold spec_member_channels in H. rewrite <- filter_and in H. lia. }
    destruct (groupby_category_keys df) as [E _]. rewrite <- E in K.
    apply in_map_iff in K. destruct K as [s [Es Hs]]. exists s.
    split; [exact Es |]. apply filter_In. split; [exact Hs |].
    apply Nat.leb_le. destruct (groupby_category_row df s Hs) as [_ [En _]].
    rewrite En, Es. exact H.
Qed.

Lemma NoDup_map_filter {A : Type} (f : A -> string) (p : A -> bool) (l : list A) :
  NoDup (map f l) -> NoDup (map f (filter p l)).
Proof.
  induction l as [| a l IH]; intro N; [constructor |].
  cbn in N. apply NoDup_cons_iff in N. destruct N as [Na Nl]. cbn.
  destruct (p a); [| now apply IH]. cbn. constructor; [| now apply IH].
  intro C. apply Na. apply in_map_iff in C. destruct C as [x [E Hx]].
  apply filter_In in Hx. apply in_map_iff. exists x. tauto.
Qed.

Lemma kept_categories_NoDup (df : list drow) :
  NoDup (map cs_category (kept_categories df)).
Proof.
  unfold kept_categories. apply NoDup_map_filter.
  destruct (groupby_category_keys df) as [E N]. now rewrite E.
Qed.

Lemma StronglySorted_app_inv {A : Type} (R : A -> A -> Prop) (l1 l2 : list A) :
  StronglySorted R (l1 ++ l2)%list ->
  StronglySorted R l2 /\ forall a b, In a l1 -> In b l2 -> R a b.
Proof.
  induction l1 as [| x l1 IH]; cbn; intro H; [split; [exact H | tauto] |].
  apply StronglySorted_inv in H. destruct H as [Hs Hx].
  destruct (IH Hs) as [S2 Hall]. split; [exact S2 |].
  intros a b [<- | Ha] Hb.
  - rewrite Forall_forall in Hx. apply Hx. apply in_or_app. now right.
  - now apply Hall.
Qed.

Lemma tail_split {A : Type} (n : nat) (l : list A) :
  l = (firstn (List.length l - n) l ++ tail n l)%list
  /\ List.length (tail n l) = Nat.min n (List.length l).
Proof.
  unfold tail. split; [symmetry; apply firstn_skipn |].
  rewrite length_skipn. lia.
Qed.

Section CategoryRankingFacts.

Variable sort_values : list cat_stat -> list cat_stat.
Hypothesis sort_values_perm : forall l, Permutation l (sort_values l).
Hypothesis sort_values_sorted : forall l, StronglySorted ascending (sort_values l).

(** C5. The ranking keeps exactly the categories with at least 10 member
    channels, the rows of the category that name a channel (one with
    exactly 9 is not in the result), one row for each, holding the mean
    subscriber_count of the category, the sum of the counts of its rows
    over their number; it sorts them by that mean in ascending order and
    returns the tail: at most 20 categories, all of them when there are at
    most 20, in ascending order, and every kept category left out has a
    mean subscriber_count no higher than every category returned. *)
Theorem cat_s_keeps_highest_means (df_t2 : list drow) :
  (forall c : string,
     In c (map cs_category (kept_categories df_t2))
     <-> (10 <= List.length (spec_member_channels c df_t2))%nat)
  /\ (forall c : string,
        List.length (spec_member_channels c df_t2) = 9%nat ->
        ~ In c (map cs_category (cat_s sort_values df_t2)))
  /\ NoDup (map cs_category (kept_categories df_t2))
  /\ (forall s : cat_stat,
        In s (kept_categories df_t2) ->
        cs_subscriber_count s == spec_mean_subscriber_count (cs_category s) df_t2
        /\ cs_channel_name s = List.length (spec_member_channels (cs_category s) df_t2))
  /\ (forall s : cat_stat,
        In s (cat_s sort_values df_t2) -> In s (kept_categories df_t2))
  /\ StronglySorted ascending (cat_s sort_values df_t2)
  /\ List.length (cat_s sort_values df_t2)
     = Nat.min 20 (List.length (kept_categories df_t2))
  /\ exists dropped : list cat_stat,
       Permutation (kept_categories df_t2) (dropped ++ cat_s sort_values df_t2)%list
       /\ forall d r, In d dropped -> In r (cat_s sort_values df_t2) ->
            spec_mean_subscriber_count (cs_category d) df_t2
            <= spec_mean_subscriber_count (cs_category r) df_t2.
Proof.
  unfold cat_s.
  destruct (tail_split 20 (sort_values (kept_categories df_t2))) as [Hsplit Hlen].
  pose proof (sort_values_sorted (kept_categories df_t2)) as Hsorted.
  rewrite Hsplit in Hsorted. apply StronglySorted_app_inv in Hsorted.
  destruct Hsorted as [Htail Hle].
  assert (Hin : forall s, In s (sort_values (kept_categories df_t2)) ->
                          In s (kept_categories df_t2)).
  { intros s Hs. eapply Permutation_in; [symmetry; apply sort_values_perm | exact Hs]. }
  assert (Htl : forall s, In s (tail 20 (sort_values (kept_categories df_t2))) ->
                          In s (kept_categories df_t2)).
  { intros s Hs. apply Hin. rewrite Hsplit. apply in_or_app. now right. }
  assert (Row : forall s, In s (kept_categories df_t2) ->
                 cs_subscriber_count s == spec_mean_subscriber_count (cs_category s) df_t2
                 /\ cs_channel_name s
                    = List.length (spec_member_channels (cs_category s) df_t2)).
  { intros s K. unfold kept_categories in K. apply filter_In in K. destruct K as [G _].
    destruct (groupby_category_row df_t2 s G) as [_ [E1 E2]]. split; assumption. }
  split; [apply kept_categories_iff |].
  split.
  { intros c H9 Hc. apply in_map_iff in Hc. destruct Hc as [s [Es Hs]].
    assert (K : In c (map cs_category (kept_categories df_t2)))
      by (apply in_map_iff; exists s; split; [exact Es | now apply Htl]).
    apply kept_categories_iff in K. lia. }
  split; [apply kept_categories_NoDup |].
  split; [exact Row |].
  split; [exact Htl |].
  split; [exact Htail |].
  split.
  { rewrite Hlen. f_equal. symmetry. apply Permutation_length. apply sort_values_perm. }
  exists (firstn (List.length (sort_values (kept_categories df_t2)) - 20)
                 (sort_values (kept_categories df_t2))).
  split; [rewrite <- Hsplit; apply sort_values_perm |].
  intros d r Hd Hr.
  assert (Kd : In d (kept_categories df_t2)).
  { apply Hin. rewrite Hsplit. apply in_or_app. now left. }
  destruct (Row d Kd) as [Ed _]. destruct (Row r (Htl r Hr)) as [Er _].
  rewrite <- Ed, <- Er. exact (Hle d r Hd Hr).
Qed.

End CategoryRankingFacts.

Lemma sort_values_isort_perm (l : list cat_stat) : Permutation l (sort_values_isort l).
Proof. apply isort_perm. Qed.

Lemma sort_values_isort_sorted (l : list cat_stat) :
  StronglySorted ascending (sort_values_isort l).
Proof.
  apply Sorted_StronglySorted; [intros a b c; apply Qle_trans |].
  assert (T : forall a b, subscribers_leb a b = false -> subscribers_leb b a = true)
    by (intros a b; apply Qle_bool_total).
  pose proof (isort_sorted subscribers_leb T l) as H.
  unfold sort_values_isort.
  induction H as [| x m Hs IH Hhd]; constructor; [exact IH |].
  destruct Hhd; constructor. now apply Qle_bool_iff.
Qed.

(** C5 on three tables, sorted by insertion: categories of 10, 9 and 11
    channels with the means 500, 900 and 200; twenty-one categories of ten
    channels, where the one of the lowest mean is left out; and a category
    of ten rows of which one names no channel. *)
Lemma cat_s_keeps_highest_means_witness :
  map cs_category (cat_s sort_values_isort Samples.ranking_table) = ["Gaming"; "Music"]
  /\ map (fun s => Qred (cs_subscriber_count s))
         (cat_s sort_values_isort Samples.ranking_table) = [200; 500]
  /\ ~ In "News" (map cs_category (cat_s sort_values_isort Samples.ranking_table))
  /\ StronglySorted ascending (cat_s sort_values_isort Samples.ranking_table)
  /\ List.length (kept_categories Samples.wide_table) = 21%nat
  /\ List.length (cat_s sort_values_isort Samples.wide_table) = 20%nat
  /\ existsb (String.eqb "c0")
             (map cs_category (cat_s sort_values_isort Samples.wide_table)) = false
  /\ map cs_category (cat_s sort_values_isort Samples.nameless_table) = ["Music"].
Proof.
  destruct (cat_s_keeps_highest_means sort_values_isort sort_values_isort_perm
              sort_values_isort_sorted Samples.ranking_table)
    as [_ [H9 [_ [_ [_ [Hs _]]]]]].
  split; [vm_compute; reflexivity |].
  split; [vm_compute; reflexivity |].
  split; [apply H9; vm_compute; reflexivity |].
  split; [exact Hs |].
  repeat split; vm_compute; reflexivity.
Defined.

(** * Further properties of the script *)

Import Load.

(** ** Metrics: where a denominator can be zero *)




(** X1. views_per_upload never divides by zero: it has a value for every
    row; it is views_last_30_days itself when videos_last_30_days is
    missing, zero or negative; and for a positive upload count it has the
    sign of views_last_30_days, so negative views give a negative value and
    only zero views give zero. *)
Theorem views_per_upload_total (r : row) :
  exists v : Q,
    views_per_upload r = Some v
    /\ (forall n : Z, videos_last_30_days r = Some n -> (n <= 0)%Z ->
        v = inject_Z (views_last_30_days r))
    /\ (videos_last_30_days r = None -> v = inject_Z (views_last_30_days r))
    /\ (forall n : Z, videos_last_30_days r = Some n -> (0 < n)%Z ->
        (0 < v <-> (0 < views_last_30_days r)%Z)
        /\ (v < 0 <-> (views_last_30_days r < 0)%Z)
        /\ (v == 0 <-> views_last_30_days r = 0%Z)).
Proof.
  unfold views_per_upload. destruct (videos_last_30_days r) as [n |].
  - destruct (Z.ltb_spec 0 n) as [Hp | Hn].
    + assert (Hq : 0 < inject_Z n) by (rewrite <- (Zlt_Qlt 0); exact Hp).
      assert (Hnz : ~ inject_Z n == 0) by lra.
      rewrite (true_div_defined _ _ Hnz). eexists. split; [reflexivity |].
      split; [intros m [= <-] Hm; lia |]. split; [discriminate |].
      intros m [= <-] _.
      set (w := views_last_30_days r).
      assert (Pos : (0 < w)%Z -> 0 < inject_Z w / inject_Z n).
      { intro H. apply Qlt_shift_div_l; [exact Hq |].
        rewrite Qmult_0_l, <- (Zlt_Qlt 0). exact H. }
      assert (Neg : (w < 0)%Z -> inject_Z w / inject_Z n < 0).
      { intro H. apply Qlt_shift_div_r; [exact Hq |].
        rewrite Qmult_0_l. change 0 with (inject_Z 0). rewrite <- Zlt_Qlt. exact H. }
      assert (Zero : w = 0%Z -> inject_Z w / inject_Z n == 0).
      { intros ->. unfold Qdiv. apply Qmult_0_l. }
      destruct (Z.lt_trichotomy w 0) as [H | [H | H]].
      * specialize (Neg H). repeat split; intro; try lia; try lra.
      * specialize (Zero H). repeat split; intro; try lia; try lra; try assumption.
      * assert (H' : (0 < w)%Z) by lia. specialize (Pos H').
        repeat split; intro; try lia; try lra.
    + eexists. split; [reflexivity |].
      split; [reflexivity |]. split; [discriminate |].
      intros m [= <-] Hm. lia.
  - eexists. split; [reflexivity |].
    split; [discriminate |]. split; [reflexivity | discriminate].
Qed.



(** ** The filter blocks *)

Lemma filter_comm {A : Type} (p q : A -> bool) (l : list A) :
  filter p (filter q l) = filter q (filter p l).
Proof.
  induction l as [| a l IH]; [reflexivity |]. cbn.
  destruct (p a) eqn:P, (q a) eqn:Q0; cbn; rewrite ?P, ?Q0, IH; reflexivity.
Qed.

Lemma filter_idem {A : Type} (p : A -> bool) (l : list A) :
  filter p (filter p l) = filter p l.
Proof.
  induction l as [| a l IH]; [reflexivity |]. cbn.
  destruct (p a) eqn:P; cbn; rewrite ?P, IH; reflexivity.
Qed.

Lemma filter_t3_eq (df : list drow) (cat : list (option string)) (cntry : list string) :
  filter_t3 df cat cntry = category_country (cntry_codes cntry) cat df.
Proof. unfold filter_t3, category_country. reflexivity. Qed.

Lemma filter_t1_eq (df : list drow) (cat : list (option string)) (cntry : list string)
      (lo hi : Q) :
  filter_t1 df cat cntry lo hi
  = filter (age_in_range lo hi) (category_country (cntry_codes cntry) cat df).
Proof. unfold filter_t1, category_country. reflexivity. Qed.

Lemma filter_t2_eq (df : list drow) (cat : list (option string)) (cntry sub : list string)
      (lo hi : Q) :
  filter_t2 df cat cntry sub lo hi
  = filter (age_in_range lo hi)
      (if truthy sub
       then filter (tier_isin sub) (category_country (cntry_codes cntry) cat df)
       else category_country (cntry_codes cntry) cat df).
Proof. unfold filter_t2, category_country. reflexivity. Qed.

Lemma category_country_idem (codes : list string) (cat : list (option string))
      (df : list drow) :
  category_country codes cat (category_country codes cat df) = category_country codes cat df.
Proof.
  unfold category_country. destruct (truthy cat), (truthy codes);
    rewrite ?filter_idem; try reflexivity.
  rewrite (filter_comm (fun d => Pandas.cell_isin (category (raw d)) cat)
                       (country_isin codes)).
  now rewrite !filter_idem.
Qed.

Lemma category_country_filter (codes : list string) (cat : list (option string))
      (p : drow -> bool) (df : list drow) :
  category_country codes cat (filter p df) = filter p (category_country codes cat df).
Proof.
  unfold category_country. destruct (truthy cat), (truthy codes); try reflexivity.
  - rewrite (filter_comm _ p), (filter_comm _ p). reflexivity.
  - apply filter_comm.
  - apply filter_comm.
Qed.

Lemma filter_t2_of_t1 (df : list drow) (cat : list (option string)) (cntry sub : list string)
      (lo hi : Q) :
  filter_t2 df cat cntry sub lo hi
  = if truthy sub
    then filter (tier_isin sub) (filter_t1 df cat cntry lo hi)
    else filter_t1 df cat cntry lo hi.
Proof.
  rewrite filter_t2_eq, filter_t1_eq. destruct (truthy sub); [apply filter_comm | reflexivity].
Qed.

(** X3. The three filter blocks nest: the first tab's table is the third
    tab's table restricted to the age range, the second tab's table is the
    first tab's restricted to the selected tiers (unrestricted for an empty
    tier selection), and filtering a filtered table again with the same
    criteria changes nothing. *)
Theorem filter_blocks_nest
        (df : list drow) (cat : list (option string)) (cntry sub : list string) (lo hi : Q) :
  filter_t1 df cat cntry lo hi = filter (age_in_range lo hi) (filter_t3 df cat cntry)
  /\ filter_t2 df cat cntry sub lo hi
     = (if truthy sub
        then filter (tier_isin sub) (filter_t1 df cat cntry lo hi)
        else filter_t1 df cat cntry lo hi)
  /\ filter_t2 df cat cntry [] lo hi = filter_t1 df cat cntry lo hi
  /\ filter_t1 (filter_t1 df cat cntry lo hi) cat cntry lo hi = filter_t1 df cat cntry lo hi
  /\ filter_t2 (filter_t2 df cat cntry sub lo hi) cat cntry sub lo hi
     = filter_t2 df cat cntry sub lo hi
  /\ filter_t3 (filter_t3 df cat cntry) cat cntry = filter_t3 df cat cntry.
Proof.
  split; [rewrite filter_t1_eq, filter_t3_eq; reflexivity |].
  split; [apply filter_t2_of_t1 |].
  split; [rewrite filter_t2_of_t1; cbn [truthy]; reflexivity |].
  split.
  { rewrite !filter_t1_eq. generalize (cntry_codes cntry). intro codes.
    rewrite category_country_filter, category_country_idem. apply filter_idem. }
  split.
  { rewrite !filter_t2_eq. generalize (cntry_codes cntry). intro codes.
    destruct (truthy sub).
    - rewrite category_country_filter, category_country_filter, category_country_idem.
      rewrite (filter_comm (tier_isin sub) (age_in_range lo hi)).
      now rewrite !filter_idem.
    - rewrite category_country_filter, category_country_idem. apply filter_idem. }
  rewrite !filter_t3_eq. apply category_country_idem.
Qed.

Lemma tier_isin_all (s : Z) :
  match subscriber_tier s with
  | Some t => Pandas.isin t tier_labels
  | None => false
  end = (0 <? s)%Z.
Proof.
  rewrite subscriber_tier_bins.
  repeat match goal with
         | |- context [(?a <=? ?b)%Z] => destruct (Z.leb_spec a b)
         end;
    destruct (Z.ltb_spec 0 s); try lia; reflexivity.
Qed.

(** X4. With all five tiers selected, the second tab's default, the tier
    filter removes exactly the channels whose subscriber_count is not
    positive: the second tab's table is the first tab's table without them. *)
Theorem default_tier_selection_drops_zero_subscribers
        (rows : list row) (cat : list (option string)) (cntry : list string) (lo hi : Q) :
  filter_t2 (ingest rows) cat cntry tier_labels lo hi
  = filter (fun d => (0 <? subscriber_count (raw d))%Z)
           (filter_t1 (ingest rows) cat cntry lo hi).
Proof.
  rewrite filter_t2_of_t1. cbn [truthy tier_labels].
  apply filter_ext_in. intros d Hd. apply filter_t1_incl in Hd.
  unfold ingest in Hd. apply in_map_iff in Hd. destruct Hd as [r [<- _]].
  unfold tier_isin. cbn [tier ingest_row raw]. apply tier_isin_all.
Qed.

(** ** Country names and codes *)

Lemma distinct_NoDup (l : list string) : Tables.distinct l = true -> NoDup l.
Proof.
  induction l as [| x l IH]; cbn; intro H; constructor;
    apply andb_true_iff in H; destruct H as [Hx Hl].
  - intro C. apply isin_In in C. rewrite C in Hx. discriminate Hx.
  - now apply IH.
Qed.

Lemma COUNTRY_MAP_keys_distinct : NoDup (map fst COUNTRY_MAP).
Proof. apply distinct_NoDup. vm_compute. reflexivity. Qed.

Lemma dict_get_In (d : list (string * string)) (k v default : string) :
  NoDup (map fst d) -> In (k, v) d -> dict_get d k default = v.
Proof.
  induction d as [| [k' v'] d IH]; intros N H; [contradiction |].
  cbn in N. apply NoDup_cons_iff in N. destruct N as [Nk Nd].
  cbn [dict_get]. destruct (String.eqb_spec k' k) as [-> | Hne].
  - destruct H as [[= ->] | H]; [reflexivity |].
    exfalso. apply Nk. apply in_map_iff. now exists (k, v).
  - destruct H as [[= -> _] | H]; [contradiction | now apply IH].
Qed.

Lemma cntry_codes_In (names : list string) (c : string) :
  In c (cntry_codes names) <-> exists v, In (c, v) COUNTRY_MAP /\ In v names.
Proof.
  unfold cntry_codes. generalize COUNTRY_MAP. intro d.
  rewrite in_map_iff. split.
  - intros [[k v] [E H]]. cbn in E. subst k. apply filter_In in H.
    destruct H as [H1 H2]. cbn in H2. apply isin_In in H2. now exists v.
  - intros [v [H1 H2]]. exists (c, v). split; [reflexivity |].
    apply filter_In. split; [exact H1 | now apply isin_In].
Qed.

Lemma key_has_value (d : list (string * string)) (c : string) :
  In c (map fst d) -> exists v, In (c, v) d.
Proof.
  intro H. apply in_map_iff in H. destruct H as [[k v] [E H]]. cbn in E. subst k.
  now exists v.
Qed.

(** The country test of the filters, read on display names. *)
Lemma country_isin_by_name (names : list string) (r : row) :
  country_isin (cntry_codes names) (ingest_row r) = true
  <-> exists c, country r = Some c
                /\ In c (map fst COUNTRY_MAP)
                /\ In (country_name (ingest_row r)) names.
Proof.
  unfold country_isin. cbn [raw ingest_row country_name]. unfold country_name_of.
  destruct (country r) as [c |].
  - rewrite isin_In, cntry_codes_In. split.
    + intros [v [H1 H2]]. exists c. split; [reflexivity |]. split.
      * apply in_map_iff. now exists (c, v).
      * now rewrite (dict_get_In _ c v c COUNTRY_MAP_keys_distinct H1).
    + intros [c' [[= <-] [Hk Hn]]]. destruct (key_has_value _ _ Hk) as [v Hv].
      exists v. split; [exact Hv |].
      now rewrite (dict_get_In _ c v c COUNTRY_MAP_keys_distinct Hv) in Hn.
  - split; [discriminate | intros [c [C _]]; discriminate C].
Qed.

(** X5. When the country selection restricts at all (some selected name
    is a display value of the map), a loaded row passes the country filter
    exactly when its code is a key of the map and its display name is
    selected; so a row whose code is missing or not in the map never
    passes, whatever is selected. *)
Theorem country_filter_selects_by_display_name
        (rows : list row) (names : list string) (d : drow) :
  cntry_codes names <> [] ->
  (In d (filter_t3 (ingest rows) [] names)
   <-> In d (ingest rows)
       /\ exists c, country (raw d) = Some c
                    /\ In c (map fst COUNTRY_MAP)
                    /\ In (country_name d) names).
Proof.
  intro Hne. rewrite filter_t3_eq. unfold category_country. cbn [truthy].
  destruct (cntry_codes names) as [| k ks] eqn:E; [contradiction |].
  cbn [truthy]. rewrite <- E. rewrite filter_In. split.
  - intros [Hin Hc]. split; [exact Hin |].
    unfold ingest in Hin. apply in_map_iff in Hin. destruct Hin as [r [<- _]].
    now apply country_isin_by_name.
  - intros [Hin Hc]. split; [exact Hin |].
    unfold ingest in Hin. apply in_map_iff in Hin. destruct Hin as [r [<- _]].
    now apply country_isin_by_name.
Qed.

(** X5 on the sample table: selecting United Kingdom keeps channel B only. *)
Lemma country_filter_selects_by_display_name_witness :
  In (ingest_row Samples.chan_B)
     (filter_t3 (ingest MoreSamples.loaded) [] ["United Kingdom"])
  /\ map (fun d => channel_name (raw d))
         (filter_t3 (ingest MoreSamples.loaded) [] ["United Kingdom"]) = [Some "B"].
Proof.
  split; [| vm_compute; reflexivity].
  apply (country_filter_selects_by_display_name MoreSamples.loaded ["United Kingdom"]).
  - vm_compute. discriminate.
  - split; [cbn; tauto |]. exists "GB". split; [reflexivity |].
    split; [apply isin_In; vm_compute; reflexivity | vm_compute; tauto].
Defined.

(** ** The warning about unmapped codes *)

Lemma cell_eqb_eq (a b : option string) : cell_eqb a b = true <-> a = b.
Proof.
  destruct a as [x |], b as [y |]; cbn; try (split; [discriminate | discriminate]).
  - rewrite String.eqb_eq. split; [now intros -> | now intros [= ->]].
  - tauto.
Qed.

Lemma unique_cells_In (x : option string) (s : list (option string)) :
  In x (unique_cells s) <-> In x s.
Proof.
  induction s as [| y s IH]; cbn; [tauto |].
  rewrite filter_In, IH, negb_true_iff. split.
  - intros [H | [H _]]; [now left | now right].
  - intros [H | H]; [now left |].
    destruct (cell_eqb y x) eqn:E; [left; now apply cell_eqb_eq | right; now split].
Qed.

Lemma unique_cells_NoDup (s : list (option string)) : NoDup (unique_cells s).
Proof.
  induction s as [| y s IH]; cbn; constructor.
  - rewrite filter_In. intros [_ C].
    rewrite (proj2 (cell_eqb_eq y y) eq_refl) in C. discriminate C.
  - now apply NoDup_filter.
Qed.

Lemma Unknown_is_key : In "Unknown" (map fst COUNTRY_MAP).
Proof. apply isin_In. vm_compute. reflexivity. Qed.

Lemma unmapped_mask_spec (c : option string) :
  unmapped_mask c = true
  <-> c = None \/ exists x, c = Some x /\ ~ In x (map fst COUNTRY_MAP).
Proof.
  unfold unmapped_mask. destruct c as [x |].
  - rewrite andb_true_iff, !negb_true_iff. split.
    + intros [H _]. right. exists x. split; [reflexivity |].
      intro C. apply isin_In in C. congruence.
    + intros [C | [y [[= <-] H]]]; [discriminate C |]. split.
      * apply not_true_iff_false. intro C. now apply isin_In in C.
      * destruct (String.eqb_spec x "Unknown") as [-> | _]; [| reflexivity].
        exfalso. apply H. exact Unknown_is_key.
  - cbn. split; [intros _; now left | reflexivity].
Qed.

Lemma unmapped_In (rows : list row) (c : option string) :
  In c (unmapped rows)
  <-> In c (map country rows)
      /\ (c = None \/ exists x, c = Some x /\ ~ In x (map fst COUNTRY_MAP)).
Proof.
  unfold unmapped. now rewrite unique_cells_In, filter_In, unmapped_mask_spec.
Qed.

Lemma join_raises (sep : string) (items : list (option string)) :
  join sep items = None <-> In None items.
Proof.
  induction items as [| [x |] rest IH]; cbn.
  - split; [discriminate | tauto].
  - destruct rest as [| y rest'].
    + split; [discriminate | intros [C | []]; discriminate C].
    + destruct (join sep (y :: rest')) as [tl |] eqn:J; cbn [bind].
      * split; [discriminate |]. intros [C | C]; [discriminate C |].
        apply IH in C. discriminate C.
      * split; [intros _; right; now apply IH | reflexivity].
  - split; [intros _; now left | reflexivity].
Qed.

(** X6. The codes reported as unmapped are exactly the distinct country
    cells that are missing or not a key of the country map (the extra test
    against 'Unknown' never excludes anything, 'Unknown' being a key); each
    reported code is shown to the user under its own raw code; and nothing
    is reported exactly when every row has a country that is a key. *)
Theorem unmapped_are_the_codes_outside_the_map (rows : list row) :
  (forall c : string,
     In (Some c) (unmapped rows)
     <-> In (Some c) (map country rows) /\ ~ In c (map fst COUNTRY_MAP))
  /\ (In None (unmapped rows) <-> In None (map country rows))
  /\ NoDup (unmapped rows)
  /\ (forall c : string, In (Some c) (unmapped rows) -> country_name_of (Some c) = c)
  /\ (unmapped_warning rows = Quiet
      <-> forall r, In r rows ->
            exists c, country r = Some c /\ In c (map fst COUNTRY_MAP)).
Proof.
  split; [| split; [| split; [apply unique_cells_NoDup | split]]].
  - intro c. rewrite unmapped_In. split.
    + intros [H [C | [x [[= <-] N]]]]; [discriminate C | now split].
    + intros [H N]. split; [exact H |]. right. now exists c.
  - rewrite unmapped_In. split; [tauto | intro H; split; [exact H | now left]].
  - intros c H. apply unmapped_In in H. destruct H as [_ [C | [x [[= <-] N]]]];
      [discriminate C |].
    unfold country_name_of. now apply dict_get_unmapped.
  - unfold unmapped_warning. cbv zeta.
    destruct (unmapped rows) as [| u us] eqn:U.
    + cbn. split; [| reflexivity]. intros _ r Hr.
      assert (N : ~ In (country r) (unmapped rows)) by (rewrite U; tauto).
      rewrite unmapped_In in N.
      assert (Hc : In (country r) (map country rows)) by now apply in_map.
      destruct (country r) as [c |].
      * exists c. split; [reflexivity |].
        destruct (in_dec string_dec c (map fst COUNTRY_MAP)) as [K | K]; [exact K |].
        exfalso. apply N. split; [exact Hc |]. right. now exists c.
      * exfalso. apply N. split; [exact Hc | now left].
    + cbn [List.length Nat.ltb Nat.leb].
      split.
      * destruct (join ", " (firstn 5 (u :: us))); discriminate.
      * intro H. exfalso.
        assert (Hu : In u (unmapped rows)) by (rewrite U; now left).
        apply unmapped_In in Hu. destruct Hu as [Hin Hout].
        apply in_map_iff in Hin. destruct Hin as [r [E Hr]].
        destruct (H r Hr) as [c [Ec Kc]]. rewrite Ec in E. subst u.
        destruct Hout as [C | [x [[= <-] N]]]; [discriminate C | contradiction].
Qed.

(** X7. Building the warning raises exactly when one of the first five
    distinct unmapped cells is a missing country (joining it fails); in
    particular it raises for every table whose first row has no country. *)
Theorem unmapped_warning_raises_on_missing_country (rows : list row) :
  (unmapped_warning rows = Raised <-> In None (firstn 5 (unmapped rows)))
  /\ (forall r rest, rows = r :: rest -> country r = None ->
      unmapped_warning rows = Raised).
Proof.
  assert (Iff : forall l, unmapped_warning l = Raised <-> In None (firstn 5 (unmapped l))).
  { intro l. unfold unmapped_warning. cbv zeta. destruct (unmapped l) as [| u us].
    - cbn. split; [discriminate | tauto].
    - rewrite <- (join_raises ", ").
      destruct (Nat.ltb_spec 0 (List.length (u :: us))) as [_ | C]; [| cbn in C; lia].
      destruct (join ", " (firstn 5 (u :: us))); split; congruence. }
  split; [apply Iff |].
  intros r rest -> Hr. apply Iff. unfold unmapped. cbn [map filter].
  rewrite Hr. cbn. now left.
Qed.

(** X7 on a table whose first row has no country. *)
Lemma unmapped_warning_raises_on_missing_country_witness :
  unmapped_warning [MoreSamples.stateless_row; Samples.chan_A] = Raised.
Proof.
  apply (proj2 (unmapped_warning_raises_on_missing_country
                  [MoreSamples.stateless_row; Samples.chan_A])
               MoreSamples.stateless_row [Samples.chan_A]); reflexivity.
Defined.

(** ** The radar values *)

Import Radar.












(** ** The posting-frequency chart *)

Import Chart.

Lemma labels_distinct : NoDup labels.
Proof. apply distinct_NoDup. vm_compute. reflexivity. Qed.

Lemma bucket_row_assigned (m : mrow) :
  exists label,
    uploads_bucket (m_videos (set_videos m (coerce_videos (m_videos m)))) = Some label
    /\ In label labels.
Proof.
  unfold m_videos at 1. cbn [set_videos base raw videos_last_30_days].
  destruct (coerce_videos_nonneg (m_videos m)) as [w [Hw [Hpos _]]].
  rewrite Hw. now apply uploads_bucket_assigned.
Qed.

Lemma add_uploads_bucket_assigned (df_t1 : list mrow) (b : brow) :
  In b (add_uploads_bucket df_t1) ->
  exists label, c_uploads_bucket b = Some label /\ In label labels.
Proof.
  unfold add_uploads_bucket. intro H. apply in_map_iff in H.
  destruct H as [m [<- _]]. cbn [c_uploads_bucket]. apply bucket_row_assigned.
Qed.

Lemma total_indicator (l : string) (ls : list string) :
  NoDup ls -> In l ls ->
  total (map (fun l' => if String.eqb l l' then 1%nat else 0%nat) ls) = 1%nat.
Proof.
  induction ls as [| x ls IH]; intros N H; [contradiction |].
  apply NoDup_cons_iff in N. destruct N as [Nx Nl]. cbn [map total fold_right].
  fold (total (map (fun l' => if String.eqb l l' then 1%nat else 0%nat) ls)).
  destruct (String.eqb_spec l x) as [-> | Hne].
  - assert (Z0 : total (map (fun l' => if String.eqb x l' then 1%nat else 0%nat) ls) = 0%nat).
    { clear IH Nl H. induction ls as [| y ls IH]; [reflexivity |].
      cbn [map total fold_right].
      fold (total (map (fun l' => if String.eqb x l' then 1%nat else 0%nat) ls)).
      destruct (String.eqb_spec x y) as [-> | _]; [exfalso; apply Nx; now left |].
      rewrite IH; [reflexivity |]. intro C. apply Nx. now right. }
    rewrite Z0. reflexivity.
  - destruct H as [-> | H]; [contradiction |]. now rewrite IH.
Qed.

Lemma total_map_add {A : Type} (f g : A -> nat) (l : list A) :
  total (map (fun x => (f x + g x)%nat) l) = (total (map f l) + total (map g l))%nat.
Proof.
  induction l as [| a l IH]; [reflexivity |]. cbn [map total fold_right].
  fold (total (map (fun x => (f x + g x)%nat) l)). fold (total (map f l)).
  fold (total (map g l)). lia.
Qed.

(** Rows that each carry one of the listed labels are split by the
    label-wise member lists. *)
Lemma members_partition (ls : list string) (df : list brow) :
  NoDup ls ->
  (forall b, In b df -> exists l, c_uploads_bucket b = Some l /\ In l ls) ->
  total (map (fun l => List.length (bucket_members l df)) ls) = List.length df.
Proof.
  intros N. induction df as [| b df IH]; intro H.
  - clear N H. induction ls as [| l ls IHl]; [reflexivity | exact IHl].
  - destruct (H b (or_introl eq_refl)) as [l [Hb Hl]].
    rewrite (map_ext _ (fun l' => ((if String.eqb l l' then 1 else 0)
                                   + List.length (bucket_members l' df))%nat)).
    + rewrite total_map_add, (total_indicator l ls N Hl), IH; [reflexivity |].
      intros x Hx. apply H. now right.
    + intro l'. unfold bucket_members. cbn [filter]. rewrite Hb.
      destruct (String.eqb l l'); reflexivity.
Qed.

Lemma unique_length_le (s : list string) : (List.length (Pandas.unique s) <= List.length s)%nat.
Proof.
  induction s as [| x s IH]; [cbn; lia |]. cbn.
  pose proof (List.filter_length_le (fun y => negb (String.eqb x y)) (Pandas.unique s)) as F.
  lia.
Qed.

Lemma unique_of_NoDup (s : list string) : NoDup s -> Pandas.unique s = s.
Proof.
  induction 1 as [| x s Hx _ IH]; [reflexivity |]. cbn. rewrite IH. f_equal.
  apply forallb_filter_id. apply forallb_forall. intros y Hy. apply negb_true_iff.
  destruct (String.eqb_spec x y) as [-> | _]; [contradiction | reflexivity].
Qed.

Lemma ba_ch_count (df : list brow) :
  map ch_count (ba df) = map (fun l => bucket_ch_count (bucket_members l df)) labels.
Proof.
  unfold ba. rewrite map_map. apply map_ext_in. intros l Hl.
  unfold groupby_uploads_bucket. rewrite lookup_bucket_groups.
  assert (Hex : existsb (String.eqb l) labels = true).
  { apply existsb_exists. exists l. split; [exact Hl | apply String.eqb_refl]. }
  rewrite Hex. cbn [andb].
  destruct (bucket_members l df) as [| b bs] eqn:E; [reflexivity |].
  cbn [truthy]. destruct (bucket_typical_views (b :: bs)); reflexivity.
Qed.

Lemma total_le {A : Type} (f g : A -> nat) (l : list A) :
  (forall x, In x l -> (f x <= g x)%nat) -> (total (map f l) <= total (map g l))%nat.
Proof.
  induction l as [| a l IH]; intro H; [cbn; lia |]. cbn [map total fold_right].
  fold (total (map f l)). fold (total (map g l)).
  pose proof (H a (or_introl eq_refl)).
  assert (total (map f l) <= total (map g l))%nat by (apply IH; intros x Hx; apply H; now right).
  lia.
Qed.

Lemma dropna_length_le {A : Type} (s : list (option A)) :
  (Pandas.count s <= List.length s)%nat.
Proof.
  unfold Pandas.count. induction s as [| c s IH]; [cbn; lia |].
  rewrite dropna_cons, length_app. destruct c; cbn in *; lia.
Qed.

Lemma count_all_named {A : Type} (s : list (option A)) :
  ~ In None s -> Pandas.count s = List.length s.
Proof.
  unfold Pandas.count. induction s as [| c s IH]; intro H; [reflexivity |].
  rewrite dropna_cons, length_app, IH by (intro C; apply H; now right).
  destruct c; [reflexivity | exfalso; apply H; now left].
Qed.

Lemma dropna_filter_NoDup {A : Type} (f : A -> option string) (p : A -> bool) (l : list A) :
  NoDup (Pandas.dropna (map f l)) -> NoDup (Pandas.dropna (map f (filter p l))).
Proof.
  induction l as [| a l IH]; intro N; [constructor |].
  cbn [map] in N. rewrite dropna_cons in N. cbn [filter].
  assert (Nl : NoDup (Pandas.dropna (map f l))) by (now apply NoDup_app_remove_l in N).
  destruct (p a); [| now apply IH].
  cbn [map]. rewrite dropna_cons. destruct (f a) as [x |]; [| now apply IH].
  cbn [app] in *. apply NoDup_cons_iff in N. destruct N as [Nx _].
  constructor; [| now apply IH].
  intro C. apply Nx. apply dropna_In in C. apply dropna_In.
  apply in_map_iff in C. destruct C as [y [E Hy]]. apply filter_In in Hy.
  apply in_map_iff. exists y. tauto.
Qed.

Lemma add_uploads_bucket_names (df_t1 : list mrow) :
  map (fun b => m_name (b_row b)) (add_uploads_bucket df_t1) = map m_name df_t1.
Proof. unfold add_uploads_bucket. rewrite map_map. reflexivity. Qed.

Lemma bucket_members_filter (l : string) (p : brow -> bool) (df : list brow) :
  bucket_members l (filter p df) = filter p (bucket_members l df).
Proof. unfold bucket_members. apply filter_comm. Qed.

(** The named rows of the buckets add up to the named rows of the table. *)
Lemma named_members_partition (df_t1 : list mrow) :
  total (map (fun l => Pandas.count
                         (map (fun b => m_name (b_row b))
                              (bucket_members l (add_uploads_bucket df_t1)))) labels)
  = Pandas.count (map m_name df_t1).
Proof.
  rewrite <- (add_uploads_bucket_names df_t1), count_map.
  rewrite <- (members_partition labels
                (filter (fun b => match m_name (b_row b) with Some _ => true | None => false end)
                        (add_uploads_bucket df_t1)) labels_distinct).
  - f_equal. apply map_ext. intro l. now rewrite count_map, bucket_members_filter.
  - intros b Hb. apply filter_In in Hb. destruct Hb as [Hb _].
    now apply (add_uploads_bucket_assigned df_t1).
Qed.

(** X10. After line 934 every row of the table falls in exactly one of
    the 7 buckets: the member lists of the buckets have the table's length
    in total; the channel counts of the aggregate sum to at most the
    number of rows that name a channel, so to at most the table's length,
    and to exactly that number when the names are distinct, which is the
    table's length when no name is missing. *)
Theorem buckets_partition_the_table (df_t1 : list mrow) :
  (forall b, In b (add_uploads_bucket df_t1) ->
     exists label, c_uploads_bucket b = Some label /\ In label labels)
  /\ total (map (fun l => List.length (bucket_members l (add_uploads_bucket df_t1))) labels)
     = List.length df_t1
  /\ (total (map ch_count (ba (add_uploads_bucket df_t1))) <= List.length df_t1)%nat
  /\ (total (map ch_count (ba (add_uploads_bucket df_t1)))
      <= Pandas.count (map m_name df_t1))%nat
  /\ (NoDup (Pandas.dropna (map m_name df_t1)) ->
      total (map ch_count (ba (add_uploads_bucket df_t1)))
      = Pandas.count (map m_name df_t1))
  /\ (~ In None (map m_name df_t1) ->
      Pandas.count (map m_name df_t1) = List.length df_t1).
Proof.
  pose proof (members_partition labels (add_uploads_bucket df_t1) labels_distinct
                (add_uploads_bucket_assigned df_t1)) as P.
  assert (L : List.length (add_uploads_bucket df_t1) = List.length df_t1)
    by (unfold add_uploads_bucket; apply length_map).
  rewrite L in P.
  assert (Le : (total (map ch_count (ba (add_uploads_bucket df_t1)))
                <= Pandas.count (map m_name df_t1))%nat).
  { rewrite ba_ch_count, <- named_members_partition. apply total_le. intros l _.
    unfold bucket_ch_count, Pandas.nunique, Pandas.count. apply unique_length_le. }
  split; [apply add_uploads_bucket_assigned |].
  split; [exact P |].
  split.
  { pose proof (dropna_length_le (map m_name df_t1)) as D. rewrite length_map in D. lia. }
  split; [exact Le |].
  split.
  - intro N. rewrite ba_ch_count, <- named_members_partition. f_equal.
    apply map_ext. intro l.
    unfold bucket_ch_count, Pandas.nunique, Pandas.count.
    rewrite unique_of_NoDup; [reflexivity |].
    unfold bucket_members. apply dropna_filter_NoDup.
    now rewrite add_uploads_bucket_names.
  - intro H. rewrite count_all_named by exact H. apply length_map.
Qed.

Lemma find_filter_head {A : Type} (p : A -> bool) (l : list A) (x : A) :
  find p l = Some x -> exists rest, filter p l = x :: rest.
Proof.
  induction l as [| a l IH]; [discriminate |]. cbn.
  destruct (p a); [intros [= ->]; eexists; reflexivity | exact IH].
Qed.

Lemma filter_map_swap {A B : Type} (p : B -> bool) (g : A -> B) (l : list A) :
  filter p (map g l) = map g (filter (fun a => p (g a)) l).
Proof.
  induction l as [| a l IH]; [reflexivity |]. cbn. destruct (p (g a)); cbn; now rewrite IH.
Qed.

Lemma ba_rows (df : list brow) (a : bucket_aggregate) :
  In a (ba df) ->
  In (agg_uploads_bucket a) labels
  /\ ch_count a = bucket_ch_count (bucket_members (agg_uploads_bucket a) df).
Proof.
  unfold ba. intro H. apply in_map_iff in H. destruct H as [l [<- Hl]].
  unfold groupby_uploads_bucket. rewrite lookup_bucket_groups.
  assert (Hex : existsb (String.eqb l) labels = true).
  { apply existsb_exists. exists l. split; [exact Hl | apply String.eqb_refl]. }
  rewrite Hex. cbn [andb].
  destruct (bucket_members l df) as [| b bs] eqn:E.
  - cbn. rewrite E. now split.
  - cbn [truthy]. destruct (bucket_typical_views (b :: bs));
      cbn [agg_uploads_bucket ch_count]; rewrite E; now split.
Qed.

Lemma ba_has_every_label (df : list brow) (label : string) :
  In label labels ->
  exists a, find (fun a => String.eqb (agg_uploads_bucket a) label) (ba df) = Some a
            /\ In a (ba df) /\ agg_uploads_bucket a = label.
Proof.
  intro Hl.
  destruct (find (fun a => String.eqb (agg_uploads_bucket a) label) (ba df)) as [a |] eqn:F.
  - exists a. apply find_some in F. destruct F as [Hin E].
    split; [reflexivity | split; [exact Hin | now apply String.eqb_eq]].
  - exfalso. unfold ba in F.
    assert (Hx : exists x, In x (ba df) /\ agg_uploads_bucket x = label).
    { unfold ba. eexists. split; [apply in_map; exact Hl |].
      destruct (lookup label (groupby_uploads_bucket df)) as [[[t |] c] |]; reflexivity. }
    destruct Hx as [x [Hx Ex]]. unfold ba in Hx.
    pose proof (find_none _ _ F x Hx) as N. cbn beta in N.
    rewrite Ex, String.eqb_refl in N. discriminate N.
Qed.

(** X11. For a channel selected from the table, the bucket lookup of lines
    943-949 finds its row: the bucket is the one of its coerced upload
    count, one of the 7 labels, the views are the channel's own, and the
    aggregate has a row for that bucket with at least one channel, so the
    "no such row" branch and the empty-bucket test are never taken. *)
Theorem selected_channel_has_a_bucket
        (df_t1 : list mrow) (sel_ch : option string) (sel_r : mrow) :
  select_channel df_t1 sel_ch = Some sel_r ->
  exists (label : string) (a : bucket_aggregate),
    sel_bucket_data (add_uploads_bucket df_t1) sel_ch = (Some label, m_views sel_r)
    /\ In label labels
    /\ uploads_bucket (coerce_videos (m_videos sel_r)) = Some label
    /\ find (fun a => String.eqb (agg_uploads_bucket a) label)
            (ba (add_uploads_bucket df_t1)) = Some a
    /\ agg_uploads_bucket a = label
    /\ (1 <= ch_count a)%nat.
Proof.
  intro Hsel. destruct (select_channel_In _ _ _ Hsel) as [_ [Hname [name Ename]]].
  unfold select_channel in Hsel.
  destruct (find_filter_head _ _ _ Hsel) as [rest Hf].
  destruct (bucket_row_assigned sel_r) as [label [Hb Hl]].
  destruct (ba_has_every_label (add_uploads_bucket df_t1) label Hl) as [a [Ha [Hin Ea]]].
  set (g := fun m => {| b_row := set_videos m (coerce_videos (m_videos m));
                        c_uploads_bucket :=
                          uploads_bucket
                            (m_videos (set_videos m (coerce_videos (m_videos m)))) |}).
  assert (Hdf : add_uploads_bucket df_t1 = map g df_t1) by reflexivity.
  assert (Hg : In (g sel_r) (add_uploads_bucket df_t1)).
  { rewrite Hdf. apply in_map. apply find_some in Hsel. tauto. }
  exists label, a. split; [| split; [exact Hl | split; [| split; [exact Ha | split; [exact Ea |]]]]].
  - unfold sel_bucket_data. rewrite Hdf, filter_map_swap.
    rewrite (filter_ext _ (fun m => Pandas.cell_eq (m_name m) sel_ch)) by reflexivity.
    rewrite Hf. cbn [map]. unfold g at 1 2. cbn [c_uploads_bucket b_row].
    rewrite Hb. reflexivity.
  - rewrite <- Hb. unfold m_videos at 1. reflexivity.
  - destruct (ba_rows _ a Hin) as [_ ->]. rewrite Ea.
    assert (Hm : In (g sel_r) (bucket_members label (add_uploads_bucket df_t1))).
    { unfold bucket_members. apply filter_In. split; [exact Hg |].
      unfold g. cbn [c_uploads_bucket]. rewrite Hb. apply String.eqb_refl. }
    assert (Hn : In name (Pandas.unique
                            (Pandas.dropna
                               (map (fun b => m_name (b_row b))
                                    (bucket_members label (add_uploads_bucket df_t1)))))).
    { apply unique_In, dropna_In. apply in_map_iff. exists (g sel_r).
      split; [| exact Hm]. rewrite <- Ename, <- Hname. reflexivity. }
    unfold bucket_ch_count, Pandas.nunique.
    destruct (Pandas.unique _); [contradiction | cbn; lia].
Qed.

(** X11 on the sample table. *)
Lemma selected_channel_has_a_bucket_witness :
  exists (df_t1 : list mrow),
    add_metrics (ingest [Samples.chan_A; Samples.chan_B]) = Some df_t1
    /\ sel_bucket_data (add_uploads_bucket df_t1) (Some "B") = (Some "0-4", 90%Z).
Proof.
  eexists. split; [vm_compute; reflexivity |].
  match goal with
  | |- sel_bucket_data (add_uploads_bucket ?df) _ = _ =>
      destruct (selected_channel_has_a_bucket df (Some "B")
                  (nth 1 df (hd Samples.engaged df)) eq_refl)
        as [label [a [H1 [_ [H3 _]]]]]
  end.
  rewrite H1. vm_compute in H3. injection H3 as <-. reflexivity.
Defined.

(** ** Bar heights *)

Lemma py_max_spec (a b : Q) :
  a <= py_max a b /\ b <= py_max a b
  /\ (b <= a -> py_max a b = a) /\ (a < b -> py_max a b = b).
Proof.
  unfold py_max. destruct (Qltb a b) eqn:E.
  - apply Qltb_lt in E. repeat split; intros; try lra; try reflexivity; exfalso; lra.
  - apply Qltb_ge in E. repeat split; intros; try lra; try reflexivity; exfalso; lra.
Qed.

Lemma fold_max_ge (s : list Q) (x : Q) :
  x <= fold_left (fun m y => if Qltb m y then y else m) s x
  /\ forall y, In y s -> y <= fold_left (fun m y => if Qltb m y then y else m) s x.
Proof.
  revert x. induction s as [| z s IH]; intro x; cbn; [split; [lra | tauto] |].
  destruct (IH (if Qltb x z then z else x)) as [H1 H2].
  destruct (Qltb x z) eqn:E; [apply Qltb_lt in E | apply Qltb_ge in E].
  - split; [lra |]. intros y [<- | Hy]; [exact H1 | now apply H2].
  - split; [exact H1 |]. intros y [<- | Hy]; [lra | now apply H2].
Qed.

Lemma min_height_floor (ba : list bucket_aggregate) :
  1000 <= min_height ba
  /\ forall b, In b ba -> typical_views b * 0.01 <= min_height ba.
Proof.
  unfold min_height, series_max.
  destruct (map typical_views ba) as [| x s] eqn:M.
  - split; [lra |]. intros b Hb. destruct ba; [contradiction | discriminate M].
  - destruct (fold_max_ge s x) as [Hx Hs].
    set (m := fold_left (fun m y => if Qltb m y then y else m) s x) in *.
    assert (Hall : forall b, In b ba -> typical_views b <= m).
    { intros b Hb. assert (Hi : In (typical_views b) (x :: s))
        by (rewrite <- M; now apply in_map).
      destruct Hi as [<- | Hi]; [exact Hx | now apply Hs]. }
    destruct (Qltb 0 m) eqn:E; [apply Qltb_lt in E | apply Qltb_ge in E].
    + destruct (py_max_spec (m * 0.01) 1000) as [P1 [P2 _]].
      split; [exact P2 |]. intros b Hb. pose proof (Hall b Hb). lra.
    + split; [lra |]. intros b Hb. pose proof (Hall b Hb). lra.
Qed.

Lemma display_views_height (ba : list bucket_aggregate) (a : bucket_aggregate) :
  1000 <= display_views ba a /\ typical_views a <= display_views ba a.
Proof.
  destruct (min_height_floor ba) as [F1 _]. unfold display_views.
  destruct (py_max_spec (typical_views a) (min_height ba)) as [P1 [P2 _]].
  split; lra.
Qed.

(** X12. Every displayed bar is at least 1000 high, at least as high as
    its typical value and at least 1% of every typical value of the chart;
    it is the typical value itself unless that is below the minimum height;
    and raising the bars keeps their order. *)
Theorem display_views_floor (ba : list bucket_aggregate) (a : bucket_aggregate) :
  1000 <= min_height ba
  /\ min_height ba <= display_views ba a
  /\ typical_views a <= display_views ba a
  /\ (forall b, In b ba -> typical_views b * 0.01 <= display_views ba a)
  /\ (min_height ba <= typical_views a -> display_views ba a = typical_views a)
  /\ (typical_views a < min_height ba -> display_views ba a = min_height ba)
  /\ (forall b, typical_views a <= typical_views b ->
      display_views ba a <= display_views ba b).
Proof.
  destruct (min_height_floor ba) as [F1 F2].
  unfold display_views.
  destruct (py_max_spec (typical_views a) (min_height ba)) as [P1 [P2 [P3 P4]]].
  repeat split; try assumption.
  - intros b Hb. pose proof (F2 b Hb). lra.
  - intros b Hab.
    destruct (py_max_spec (typical_views b) (min_height ba)) as [B1 [B2 _]].
    unfold py_max at 1. destruct (Qltb (typical_views a) (min_height ba)); lra.
Qed.

Lemma py_min_spec (a b : Q) : py_min a b <= a /\ py_min a b <= b /\ (py_min a b = a \/ py_min a b = b).
Proof.
  unfold py_min. destruct (Qltb b a) eqn:E; [apply Qltb_lt in E | apply Qltb_ge in E];
    (split; [lra | split; [lra | tauto]]).
Qed.

(** X13. When the overlay bar of the selected channel is drawn, its
    height is positive and at most the channel's views; it is below the
    bucket's displayed bar exactly when the channel's views are, and then
    at most 95% of that bar; otherwise it is the channel's views. It is
    drawn exactly when the bucket is set and the views are positive,
    provided the chart has a bar for the bucket. *)
Theorem overlay_height_keeps_the_comparison
        (ba : list bucket_aggregate) (label : string) (a : bucket_aggregate)
        (sel_views : Z) :
  find (fun x => String.eqb (agg_uploads_bucket x) label) ba = Some a ->
  label <> "" ->
  ((sel_views <= 0)%Z -> overlay_height ba (Some label) sel_views = None)
  /\ ((0 < sel_views)%Z ->
      exists h : Q,
        overlay_height ba (Some label) sel_views = Some h
        /\ 0 < h
        /\ h <= inject_Z sel_views
        /\ (h < display_views ba a <-> inject_Z sel_views < display_views ba a)
        /\ (inject_Z sel_views < display_views ba a -> h <= display_views ba a * 0.95)
        /\ (display_views ba a <= inject_Z sel_views -> h = inject_Z sel_views)).
Proof.
  intros Hf Hl. unfold overlay_height, bucket_truthy.
  destruct (String.eqb_spec label "") as [C | _]; [contradiction |]. cbn [negb andb].
  rewrite Hf. cbv zeta.
  destruct (display_views_height ba a) as [D _].
  split.
  - intro Hn. destruct (Z.ltb_spec 0 sel_views); [lia | reflexivity].
  - intro Hp. destruct (Z.ltb_spec 0 sel_views); [| lia].
    assert (Hq : 0 < inject_Z sel_views) by (rewrite <- (Zlt_Qlt 0); lia).
    destruct (Qltb (inject_Z sel_views) (display_views ba a)) eqn:E;
      [apply Qltb_lt in E | apply Qltb_ge in E].
    + destruct (py_min_spec (inject_Z sel_views) (display_views ba a * 0.95))
        as [M1 [M2 M3]].
      eexists. split; [reflexivity |].
      split; [destruct M3 as [-> | ->]; lra |].
      split; [exact M1 |].
      split; [split; intro; lra |].
      split; [intro; exact M2 | intro; exfalso; lra].
    + eexists. split; [reflexivity |].
      split; [exact Hq |]. split; [lra |].
      split; [split; intro; lra |].
      split; [intro; exfalso; lra | reflexivity].
Qed.

(** X13 on an empty table, where every bar is raised to 1000. *)
Lemma overlay_height_keeps_the_comparison_witness :
  exists h : Q,
    overlay_height (ba []) (Some "0-4") 50 = Some h /\ 0 < h /\ h <= 50.
Proof.
  destruct (overlay_height_keeps_the_comparison (ba []) "0-4" (mkAgg "0-4" 0 0) 50)
    as [_ H]; [reflexivity | discriminate |].
  destruct H as [h [H1 [H2 [H3 _]]]]; [lia |].
  exists h. repeat split; assumption.
Defined.

(** ** Accessibility helpers *)

Import A11y.

Lemma cycle_spec {A : Type} (l : list A) (index : Z) :
  l <> [] ->
  cycle l index = nth_error l (Z.to_nat (index mod Z.of_nat (List.length l)))
  /\ (Z.to_nat (index mod Z.of_nat (List.length l)) < List.length l)%nat
  /\ exists x, cycle l index = Some x /\ In x l.
Proof.
  intro Hne. destruct l as [| a l]; [contradiction |].
  set (n := Z.of_nat (List.length (a :: l))).
  assert (Hn : (0 < n)%Z) by (unfold n; cbn [List.length]; lia).
  pose proof (Z.mod_pos_bound index n Hn) as B.
  assert (E : cycle (a :: l) index = nth_error (a :: l) (Z.to_nat (index mod n))).
  { unfold cycle, py_index. fold n.
    rewrite (proj2 (Z.leb_le 0 _)) by lia. rewrite (proj2 (Z.ltb_lt _ _)) by lia.
    reflexivity. }
  assert (L : (Z.to_nat (index mod n) < List.length (a :: l))%nat) by (clear E; subst n; lia).
  split; [exact E | split; [exact L |]].
  destruct (nth_error (a :: l) (Z.to_nat (index mod n))) as [x |] eqn:N.
  - exists x. split; [now rewrite E | now apply nth_error_In in N].
  - apply nth_error_None in N. lia.
Qed.

Lemma cycle_periodic {A : Type} (l : list A) (index k : Z) :
  cycle l (index + k * Z.of_nat (List.length l)) = cycle l index.
Proof.
  destruct l as [| a l]; [reflexivity |].
  unfold cycle. rewrite Z.mod_add; [reflexivity | cbn [List.length]; lia].
Qed.

Lemma cycle_same_iff (l : list string) (i j : Z) :
  NoDup l -> l <> [] ->
  (cycle l i = cycle l j
   <-> (i mod Z.of_nat (List.length l) = j mod Z.of_nat (List.length l))%Z).
Proof.
  intros N Hne.
  destruct (cycle_spec l i Hne) as [Ei [Li _]].
  destruct (cycle_spec l j Hne) as [Ej [Lj _]].
  rewrite Ei, Ej. split.
  - intro E. apply (proj1 (NoDup_nth_error l) N) in E; [| exact Li].
    assert (Hn : (0 < Z.of_nat (List.length l))%Z) by lia.
    pose proof (Z.mod_pos_bound i _ Hn). pose proof (Z.mod_pos_bound j _ Hn). lia.
  - now intros ->.
Qed.

Lemma mapM_defined {A B : Type} (f : A -> option B) (l : list A) :
  (forall a, In a l -> exists b, f a = Some b) ->
  exists out, mapM f l = Some out.
Proof.
  induction l as [| a l IH]; intro H; [now exists [] |].
  destruct (H a (or_introl eq_refl)) as [b Hb].
  destruct IH as [out Ho]; [intros x Hx; apply H; now right |].
  exists (b :: out). cbn. now rewrite Hb, Ho.
Qed.

Lemma Forall2_length_nth {A B : Type} (R : A -> B -> Prop) (l : list A) (m : list B) :
  Forall2 R l m ->
  List.length m = List.length l
  /\ forall i a b, nth_error l i = Some a -> nth_error m i = Some b -> R a b.
Proof.
  induction 1 as [| x y l m Hxy _ [IH1 IH2]]; [split; [reflexivity | intros []; discriminate] |].
  split; [cbn; now rewrite IH1 |].
  intros [| i] a b; cbn; [intros [= <-] [= <-]; exact Hxy | apply IH2].
Qed.

Lemma modes_lists_nonempty (m : mode) :
  chart_colors (ACCESSIBILITY_MODES m) <> []
  /\ line_styles (ACCESSIBILITY_MODES m) <> []
  /\ marker_symbols (ACCESSIBILITY_MODES m) <> []
  /\ bar_patterns (ACCESSIBILITY_MODES m) <> [].
Proof. destruct m; repeat split; discriminate. Qed.

(** X14. In both modes get_chart_colors(n) returns n colours, the i-th
    being the palette entry at i modulo the palette length (so the palette
    repeats when more colours are asked than it holds), and the two colours
    the charts ask for are the mode's primary and secondary colours. *)
Theorem get_chart_colors_cycles (m : mode) (n_colors : Z) :
  exists colors : list string,
    get_chart_colors (ACCESSIBILITY_MODES m) n_colors = Some colors
    /\ List.length colors = Z.to_nat n_colors
    /\ (forall i c, nth_error colors i = Some c ->
        nth_error (chart_colors (ACCESSIBILITY_MODES m))
                  (i mod List.length (chart_colors (ACCESSIBILITY_MODES m))) = Some c)
    /\ get_chart_colors (ACCESSIBILITY_MODES m) 2
       = Some [primary (ACCESSIBILITY_MODES m); secondary (ACCESSIBILITY_MODES m)].
Proof.
  destruct (modes_lists_nonempty m) as [Hc _].
  unfold get_chart_colors.
  destruct (mapM_defined (fun i => cycle (chart_colors (ACCESSIBILITY_MODES m)) (Z.of_nat i))
              (seq 0 (Z.to_nat n_colors))) as [out Ho].
  { intros i _. destruct (cycle_spec _ (Z.of_nat i) Hc) as [_ [_ [x [Hx _]]]]. now exists x. }
  exists out. split; [exact Ho |].
  destruct (Forall2_length_nth _ _ _ (mapM_Forall2 _ _ _ Ho)) as [L Nth].
  split; [now rewrite L, length_seq |]. split; [| destruct m; reflexivity].
  intros i c Hi.
  assert (Hlt : (i < Z.to_nat n_colors)%nat).
  { assert (Ho' : (i < List.length out)%nat) by (apply nth_error_Some; congruence).
    rewrite L, length_seq in Ho'. exact Ho'. }
  assert (Hs : nth_error (seq 0 (Z.to_nat n_colors)) i = Some i).
  { rewrite nth_error_nth' with (d := 0%nat) by now rewrite length_seq.
    now rewrite seq_nth. }
  pose proof (Nth i i c Hs Hi) as E. cbn beta in E.
  destruct (cycle_spec _ (Z.of_nat i) Hc) as [Ec _]. rewrite Ec in E.
  rewrite <- E. f_equal.
  assert (Hpos : (0 < List.length (chart_colors (ACCESSIBILITY_MODES m)))%nat)
    by (destruct (chart_colors (ACCESSIBILITY_MODES m)); [contradiction | cbn; lia]).
  rewrite <- Nat2Z.inj_mod, Nat2Z.id. reflexivity.
Qed.

(** X15. For every integer index, negative ones included, and in both
    modes, the line style, marker symbol and bar pattern lookups never
    index out of range: each returns an entry of the mode's list, the bar
    pattern being None in normal mode and a hatch in colour-blind mode, and
    the call sites' own guard on show_patterns leaves the result of
    get_bar_pattern unchanged. *)
Theorem style_lookups_never_out_of_range (m : mode) (index : Z) :
  (exists s, get_line_style (ACCESSIBILITY_MODES m) index = Some s
             /\ In s (line_styles (ACCESSIBILITY_MODES m)))
  /\ (exists s, get_marker_symbol (ACCESSIBILITY_MODES m) index = Some s
                /\ In s (marker_symbols (ACCESSIBILITY_MODES m)))
  /\ get_bar_pattern (ACCESSIBILITY_MODES normal) index = Some None
  /\ (exists hatch, get_bar_pattern (ACCESSIBILITY_MODES colorblind) index = Some (Some hatch)
                    /\ In (Some hatch) (bar_patterns (ACCESSIBILITY_MODES colorblind)))
  /\ (if show_patterns (ACCESSIBILITY_MODES m)
      then get_bar_pattern (ACCESSIBILITY_MODES m) index
      else Some None) = get_bar_pattern (ACCESSIBILITY_MODES m) index.
Proof.
  destruct (modes_lists_nonempty m) as [_ [Hl [Hm _]]].
  split; [destruct (cycle_spec _ index Hl) as [_ [_ H]]; exact H |].
  split; [destruct (cycle_spec _ index Hm) as [_ [_ H]]; exact H |].
  split; [reflexivity |].
  split.
  - destruct (modes_lists_nonempty colorblind) as [_ [_ [_ Hb]]].
    destruct (cycle_spec _ index Hb) as [_ [_ [x [Hx Hin]]]].
    unfold get_bar_pattern. cbn [show_patterns ACCESSIBILITY_MODES negb].
    cbn [bar_patterns ACCESSIBILITY_MODES] in *. rewrite Hx.
    destruct x as [h |]; [now exists h |].
    exfalso. cbn in Hin.
    repeat (destruct Hin as [Hin | Hin]; [discriminate Hin |]). exact Hin.
  - destruct m; reflexivity.
Qed.

(** X16. In colour-blind mode two series get the same line style exactly
    when their indices agree modulo 4, the same marker symbol exactly when
    they agree modulo 6 and the same bar pattern exactly when they agree
    modulo 7; so up to 4, 6 and 7 series are told apart without colour. *)
Theorem colorblind_styles_distinguish_series (i j : Z) :
  (get_line_style (ACCESSIBILITY_MODES colorblind) i
   = get_line_style (ACCESSIBILITY_MODES colorblind) j <-> (i mod 4 = j mod 4)%Z)
  /\ (get_marker_symbol (ACCESSIBILITY_MODES colorblind) i
      = get_marker_symbol (ACCESSIBILITY_MODES colorblind) j <-> (i mod 6 = j mod 6)%Z)
  /\ (get_bar_pattern (ACCESSIBILITY_MODES colorblind) i
      = get_bar_pattern (ACCESSIBILITY_MODES colorblind) j <-> (i mod 7 = j mod 7)%Z).
Proof.
  split; [| split].
  - apply (cycle_same_iff (line_styles (ACCESSIBILITY_MODES colorblind)) i j);
      [apply distinct_NoDup; reflexivity | discriminate].
  - apply (cycle_same_iff (marker_symbols (ACCESSIBILITY_MODES colorblind)) i j);
      [apply distinct_NoDup; reflexivity | discriminate].
  - unfold get_bar_pattern. cbn [show_patterns ACCESSIBILITY_MODES negb bar_patterns].
    set (l := [Some "/"; Some "\"; Some "x"; Some "-"; Some "|"; Some "+"; Some "."]).
    assert (Hne : l <> []) by discriminate.
    assert (N : NoDup l).
    { unfold l. repeat constructor; cbn; intro C;
        repeat (destruct C as [C | C]; [discriminate C |]); exact C. }
    destruct (cycle_spec l i Hne) as [Ei [Li _]].
    destruct (cycle_spec l j Hne) as [Ej [Lj _]].
    rewrite Ei, Ej. change (Z.of_nat (List.length l)) with 7%Z in *. split.
    + intro E. apply (proj1 (NoDup_nth_error l) N) in E; [| exact Li].
      pose proof (Z.mod_pos_bound i 7). pose proof (Z.mod_pos_bound j 7). lia.
    + now intros ->.
Qed.

Lemma normalized_lt (a d c : Q) : 0 < d -> (a / d < c <-> a < c * d).
Proof.
  intro Hd.
  assert (E : a / d * d == a).
  { rewrite Qmult_comm. apply Qmult_div_r. intro C. rewrite C in Hd. discriminate Hd. }
  rewrite <- (Qmult_lt_r (a / d) c d Hd). rewrite E. reflexivity.
Qed.

Lemma normalized_ltb (a d c : Q) :
  0 < d ->
  (Qltb (a / d) c = true /\ a < c * d) \/ (Qltb (a / d) c = false /\ c * d <= a).
Proof.
  intro Hd. destruct (Qltb (a / d) c) eqn:E.
  - left. split; [reflexivity |]. apply Qltb_lt in E. now apply normalized_lt in E.
  - right. split; [reflexivity |]. apply Qltb_ge in E.
    destruct (Qlt_le_dec a (c * d)) as [C | C]; [| exact C].
    apply normalized_lt in C; [| exact Hd]. exfalso. lra.
Qed.

(** X17. With a proper range, the colour-blind lollipop marker follows the
    value: the smallest value gets the triangle, the largest the circle,
    and a larger value never gets an easier symbol than a smaller one (a
    value at or below one drawn as a triangle is a triangle, a value at or
    above one drawn as a circle is a circle). *)
Theorem lollipop_symbol_follows_the_value (v w min_val max_val : Q) :
  min_val < max_val ->
  v <= w ->
  get_lollipop_symbol (ACCESSIBILITY_MODES colorblind) min_val min_val max_val
  = "triangle-down"
  /\ get_lollipop_symbol (ACCESSIBILITY_MODES colorblind) max_val min_val max_val
     = "circle"
  /\ (get_lollipop_symbol (ACCESSIBILITY_MODES colorblind) w min_val max_val
      = "triangle-down" ->
      get_lollipop_symbol (ACCESSIBILITY_MODES colorblind) v min_val max_val
      = "triangle-down")
  /\ (get_lollipop_symbol (ACCESSIBILITY_MODES colorblind) v min_val max_val
      = "circle" ->
      get_lollipop_symbol (ACCESSIBILITY_MODES colorblind) w min_val max_val
      = "circle").
Proof.
  intros Hr Hvw.
  assert (Hd : 0 < max_val - min_val) by lra.
  assert (Hz : Qeq_bool (max_val - min_val) 0 = false).
  { destruct (Qeq_bool (max_val - min_val) 0) eqn:E; [| reflexivity].
    apply Qeq_bool_iff in E. exfalso. lra. }
  unfold get_lollipop_symbol. cbn [show_patterns ACCESSIBILITY_MODES negb]. cbv zeta.
  rewrite Hz.
  destruct (normalized_ltb (min_val - min_val) (max_val - min_val) 0.33 Hd) as [[E1 A1] | [E1 A1]];
    [| exfalso; lra].
  destruct (normalized_ltb (max_val - min_val) (max_val - min_val) 0.33 Hd) as [[E2 B1] | [E2 B1]];
    [exfalso; lra |].
  destruct (normalized_ltb (max_val - min_val) (max_val - min_val) 0.66 Hd) as [[E3 B2] | [E3 B2]];
    [exfalso; lra |].
  rewrite E1, E2, E3.
  destruct (normalized_ltb (v - min_val) (max_val - min_val) 0.33 Hd) as [[E4 V1] | [E4 V1]];
  destruct (normalized_ltb (v - min_val) (max_val - min_val) 0.66 Hd) as [[E5 V2] | [E5 V2]];
  destruct (normalized_ltb (w - min_val) (max_val - min_val) 0.33 Hd) as [[E6 W1] | [E6 W1]];
  destruct (normalized_ltb (w - min_val) (max_val - min_val) 0.66 Hd) as [[E7 W2] | [E7 W2]];
  try (exfalso; lra);
  rewrite E4, ?E5, E6, ?E7;
  repeat split; intros; try reflexivity; try discriminate.
Qed.

(** X17 on the range 0 to 100 with the values 10 and 90. *)
Lemma lollipop_symbol_follows_the_value_witness :
  get_lollipop_symbol (ACCESSIBILITY_MODES colorblind) 0 0 100 = "triangle-down"
  /\ get_lollipop_symbol (ACCESSIBILITY_MODES colorblind) 100 0 100 = "circle".
Proof.
  destruct (lollipop_symbol_follows_the_value 10 90 0 100) as [H1 [H2 _]];
    [reflexivity | discriminate |].
  split; assumption.
Defined.

Lemma Qfloor_bounds (x : Q) (n : Z) :
  0 <= x -> x <= inject_Z n -> (0 <= Qfloor x <= n)%Z.
Proof.
  intros H0 Hn. pose proof (Qfloor_le x) as F. pose proof (Qlt_floor x) as G.
  split.
  - assert (H : inject_Z (-1) < inject_Z (Qfloor x)).
    { rewrite inject_Z_plus in G. change (inject_Z (-1)) with (-1). change (inject_Z 1) with 1 in G. lra. }
    rewrite <- Zlt_Qlt in H. lia.
  - rewrite Zle_Qle. lra.
Qed.

(** X18. For a value between the least and the greatest subscriber mean
    the colour lookup of the colour-blind lollipop chart never indexes out
    of range: it returns one of the five stops of the mode's scale, the
    lightest for the least value, the darkest for the greatest and for no
    other value, and the middle stop when all categories tie. *)
Theorem lollipop_color_in_scale (value min_subs max_subs : Q) :
  min_subs <= value ->
  value <= max_subs ->
  exists color : string,
    lollipop_color (ACCESSIBILITY_MODES colorblind) value min_subs max_subs = Some color
    /\ In color ["#c6dbef"; "#6baed6"; "#2171b5"; "#084594"; "#08306b"]
    /\ (min_subs < max_subs -> value == min_subs -> color = "#c6dbef")
    /\ (min_subs < max_subs -> (color = "#08306b" <-> value == max_subs))
    /\ (min_subs == max_subs -> color = "#2171b5").
Proof.
  intros Hlo Hhi.
  unfold lollipop_color. cbn [colorscale ACCESSIBILITY_MODES]. cbv zeta.
  cbn [List.length]. change (Z.of_nat 5 - 1)%Z with 4%Z.
  destruct (Qltb min_subs max_subs) eqn:E; [apply Qltb_lt in E | apply Qltb_ge in E].
  - assert (Hd : 0 < max_subs - min_subs) by lra.
    set (n := (value - min_subs) / (max_subs - min_subs)).
    assert (N0 : 0 <= n) by (apply Qle_shift_div_l; [exact Hd | lra]).
    assert (N1 : n <= 1) by (apply Qle_shift_div_r; [exact Hd | lra]).
    assert (NE : n * (max_subs - min_subs) == value - min_subs).
    { unfold n. rewrite Qmult_comm. apply Qmult_div_r. lra. }
    assert (X0 : 0 <= n * inject_Z 4) by (change (inject_Z 4) with 4; lra).
    assert (X4 : n * inject_Z 4 <= inject_Z 4) by (change (inject_Z 4) with 4; lra).
    unfold py_int. rewrite (proj2 (Qle_bool_iff _ _) X0).
    pose proof (Qfloor_bounds _ _ X0 X4) as B.
    pose proof (Qfloor_le (n * inject_Z 4)) as F.
    pose proof (Qlt_floor (n * inject_Z 4)) as G.
    rewrite inject_Z_plus in G. change (inject_Z 1) with 1 in G.
    change (inject_Z 4) with 4 in *.
    remember (Qfloor (n * 4)) as f eqn:Ef. clear Ef.
    unfold py_min_int. rewrite (proj2 (Z.ltb_ge _ _)) by lia.
    assert (C : f = 0%Z \/ f = 1%Z \/ f = 2%Z \/ f = 3%Z \/ f = 4%Z) by lia.
    assert (Lmin : value == min_subs -> f = 0%Z).
    { intro V. assert (n == 0).
      { unfold n. rewrite V. unfold Qminus. rewrite Qplus_opp_r. apply Qmult_0_l. }
      assert (H1 : inject_Z f < inject_Z 1) by (change (inject_Z 1) with 1; lra).
      rewrite <- Zlt_Qlt in H1. lia. }
    assert (Lmax : f = 4%Z <-> value == max_subs).
    { split.
      - intros ->. change (inject_Z 4) with 4 in F.
        assert (n == 1) by lra.
        rewrite H in NE. lra.
      - intro V. assert (n * (max_subs - min_subs) == 1 * (max_subs - min_subs))
          by (rewrite NE, V; ring).
        assert (n == 1).
        { apply (Qmult_inj_r n 1 (max_subs - min_subs)); [lra | exact H]. }
        assert (H1 : inject_Z 3 < inject_Z f) by (change (inject_Z 3) with 3; lra).
        rewrite <- Zlt_Qlt in H1. lia. }
    destruct C as [-> | [-> | [-> | [-> | ->]]]]; eexists; (split; [reflexivity |]);
      (split; [cbn; tauto |]);
      (split; [intros _ V; specialize (Lmin V); first [reflexivity | discriminate Lmin] |]);
      (split; [intros _; split;
               [intro Hc; first [discriminate Hc | apply Lmax; reflexivity]
               | intro V; apply Lmax in V; first [reflexivity | discriminate V]]
              | intro; exfalso; lra]).
  - eexists. split; [reflexivity |].
    split; [cbn; tauto |].
    split; [intro; exfalso; lra |].
    split; [intro; exfalso; lra | reflexivity].
Qed.

(** X18 on the least of the values 10, 50 and 90. *)
Lemma lollipop_color_in_scale_witness :
  exists color : string,
    lollipop_color (ACCESSIBILITY_MODES colorblind) 10 10 90 = Some color
    /\ color = "#c6dbef".
Proof.
  destruct (lollipop_color_in_scale 10 10 90) as [c [H1 [_ [H2 _]]]];
    [discriminate | discriminate |].
  exists c. split; [exact H1 | apply H2; reflexivity].
Defined.

(** ** Tab 3: the cost-effectiveness ranking *)

Import Roi.

Lemma wrap_int64_small (z : Z) :
  (- 9223372036854775808 <= z <= int64_max)%Z -> wrap_int64 z = z.
Proof.
  unfold wrap_int64, int64_max. intro H. rewrite Z.mod_small by lia. lia.
Qed.

Lemma wrap_int64_overflow : wrap_int64 (int64_max + 1) = (- 9223372036854775808)%Z.
Proof. reflexivity. Qed.

Lemma cost_effectiveness_value (r : t3row) :
  (0 <= t3_views r < int64_max)%Z ->
  (0 <= t3_subscribers r < int64_max)%Z ->
  0 <= video_count_log1p r ->
  cost_effectiveness r
  = Some (inject_Z (t3_views r + 1) / inject_Z (t3_subscribers r + 1)
          * (1 / (video_count_log1p r + 1))).
Proof.
  intros Hv Hs Hl. unfold cost_effectiveness.
  rewrite !wrap_int64_small by lia.
  rewrite true_div_defined by (apply inject_Z_nonzero; lia).
  cbn [bind]. rewrite true_div_defined by lra. reflexivity.
Qed.

(** At the top of the int64 range the sum wraps and the score is negative. *)
Lemma cost_effectiveness_negative_at_int64_max (r : t3row) :
  t3_subscribers r = int64_max ->
  (0 <= t3_views r < int64_max)%Z ->
  0 <= video_count_log1p r ->
  exists e : Q, cost_effectiveness r = Some e /\ e < 0.
Proof.
  intros Hs Hv Hl. unfold cost_effectiveness.
  rewrite Hs, wrap_int64_overflow, wrap_int64_small by lia.
  rewrite true_div_defined by discriminate. cbn [bind].
  rewrite true_div_defined by lra. cbn [bind].
  eexists. split; [reflexivity |].
  assert (V : 0 < inject_Z (t3_views r + 1)) by (rewrite <- (Zlt_Qlt 0); lia).
  assert (B : 0 < 1 / (video_count_log1p r + 1))
    by (apply Qlt_shift_div_l; lra).
  assert (A : inject_Z (t3_views r + 1) / inject_Z (-9223372036854775808) < 0).
  { unfold Qdiv. setoid_replace (/ inject_Z (-9223372036854775808))
      with (- (1 # 9223372036854775808)) by reflexivity.
    lra. }
  setoid_replace 0 with (0 * (1 / (video_count_log1p r + 1))) by ring.
  apply Qmult_lt_compat_r; assumption.
Qed.

Lemma Qdiv_unfold_pos (a b : Q) : 0 < b -> a / b * b == a.
Proof. intro H. rewrite Qmult_comm. apply Qmult_div_r. lra. Qed.

Lemma Qdiv_pos (a b : Q) : 0 < a -> 0 < b -> 0 < a / b.
Proof. intros Ha Hb. apply Qlt_shift_div_l; [exact Hb | lra]. Qed.

Lemma Qdiv_le_compat (a a' b b' : Q) :
  0 < a -> a <= a' -> 0 < b' -> b' <= b -> a / b <= a' / b'.
Proof.
  intros Ha Haa Hb Hbb.
  apply Qle_shift_div_r; [lra |].
  assert (P : 0 < a' / b') by (apply Qdiv_pos; lra).
  pose proof (Qdiv_unfold_pos a' b' Hb) as E.
  assert (M : a' / b' * b' <= a' / b' * b) by (apply Qmult_le_l; [exact P | exact Hbb]).
  lra.
Qed.

(** X19. On channels whose two counts are non-negative and below the
    int64 maximum (where adding 1 would wrap) and whose video_count_log1p
    lies between 0 and 49, the cost-effectiveness score is defined and
    positive, above 1 / (100 (subscriber_count + 1)), and it favours small
    channels: a channel with no fewer recent views, no more subscribers and
    no larger video_count_log1p scores no lower. *)
Theorem cost_effectiveness_favours_small_channels (r1 r2 : t3row) :
  (0 <= t3_views r1)%Z -> (t3_views r1 <= t3_views r2)%Z ->
  (t3_views r2 < int64_max)%Z ->
  (0 <= t3_subscribers r2)%Z -> (t3_subscribers r2 <= t3_subscribers r1)%Z ->
  (t3_subscribers r1 < int64_max)%Z ->
  0 <= video_count_log1p r2 -> video_count_log1p r2 <= video_count_log1p r1 ->
  video_count_log1p r1 <= 49 ->
  exists e1 e2 : Q,
    cost_effectiveness r1 = Some e1
    /\ cost_effectiveness r2 = Some e2
    /\ 0 < e1
    /\ 1 / (100 * (inject_Z (t3_subscribers r1) + 1)) < e1
    /\ e1 <= e2.
Proof.
  intros Hv Hvv Hvm Hs Hss Hsm Hl Hll Hlm.
  rewrite (cost_effectiveness_value r1) by (lia || lra).
  rewrite (cost_effectiveness_value r2) by (lia || lra).
  eexists. eexists. split; [reflexivity |]. split; [reflexivity |].
  rewrite !inject_Z_plus. change (inject_Z 1) with 1.
  assert (V1 : 0 <= inject_Z (t3_views r1)) by (rewrite <- (Zle_Qle 0); exact Hv).
  assert (V2 : inject_Z (t3_views r1) <= inject_Z (t3_views r2)) by (rewrite <- Zle_Qle; exact Hvv).
  assert (S2 : 0 <= inject_Z (t3_subscribers r2)) by (rewrite <- (Zle_Qle 0); exact Hs).
  assert (S1 : inject_Z (t3_subscribers r2) <= inject_Z (t3_subscribers r1))
    by (rewrite <- Zle_Qle; exact Hss).
  set (v1 := inject_Z (t3_views r1)) in *. set (v2 := inject_Z (t3_views r2)) in *.
  set (s1 := inject_Z (t3_subscribers r1)) in *. set (s2 := inject_Z (t3_subscribers r2)) in *.
  set (l1 := video_count_log1p r1) in *. set (l2 := video_count_log1p r2) in *.
  assert (A1 : 0 < (v1 + 1) / (s1 + 1)) by (apply Qdiv_pos; lra).
  assert (B1 : 0 < 1 / (l1 + 1)) by (apply Qdiv_pos; lra).
  assert (A12 : (v1 + 1) / (s1 + 1) <= (v2 + 1) / (s2 + 1)) by (apply Qdiv_le_compat; lra).
  assert (B12 : 1 / (l1 + 1) <= 1 / (l2 + 1)) by (apply Qdiv_le_compat; lra).
  assert (A1l : 1 / (s1 + 1) <= (v1 + 1) / (s1 + 1)) by (apply Qdiv_le_compat; lra).
  assert (B1l : 1 / 50 <= 1 / (l1 + 1)) by (apply Qdiv_le_compat; lra).
  assert (S0 : 0 < 1 / (s1 + 1)) by (apply Qdiv_pos; lra).
  split; [apply Qmult_lt_0_compat; assumption |].
  split.
  - apply Qlt_le_trans with (1 / (s1 + 1) * (1 / 50)).
    + apply Qlt_shift_div_r; [lra |].
      pose proof (Qdiv_unfold_pos 1 (s1 + 1)) as E.
      assert (E' : 1 / (s1 + 1) * (s1 + 1) == 1) by (apply E; lra).
      setoid_replace (1 / 50) with (1 # 50) by reflexivity.
      setoid_replace (1 / (s1 + 1) * (1 # 50) * (100 * (s1 + 1)))
        with (2 * (1 / (s1 + 1) * (s1 + 1))) by ring.
      lra.
    + apply Qle_trans with (1 / (s1 + 1) * (1 / (l1 + 1))).
      * apply Qmult_le_l; [exact S0 | exact B1l].
      * apply Qmult_le_compat_r; [exact A1l | lra].
  - apply Qle_trans with ((v2 + 1) / (s2 + 1) * (1 / (l1 + 1))).
    + apply Qmult_le_compat_r; [exact A12 | lra].
    + apply Qmult_le_l; [lra | exact B12].
Qed.

(** X19 on a channel of 9 subscribers and one of 4. *)
Lemma cost_effectiveness_favours_small_channels_witness :
  exists e1 e2 : Q,
    cost_effectiveness
      (mkT3 (ingest_row (mkRow (Some "A") (Some "Music") None 9 100 5 49 (Some 2%Z) 1)) 3)
    = Some e1
    /\ cost_effectiveness
         (mkT3 (ingest_row
                  (mkRow (Some "B") (Some "Music") (Some "US") 4 500 9 99 (Some 3%Z) 1)) 0)
       = Some e2
    /\ 0 < e1 /\ e1 <= e2.
Proof.
  destruct (cost_effectiveness_favours_small_channels
              (mkT3 (ingest_row
                       (mkRow (Some "A") (Some "Music") None 9 100 5 49 (Some 2%Z) 1)) 3)
              (mkT3 (ingest_row
                       (mkRow (Some "B") (Some "Music") (Some "US") 4 500 9 99 (Some 3%Z) 1)) 0))
    as [e1 [e2 [H1 [H2 [H3 [_ H4]]]]]];
    try (cbn; unfold int64_max; lia); try discriminate.
  exists e1, e2. repeat split; assumption.
Defined.

Lemma channel_rows_absent (name : string) (df : list crow) :
  ~ In (Some name) (map name_of df) -> channel_rows name df = [].
Proof.
  unfold channel_rows. intro H. apply filter_none. intros c Hc.
  apply not_true_iff_false. intro E. apply cell_eq_true in E.
  destruct E as [x [E1 [= <-]]]. apply H. rewrite <- E1. now apply in_map.
Qed.

Lemma channel_rows_single (df : list crow) (c : crow) (name : string) :
  NoDup (Pandas.dropna (map name_of df)) -> In c df -> name_of c = Some name ->
  channel_rows name df = [c].
Proof.
  induction df as [| x df IH]; intros N H E; [contradiction |].
  cbn [map] in N. rewrite dropna_cons in N.
  assert (Nd : NoDup (Pandas.dropna (map name_of df)))
    by (now apply NoDup_app_remove_l in N).
  unfold channel_rows. cbn [filter]. destruct H as [-> | H].
  - rewrite E in *. rewrite cell_eq_refl. f_equal. apply channel_rows_absent.
    cbn [app] in N. apply NoDup_cons_iff in N. destruct N as [Nx _].
    intro C. apply Nx. now apply dropna_In.
  - destruct (Pandas.cell_eq (name_of x) (Some name)) eqn:X.
    + exfalso. apply cell_eq_true in X. destruct X as [y [X1 [= <-]]].
      rewrite X1 in N. cbn [app] in N. apply NoDup_cons_iff in N. destruct N as [Nx _].
      apply Nx. apply dropna_In. rewrite <- E. now apply in_map.
    + now apply IH.
Qed.

Lemma channel_rows_present (name : string) (df : list crow) :
  In (Some name) (map name_of df) -> channel_rows name df <> [].
Proof.
  unfold channel_rows. intros H C. apply in_map_iff in H. destruct H as [c [E Hc]].
  assert (K : In c (filter (fun c => Pandas.cell_eq (name_of c) (Some name)) df)).
  { apply filter_In. split; [exact Hc |]. rewrite E. apply cell_eq_refl. }
  rewrite C in K. exact K.
Qed.

Lemma channel_keys_In (name : string) (df : list crow) :
  In name (channel_keys df) <-> In (Some name) (map name_of df).
Proof.
  unfold channel_keys. rewrite <- dropna_In. split; intro H.
  - apply unique_In. eapply Permutation_in; [symmetry; apply isort_perm | exact H].
  - apply unique_In in H. eapply Permutation_in; [apply isort_perm | exact H].
Qed.

Lemma agg_names (df : list crow) : map g_channel_name (agg df) = channel_keys df.
Proof. unfold agg. rewrite map_map. cbn. apply map_id. Qed.

Lemma mean_single (x : Q) : Pandas.mean [x] == x.
Proof. unfold Pandas.mean, Qsum, Qlen. cbn. field. Qed.

(** X20. The aggregated table of Tab 3 has one row per distinct channel
    name of the filtered table, rows without a name being left out, so
    rows that share a name are merged and Total Channels counts names, not
    rows: it never exceeds the row count, and when the names are distinct
    it is the number of named rows (the row count when no name is missing)
    and every named channel keeps its own score, subscriber count and
    country. *)
Theorem agg_merges_rows_by_channel_name (df_t3 : list crow) :
  NoDup (map g_channel_name (agg df_t3))
  /\ (forall name : string,
        In name (map g_channel_name (agg df_t3)) <-> In (Some name) (map name_of df_t3))
  /\ List.length (agg df_t3) = Pandas.nunique (Pandas.dropna (map name_of df_t3))
  /\ (List.length (agg df_t3) <= List.length df_t3)%nat
  /\ (forall g : agg_row,
        In g (agg df_t3) ->
        channel_rows (g_channel_name g) df_t3 <> []
        /\ g_cost_effectiveness g
           = Pandas.mean (map c_cost_effectiveness
                              (channel_rows (g_channel_name g) df_t3)))
  /\ (NoDup (Pandas.dropna (map name_of df_t3)) ->
      List.length (agg df_t3) = Pandas.count (map name_of df_t3)
      /\ forall (c : crow) (name : string),
           In c df_t3 -> name_of c = Some name ->
           exists g : agg_row,
             In g (agg df_t3)
             /\ g_channel_name g = name
             /\ g_cost_effectiveness g == c_cost_effectiveness c
             /\ g_subscriber_count g = Some (t3_subscribers (scored c))
             /\ g_country g = country (raw (t3_base (scored c))))
  /\ (~ In None (map name_of df_t3) ->
      Pandas.count (map name_of df_t3) = List.length df_t3).
Proof.
  assert (L : List.length (agg df_t3)
              = Pandas.nunique (Pandas.dropna (map name_of df_t3))).
  { unfold agg, channel_keys, Pandas.nunique. rewrite length_map.
    symmetry. apply Permutation_length. apply isort_perm. }
  split.
  { rewrite agg_names. unfold channel_keys.
    eapply Permutation_NoDup; [apply isort_perm | apply unique_NoDup]. }
  split; [intro name; rewrite agg_names; apply channel_keys_In |].
  split; [exact L |].
  split.
  { rewrite L. unfold Pandas.nunique.
    pose proof (unique_length_le (Pandas.dropna (map name_of df_t3))) as U.
    pose proof (dropna_length_le (map name_of df_t3)) as D.
    unfold Pandas.count in D. rewrite length_map in D. lia. }
  split.
  { intros g Hg. unfold agg in Hg. apply in_map_iff in Hg. destruct Hg as [name [<- Hn]].
    cbn. split; [| reflexivity].
    apply channel_rows_present. now apply channel_keys_In. }
  split.
  - intro N. split.
    { rewrite L. unfold Pandas.nunique, Pandas.count. now rewrite unique_of_NoDup. }
    intros c name Hc E.
    assert (K : In name (channel_keys df_t3)).
    { apply channel_keys_In. rewrite <- E. now apply in_map. }
    eexists. split; [unfold agg; apply in_map_iff; eexists; split; [reflexivity | exact K] |].
    cbn. rewrite (channel_rows_single df_t3 c name N Hc E). cbn.
    split; [reflexivity |]. split; [apply mean_single |]. split; [reflexivity |].
    unfold t3_subscribers. destruct (country (raw (t3_base (scored c)))); reflexivity.
  - intro H. rewrite count_all_named by exact H. apply length_map.
Qed.

Lemma firstn_length_min {A : Type} (n : nat) (l : list A) :
  List.length (firstn n l) = Nat.min n (List.length l).
Proof. apply length_firstn. Qed.

Section TopFacts.

Variable sort_values : bool -> list agg_row -> list agg_row.
Hypothesis sort_values_perm : forall asc l, Permutation l (sort_values asc l).
Hypothesis sort_values_sorted :
  forall asc l, StronglySorted (ce_order asc) (sort_values asc l).

(** X21. The ranking of Tab 3 holds the 15 channels of highest mean
    cost-effectiveness (all of them when there are fewer), in ascending
    order of the score: every channel left out scores no higher than every
    channel shown, the table is empty only when the aggregated table is,
    and its first row, which the channel selector picks by default, is the
    lowest-scoring of the channels shown. *)
Theorem top_keeps_highest_scores (agg : list agg_row) :
  List.length (top sort_values agg) = Nat.min 15 (List.length agg)
  /\ StronglySorted (ce_order true) (top sort_values agg)
  /\ (exists dropped : list agg_row,
        Permutation agg (top sort_values agg ++ dropped)%list
        /\ forall t d, In t (top sort_values agg) -> In d dropped ->
                       g_cost_effectiveness d <= g_cost_effectiveness t)
  /\ (forall first : agg_row,
        hd_error (top sort_values agg) = Some first ->
        forall t, In t (top sort_values agg) ->
                  g_cost_effectiveness first <= g_cost_effectiveness t)
  /\ (top sort_values agg = [] <-> agg = []).
Proof.
  unfold top.
  set (S := sort_values false agg).
  pose proof (sort_values_perm false agg) as P1. fold S in P1.
  pose proof (sort_values_sorted false agg) as S1. fold S in S1.
  pose proof (sort_values_perm true (firstn 15 S)) as P2.
  pose proof (sort_values_sorted true (firstn 15 S)) as S2.
  rewrite <- (firstn_skipn 15 S) in S1. apply StronglySorted_app_inv in S1.
  destruct S1 as [_ Hle].
  assert (Len : List.length (sort_values true (firstn 15 S))
                = Nat.min 15 (List.length agg)).
  { rewrite <- (Permutation_length P2), firstn_length_min.
    now rewrite <- (Permutation_length P1). }
  split; [exact Len |]. split; [exact S2 |].
  split.
  { exists (skipn 15 S). split.
    - rewrite <- P2, firstn_skipn. exact P1.
    - intros t d Ht Hd. apply (Hle t d); [| exact Hd].
      eapply Permutation_in; [symmetry; exact P2 | exact Ht]. }
  split.
  { intros first Hf t Ht.
    destruct (sort_values true (firstn 15 S)) as [| h rest]; [discriminate Hf |].
    cbn in Hf. injection Hf as ->.
    apply StronglySorted_inv in S2. destruct S2 as [_ F].
    destruct Ht as [<- | Ht]; [apply Qle_refl |].
    rewrite Forall_forall in F. exact (F t Ht). }
  split; intro H.
  - rewrite H in Len. cbn in Len. destruct agg; [reflexivity | cbn in Len; lia].
  - assert (E : List.length (sort_values true (firstn 15 S)) = 0%nat)
      by (rewrite Len, H; reflexivity).
    destruct (sort_values true (firstn 15 S)); [reflexivity | discriminate E].
Qed.

End TopFacts.

Lemma ce_leb_total (asc : bool) (a b : agg_row) :
  ce_leb asc a b = false -> ce_leb asc b a = true.
Proof. destruct asc; apply Qle_bool_total. Qed.

Lemma sort_values_by_insertion_perm (asc : bool) (l : list agg_row) :
  Permutation l (sort_values_by_insertion asc l).
Proof. apply isort_perm. Qed.

Lemma sort_values_by_insertion_sorted (asc : bool) (l : list agg_row) :
  StronglySorted (ce_order asc) (sort_values_by_insertion asc l).
Proof.
  apply Sorted_StronglySorted.
  - intros a b c. destruct asc; cbn; intros; eapply Qle_trans; eassumption.
  - pose proof (isort_sorted (ce_leb asc) (ce_leb_total asc) l) as H.
    unfold sort_values_by_insertion.
    induction H as [| x m Hs IH Hhd]; constructor; [exact IH |].
    destruct Hhd as [| y m' Hy]; constructor.
    destruct asc; cbn in *; now apply Qle_bool_iff.
Qed.

(** X21 on the three channels of the sample table, sorted by insertion. *)
Lemma top_keeps_highest_scores_witness :
  List.length (top sort_values_by_insertion (agg sample_scored)) = 3%nat
  /\ StronglySorted (ce_order true) (top sort_values_by_insertion (agg sample_scored)).
Proof.
  destruct (top_keeps_highest_scores sort_values_by_insertion
              sort_values_by_insertion_perm sort_values_by_insertion_sorted
              (agg sample_scored)) as [H1 [H2 _]].
  split; [exact H1 | exact H2].
Defined.

(** X20 on the sample table, where channel B is listed twice. *)
Lemma agg_merges_rows_by_channel_name_witness :
  map g_channel_name (agg sample_scored) = ["A"; "B"; "C"]
  /\ List.length (agg sample_scored) = 3%nat
  /\ (List.length (agg sample_scored) <= List.length sample_scored)%nat.
Proof.
  destruct (agg_merges_rows_by_channel_name sample_scored) as [_ [_ [H [L _]]]].
  split; [reflexivity | split; [exact H | exact L]].
Defined.

(** ** The default state of the filters *)

Import Sliders.









(** ** Tab 2: geographic success patterns *)

Import Geo.

Lemma key_eqb_eq (a b : key) : key_eqb a b = true <-> a = b.
Proof.
  destruct a as [[a1 a2] a3], b as [[b1 b2] b3]. unfold key_eqb. cbn [fst snd].
  rewrite !andb_true_iff, !String.eqb_eq. split.
  - intros [[-> ->] ->]. reflexivity.
  - intros [= -> -> ->]. repeat split.
Qed.

Lemma key_eqb_refl (a : key) : key_eqb a a = true.
Proof. now apply key_eqb_eq. Qed.

Lemma unique_keys_In (x : key) (s : list key) : In x (unique_keys s) <-> In x s.
Proof.
  induction s as [| y s IH]; cbn; [tauto |].
  rewrite filter_In, IH, negb_true_iff. split.
  - intros [H | [H _]]; [now left | now right].
  - intros [H | H]; [now left |].
    destruct (key_eqb y x) eqn:E; [left; now apply key_eqb_eq | right; split; [exact H | reflexivity]].
Qed.

Lemma unique_keys_NoDup (s : list key) : NoDup (unique_keys s).
Proof.
  induction s as [| y s IH]; cbn; constructor.
  - rewrite filter_In, key_eqb_refl. intros [_ C]. discriminate C.
  - now apply NoDup_filter.
Qed.

Lemma keys_of_In (k : key) (rows : list drow) :
  In k (keys_of rows) <-> exists d, In d rows /\ key_of d = Some k.
Proof.
  unfold keys_of. rewrite in_flat_map. split.
  - intros [d [Hd Hk]]. exists d. split; [exact Hd |].
    destruct (key_of d) as [k' |]; [destruct Hk as [-> | []]; reflexivity | contradiction].
  - intros [d [Hd Hk]]. exists d. split; [exact Hd |]. rewrite Hk. now left.
Qed.

Lemma geo_keys_spec (rows : list drow) :
  NoDup (geo_keys rows)
  /\ forall k, In k (geo_keys rows) <-> exists d, In d rows /\ key_of d = Some k.
Proof.
  unfold geo_keys. split.
  - eapply Permutation_NoDup; [apply isort_perm | apply unique_keys_NoDup].
  - intro k. rewrite <- keys_of_In. split; intro H.
    + apply unique_keys_In. eapply Permutation_in; [symmetry; apply isort_perm | exact H].
    + apply unique_keys_In in H. eapply Permutation_in; [apply isort_perm | exact H].
Qed.

Lemma total_key_indicator (k : key) (ks : list key) :
  NoDup ks -> In k ks ->
  total (map (fun k' => if key_eqb k k' then 1%nat else 0%nat) ks) = 1%nat.
Proof.
  induction ks as [| x ks IH]; intros N H; [contradiction |].
  apply NoDup_cons_iff in N. destruct N as [Nx Nl]. cbn [map total fold_right].
  fold (total (map (fun k' => if key_eqb k k' then 1%nat else 0%nat) ks)).
  destruct (key_eqb k x) eqn:E.
  - apply key_eqb_eq in E. subst x.
    assert (Z0 : total (map (fun k' => if key_eqb k k' then 1%nat else 0%nat) ks) = 0%nat).
    { clear IH Nl H. induction ks as [| y ks IH]; [reflexivity |].
      cbn [map total fold_right].
      fold (total (map (fun k' => if key_eqb k k' then 1%nat else 0%nat) ks)).
      destruct (key_eqb k y) eqn:E; [apply key_eqb_eq in E; exfalso; apply Nx; now left |].
      rewrite IH; [reflexivity |]. intro C. apply Nx. now right. }
    rewrite Z0. reflexivity.
  - destruct H as [-> | H]; [rewrite key_eqb_refl in E; discriminate E |]. now rewrite IH.
Qed.

Lemma total_zero {A : Type} (l : list A) : total (map (fun _ => 0%nat) l) = 0%nat.
Proof. induction l as [| a l IH]; [reflexivity | exact IH]. Qed.

(** The group sizes add up to the number of rows that have a key. *)
Lemma groups_partition (ks : list key) (rows : list drow) :
  NoDup ks ->
  (forall d k, In d rows -> key_of d = Some k -> In k ks) ->
  total (map (fun k => List.length (filter (has_key k) rows)) ks)
  = List.length (filter keyed rows).
Proof.
  intros N. induction rows as [| d rows IH]; intro H.
  - cbn. apply total_zero.
  - rewrite (map_ext _ (fun k => ((if has_key k d then 1 else 0)
                                  + List.length (filter (has_key k) rows))%nat)).
    + rewrite total_map_add, IH by (intros x k Hx; apply H; now right).
      cbn [filter]. unfold keyed at 2, has_key.
      destruct (key_of d) as [k |] eqn:K.
      * rewrite (total_key_indicator k ks N (H d k (or_introl eq_refl) K)). reflexivity.
      * rewrite total_zero. reflexivity.
    + intro k. cbn [filter]. destruct (has_key k d); reflexivity.
Qed.

Lemma count_of_positive (c : string) (s : list string) :
  (0 < count_of c s)%nat <-> In c s.
Proof.
  unfold count_of. induction s as [| x s IH]; cbn; [split; [lia | tauto] |].
  destruct (String.eqb_spec c x) as [-> | N]; cbn.
  - split; [intros _; now left | lia].
  - rewrite IH. split; [now right | intros [E | H]; [congruence | exact H]].
Qed.

Lemma category_counts_keys (s : list string) :
  map fst (category_counts s) = Pandas.unique s.
Proof. unfold category_counts. rewrite map_map. cbn. apply map_id. Qed.

Lemma category_counts_entry (s : list string) (e : string * nat) :
  In e (category_counts s) -> In (fst e) s /\ snd e = count_of (fst e) s.
Proof.
  unfold category_counts. intro H. apply in_map_iff in H.
  destruct H as [c [<- Hc]]. cbn. split; [now apply unique_In | reflexivity].
Qed.

Lemma isort_StronglySorted {A : Type} (leb : A -> A -> bool) (R : A -> A -> Prop)
      (l : list A) :
  (forall a b, leb a b = false -> leb b a = true) ->
  (forall a b c, R a b -> R b c -> R a c) ->
  (forall a b, leb a b = true -> R a b) ->
  StronglySorted R (Pandas.isort leb l).
Proof.
  intros T Tr Imp. apply Sorted_StronglySorted; [exact Tr |].
  pose proof (isort_sorted leb T l) as H.
  induction H as [| x m Hs IH Hhd]; constructor; [exact IH |].
  destruct Hhd as [| y m' Hy]; constructor. now apply Imp.
Qed.

Lemma cell_isin_Some (c : option string) (values : list string) :
  Pandas.cell_isin c (map Some values) = true <-> exists x, c = Some x /\ In x values.
Proof.
  unfold Pandas.cell_isin. rewrite existsb_exists. split.
  - intros [y [Hy E]]. apply in_map_iff in Hy. destruct Hy as [x [<- Hx]].
    destruct c as [z |]; [| discriminate E]. cbn in E. apply String.eqb_eq in E.
    subst z. now exists x.
  - intros [x [-> Hx]]. exists (Some x). split; [now apply in_map | apply String.eqb_refl].
Qed.

Lemma firstn_In {A : Type} (n : nat) (l : list A) (x : A) :
  In x (firstn n l) -> In x l.
Proof. intro H. rewrite <- (firstn_skipn n l). apply in_or_app. now left. Qed.

Section GeographicFacts.

Variable value_counts : list string -> list (string * nat).
Hypothesis value_counts_perm :
  forall s, Permutation (category_counts s) (value_counts s).
Hypothesis value_counts_sorted :
  forall s, StronglySorted more_frequent (value_counts s).

(** X23. The geographic view reads at most ten categories, all distinct
    and all present in the filtered table, and no category left out has
    more rows than one that is kept; when the table has at most ten
    categories the category test removes only the rows without a category,
    so no row when every row has one. *)
Theorem top_categories_are_the_most_frequent (df_t2 : list drow) :
  (List.length (top_categories value_counts df_t2) <= 10)%nat
  /\ NoDup (top_categories value_counts df_t2)
  /\ (forall c, In c (top_categories value_counts df_t2) ->
                In (Some c) (map (fun d => category (raw d)) df_t2))
  /\ (forall c t,
        In (Some c) (map (fun d => category (raw d)) df_t2) ->
        ~ In c (top_categories value_counts df_t2) ->
        In t (top_categories value_counts df_t2) ->
        (count_of c (Pandas.dropna (map (fun d => category (raw d)) df_t2))
         <= count_of t (Pandas.dropna (map (fun d => category (raw d)) df_t2)))%nat)
  /\ ((Pandas.nunique (Pandas.dropna (map (fun d => category (raw d)) df_t2)) <= 10)%nat ->
      geo_input value_counts df_t2
      = filter (fun d => match category (raw d) with Some _ => true | None => false end)
               df_t2
      /\ (~ In None (map (fun d => category (raw d)) df_t2) ->
          geo_input value_counts df_t2 = df_t2)).
Proof.
  unfold geo_input, top_categories.
  set (cats := Pandas.dropna (map (fun d => category (raw d)) df_t2)).
  pose proof (value_counts_perm cats) as P.
  pose proof (value_counts_sorted cats) as S.
  set (V := value_counts cats) in *.
  assert (Keys : Permutation (Pandas.unique cats) (map fst V)).
  { rewrite <- category_counts_keys. now apply Permutation_map. }
  assert (Entry : forall e, In e V -> In (fst e) cats /\ snd e = count_of (fst e) cats).
  { intros e He. apply category_counts_entry.
    eapply Permutation_in; [symmetry; exact P | exact He]. }
  assert (Split : map fst V = (map fst (firstn 10 V) ++ map fst (skipn 10 V))%list)
    by (rewrite <- map_app, firstn_skipn; reflexivity).
  assert (ND : NoDup (map fst V))
    by (eapply Permutation_NoDup; [exact Keys | apply unique_NoDup]).
  split; [rewrite length_map, length_firstn; lia |].
  split; [rewrite Split in ND; now apply NoDup_app_remove_r in ND |].
  split.
  { intros c Hc. apply in_map_iff in Hc. destruct Hc as [e [<- He]].
    apply dropna_In. apply (Entry e). apply (firstn_In 10 V). exact He. }
  split.
  { intros c t Hc Hnot Ht.
    assert (Hv : In c (map fst V))
      by (eapply Permutation_in; [exact Keys | apply unique_In; now apply dropna_In]).
    rewrite Split in Hv. apply in_app_or in Hv. destruct Hv as [Hv | Hv]; [contradiction |].
    apply in_map_iff in Hv. destruct Hv as [ec [<- Hec]].
    apply in_map_iff in Ht. destruct Ht as [et [<- Het]].
    rewrite <- (firstn_skipn 10 V) in S. apply StronglySorted_app_inv in S.
    destruct S as [_ Hle]. specialize (Hle et ec Het Hec). unfold more_frequent in Hle.
    destruct (Entry ec) as [_ E1]; [rewrite <- (firstn_skipn 10 V); apply in_or_app; now right |].
    destruct (Entry et) as [_ E2]; [rewrite <- (firstn_skipn 10 V); apply in_or_app; now left |].
    rewrite <- E1, <- E2. exact Hle. }
  intro Hn.
  assert (Len : (List.length V <= 10)%nat).
  { rewrite <- (length_map fst V), <- (Permutation_length Keys). exact Hn. }
  rewrite firstn_all2 by exact Len.
  assert (F : filter (fun d => Pandas.cell_isin (category (raw d)) (map Some (map fst V)))
                     df_t2
              = filter (fun d => match category (raw d) with
                                 | Some _ => true
                                 | None => false
                                 end) df_t2).
  { apply filter_ext_in. intros d Hd.
    destruct (category (raw d)) as [c |] eqn:C.
    - apply cell_isin_Some. exists c. split; [reflexivity |].
      eapply Permutation_in; [exact Keys |]. apply unique_In. unfold cats.
      apply dropna_In. rewrite <- C.
      apply (in_map (fun d => category (raw d))). exact Hd.
    - apply not_true_iff_false. intro E. apply cell_isin_Some in E.
      destruct E as [x [E _]]. discriminate E. }
  split; [exact F |].
  intro NN. rewrite F. apply forallb_filter_id. apply forallb_forall. intros d Hd.
  destruct (category (raw d)) eqn:C; [reflexivity |].
  exfalso. apply NN. rewrite <- C. apply (in_map (fun d => category (raw d))). exact Hd.
Qed.

(** X24. Every row of the geographic table stands for at least one row
    of a kept category with that country, country name and category, and
    its channel count is the number of such rows that name a channel; the
    counts add up to the number of kept rows that have a country and a
    channel name, so rows with a missing country are in no group. *)
Theorem geo_data_skips_missing_countries (df_t2 : list drow) :
  (forall g : geo_row,
     In g (geo_data value_counts df_t2) ->
     In (geo_category g) (top_categories value_counts df_t2)
     /\ geo_channel_name g
        = List.length
            (filter (fun d => has_key (geo_country g, geo_country_name g, geo_category g) d
                              && names_a_channel d)
                    (geo_input value_counts df_t2))
     /\ exists d : drow,
          In d df_t2
          /\ country (raw d) = Some (geo_country g)
          /\ country_name d = geo_country_name g
          /\ category (raw d) = Some (geo_category g))
  /\ total (map geo_channel_name (geo_data value_counts df_t2))
     = List.length
         (filter (fun d => match country (raw d) with Some _ => true | None => false end
                           && names_a_channel d)
                 (geo_input value_counts df_t2)).
Proof.
  destruct (geo_keys_spec (geo_input value_counts df_t2)) as [N K].
  assert (Cnt : forall k,
             Pandas.count (map (fun d => channel_name (raw d))
                               (filter (has_key k) (geo_input value_counts df_t2)))
             = List.length (filter (has_key k)
                              (filter names_a_channel (geo_input value_counts df_t2)))).
  { intro k. rewrite count_map. f_equal. apply filter_comm. }
  split.
  - intros g Hg. unfold geo_data in Hg. apply in_map_iff in Hg.
    destruct Hg as [k [<- Hk]]. cbn [geo_category geo_channel_name geo_country geo_country_name].
    rewrite Cnt. destruct k as [[c n] cat]. cbn [fst snd].
    apply K in Hk. destruct Hk as [d [Hd Kd]].
    pose proof Hd as Hd'. unfold geo_input in Hd'. apply filter_In in Hd'.
    destruct Hd' as [Hdf Hcat]. apply cell_isin_Some in Hcat.
    destruct Hcat as [x [Ex Hx]].
    unfold key_of in Kd. destruct (country (raw d)) as [c' |] eqn:C; [| discriminate Kd].
    rewrite Ex in Kd. injection Kd as -> <- <-.
    split; [exact Hx |]. split.
    + f_equal. rewrite filter_and. apply filter_ext. intro y. apply andb_comm.
    + exists d. repeat split; assumption.
  - unfold geo_data. rewrite map_map. cbn [geo_channel_name].
    rewrite (map_ext _ _ Cnt).
    rewrite (groups_partition _ _ N).
    + rewrite filter_and. f_equal. apply filter_ext_in. intros d Hd.
      unfold keyed, key_of. unfold geo_input in Hd. apply filter_In in Hd.
      destruct Hd as [_ Hc]. apply cell_isin_Some in Hc. destruct Hc as [x [-> _]].
      rewrite andb_comm. destruct (country (raw d)); reflexivity.
    + intros d k Hd Hk. apply K. exists d. apply filter_In in Hd. tauto.
Qed.

(** X25. The treemap shows at most 25 groups, all of them when there are
    fewer, in descending order of performance_score, and every group left
    out scores no higher than every group shown. *)
Theorem geo_data_top_keeps_highest_scores (df_t2 : list drow) :
  List.length (geo_data_top value_counts df_t2)
  = Nat.min 25 (List.length (geo_data value_counts df_t2))
  /\ StronglySorted (fun a b => c_performance_score b <= c_performance_score a)
                    (geo_data_top value_counts df_t2)
  /\ (forall s, In s (geo_data_top value_counts df_t2) ->
        In (geo s) (geo_data value_counts df_t2)
        /\ c_performance_score s
           = geo_view_count (geo s) / 1000000 + geo_subscriber_count (geo s) / 100000)
  /\ exists dropped : list scored_row,
       Permutation (map geo (geo_data_top value_counts df_t2 ++ dropped)%list)
                   (geo_data value_counts df_t2)
       /\ forall s d, In s (geo_data_top value_counts df_t2) -> In d dropped ->
                      c_performance_score d <= c_performance_score s.
Proof.
  unfold geo_data_top, nlargest.
  set (scored := map (fun g => mkScored g (performance_score (geo_view_count g)
                                                             (geo_subscriber_count g)))
                     (geo_data value_counts df_t2)).
  pose proof (isort_perm score_geb scored) as P.
  assert (T : forall a b, score_geb a b = false -> score_geb b a = true)
    by (intros a b; apply Qle_bool_total).
  assert (S : StronglySorted (fun a b => c_performance_score b <= c_performance_score a)
                             (Pandas.isort score_geb scored)).
  { apply isort_StronglySorted; [exact T | |].
    - intros a b c H1 H2. eapply Qle_trans; eassumption.
    - intros a b H. now apply Qle_bool_iff. }
  assert (G : map geo scored = geo_data value_counts df_t2)
    by (unfold scored; rewrite map_map; cbn; apply map_id).
  set (O := Pandas.isort score_geb scored) in *.
  pose proof S as S'. rewrite <- (firstn_skipn 25 O) in S'.
  apply StronglySorted_app_inv in S'. destruct S' as [_ Hle].
  split.
  { rewrite length_firstn, <- (Permutation_length P). unfold scored. now rewrite length_map. }
  split.
  { rewrite <- (firstn_skipn 25 O) in S. clear - S.
    induction (firstn 25 O) as [| x l IH]; [constructor |].
    cbn in S. apply StronglySorted_inv in S. destruct S as [S1 S2].
    constructor; [now apply IH |].
    apply Forall_forall. intros y Hy. rewrite Forall_forall in S2. apply S2.
    apply in_or_app. now left. }
  split.
  { intros s Hs. apply firstn_In in Hs.
    assert (Hin : In s scored) by (eapply Permutation_in; [symmetry; exact P | exact Hs]).
    unfold scored in Hin. apply in_map_iff in Hin. destruct Hin as [g [<- Hg]].
    cbn. split; [exact Hg | reflexivity]. }
  exists (skipn 25 O). split.
  - rewrite firstn_skipn, <- G. apply Permutation_map. symmetry. exact P.
  - intros s d Hs Hd. exact (Hle s d Hs Hd).
Qed.

End GeographicFacts.

Lemma value_counts_by_insertion_perm (s : list string) :
  Permutation (category_counts s) (value_counts_by_insertion s).
Proof. apply isort_perm. Qed.

Lemma value_counts_by_insertion_sorted (s : list string) :
  StronglySorted more_frequent (value_counts_by_insertion s).
Proof.
  apply Sorted_StronglySorted.
  - intros a b c. unfold more_frequent. lia.
  - assert (T : forall a b : string * nat,
               (snd b <=? snd a)%nat = false -> (snd a <=? snd b)%nat = true).
    { intros a b H. apply Nat.leb_gt in H. apply Nat.leb_le. lia. }
    pose proof (isort_sorted (fun a b : string * nat => (snd b <=? snd a)%nat) T
                  (category_counts s)) as H.
    unfold value_counts_by_insertion.
    induction H as [| x m Hs IH Hhd]; constructor; [exact IH |].
    destruct Hhd as [| y m' Hy]; constructor. unfold more_frequent. now apply Nat.leb_le.
Qed.

(** X23 on the ranking table of three categories. *)
Lemma top_categories_are_the_most_frequent_witness :
  top_categories value_counts_by_insertion Samples.ranking_table = ["Gaming"; "Music"; "News"]
  /\ geo_input value_counts_by_insertion Samples.ranking_table = Samples.ranking_table.
Proof.
  destruct (top_categories_are_the_most_frequent value_counts_by_insertion
              value_counts_by_insertion_perm value_counts_by_insertion_sorted
              Samples.ranking_table) as [_ [_ [_ [_ H]]]].
  split; [vm_compute; reflexivity |].
  destruct H as [_ H]; [vm_compute; lia |]. apply H.
  intro C. vm_compute in C.
  repeat (destruct C as [C | C]; [discriminate C |]). exact C.
Defined.

(** X24 on a table where one of three channels has no country. *)
Lemma geo_data_skips_missing_countries_witness :
  total (map geo_channel_name
             (geo_data value_counts_by_insertion
                       (ingest [Samples.chan_A; MoreSamples.stateless_row; Samples.chan_B])))
  = 2%nat.
Proof.
  rewrite (proj2 (geo_data_skips_missing_countries value_counts_by_insertion
                    (ingest [Samples.chan_A; MoreSamples.stateless_row; Samples.chan_B]))).
  vm_compute. reflexivity.
Defined.

(** X25 on the same table. *)
Lemma geo_data_top_keeps_highest_scores_witness :
  List.length (geo_data_top value_counts_by_insertion
                 (ingest [Samples.chan_A; MoreSamples.stateless_row; Samples.chan_B]))
  = 2%nat.
Proof.
  rewrite (proj1 (geo_data_top_keeps_highest_scores value_counts_by_insertion
                    (ingest [Samples.chan_A; MoreSamples.stateless_row; Samples.chan_B]))).
  vm_compute. reflexivity.
Defined.
